(** * GTU Learn UI: progress, notes, revision, quiz-history and paper-loader model

    A shallow embedding of the client-side stores and of the paper loader of
    the [gtu-learn-ui] application, with the properties of its specification
    stated and settled against it.

    Conventions of the embedding:
    - a JavaScript string that is processed character by character (paper
      text, JSON bodies) is a list of UTF-16 code units ([JS.jsstring]);
      identifiers used as map keys (paper ids, question ids) are [string];
    - a [Date] is its [getTime()] value, an integer number of milliseconds;
      local time is read through the time zone of the host ([Progress.Zone]),
      clock changes included;
    - a JavaScript number that only ever holds an integer is a [Z]; where
      the code divides, the quotient is computed in IEEE-754 binary64
      ([JS.num], on the Standard Library's [SpecFloat]) and rounded with
      [JS.Math_round] exactly as [Math.round] does;
    - [localStorage] holds, per key, the value that [JSON.parse] gives back
      for what was written with [JSON.stringify]; writes are assumed to
      succeed (the [try]/[catch] around them only logs). *)

From Stdlib Require Import ZArith NArith List Bool Lia String Ascii DecimalString.
From Stdlib Require Import Floats.SpecFloat.
From Stdlib Require Import Sorting.Permutation Sorting.Sorted.
From stdpp Require Import base strings gmap.

Import ListNotations.
Local Open Scope Z_scope.

Set Warnings "-register-all".

(** ** JavaScript prelude *)

Module JS.

(** UTF-16 code units and strings of them. *)
Definition char := N.
Definition jsstring := list char.

(** A literal: the code units of an ASCII string. *)
Definition lit (s : string) : jsstring :=
  List.map N_of_ascii (list_ascii_of_string s).

Definition char_eqb (a b : char) : bool := N.eqb a b.

Fixpoint str_eqb (a b : jsstring) : bool :=
  match a, b with
  | [], [] => true
  | x :: a', y :: b' => char_eqb x y && str_eqb a' b'
  | _, _ => false
  end.

(** [LineTerminator] of the language grammar. *)
Definition is_line_terminator (c : char) : bool :=
  (N.eqb c 10 || N.eqb c 13 || N.eqb c 8232 || N.eqb c 8233)%N.

(** [WhiteSpace] and [LineTerminator]: what [\s] and [trim] recognise. *)
Definition is_space (c : char) : bool :=
  ((N.leb 9 c && N.leb c 13) || N.eqb c 32 || N.eqb c 160 || N.eqb c 5760
   || (N.leb 8192 c && N.leb c 8202) || N.eqb c 8232 || N.eqb c 8233
   || N.eqb c 8239 || N.eqb c 8287 || N.eqb c 12288 || N.eqb c 65279)%N.

Fixpoint trimStart (s : jsstring) : jsstring :=
  match s with
  | c :: s' => if is_space c then trimStart s' else s
  | [] => []
  end.

Definition trimEnd (s : jsstring) : jsstring := rev (trimStart (rev s)).

Definition trim (s : jsstring) : jsstring := trimEnd (trimStart s).

Fixpoint startsWith (p s : jsstring) : bool :=
  match p, s with
  | [], _ => true
  | x :: p', y :: s' => char_eqb x y && startsWith p' s'
  | _ :: _, [] => false
  end.

(** *** Objects used as maps: members in property order *)

Section Assoc.
Context {K A : Type} (eqb : K -> K -> bool).

Fixpoint assoc_get (k : K) (ms : list (K * A)) : option A :=
  match ms with
  | [] => None
  | (k', v) :: ms' => if eqb k k' then Some v else assoc_get k ms'
  end.

(** Assignment to a property: in place when the key exists, appended
    otherwise. *)
Fixpoint assoc_set (ms : list (K * A)) (k : K) (v : A) : list (K * A) :=
  match ms with
  | [] => [(k, v)]
  | (k', v') :: ms' =>
      if eqb k k' then (k', v) :: ms' else (k', v') :: assoc_set ms' k v
  end.

(** [delete obj[k]]. *)
Fixpoint assoc_delete (ms : list (K * A)) (k : K) : list (K * A) :=
  match ms with
  | [] => []
  | (k', v') :: ms' =>
      if eqb k k' then ms' else (k', v') :: assoc_delete ms' k
  end.
End Assoc.

(** [String.prototype.startsWith] and [includes] on identifiers. *)
Fixpoint has_prefix (p s : string) : bool :=
  match p with
  | EmptyString => true
  | String a p' =>
      match s with
      | EmptyString => false
      | String b s' => Ascii.eqb a b && has_prefix p' s'
      end
  end.

Fixpoint includes (sep s : string) : bool :=
  has_prefix sep s
  || match s with
     | EmptyString => false
     | String _ s' => includes sep s'
     end.

(** *** Numbers: IEEE-754 binary64 *)

Definition num := spec_float.

Definition prec : Z := 53.
Definition emax : Z := 1024.

(** The number nearest to an integer (round to nearest, ties to even). *)
Definition of_Z (z : Z) : num := binary_normalize prec emax z 0 false.

Definition div (x y : num) : num := SFdiv prec emax x y.
Definition mul (x y : num) : num := SFmul prec emax x y.

(** [Math.round]: the integer nearest to [x], ties towards +infinity;
    [None] stands for the results that are not integers (NaN and the
    infinities, which [Math.round] returns unchanged). *)
Definition Math_round (x : num) : option Z :=
  match x with
  | S754_zero _ => Some 0
  | S754_finite s m e =>
      let v := if s then Z.neg m else Z.pos m in
      if 0 <=? e then Some (v * 2 ^ e)
      else Some ((2 * v + 2 ^ (- e)) / 2 ^ (- e + 1))
  | _ => None
  end.

(** [Math.round(a / b)] on integers. *)
Definition round_quotient (a b : Z) : option Z :=
  Math_round (div (of_Z a) (of_Z b)).

(** [Math.round((a / b) * 100)] on integers. *)
Definition round_percent (a b : Z) : option Z :=
  Math_round (mul (div (of_Z a) (of_Z b)) (of_Z 100)).

(** The integer a rounded number is stored as; the default stands for
    NaN and the infinities, which finite operands and a divisor other
    than zero never produce. *)
Definition int_of (r : option Z) : Z :=
  match r with Some z => z | None => 0 end.

(** Decimal digits of a non-negative integer, as template literals
    print them. *)
Definition decimal (z : Z) : string := NilZero.string_of_int (Z.to_int z).

End JS.

(** ** Regular expressions, as [String.prototype.replace] runs them *)

Module Regex.
Import JS.

(** Character classes of the patterns in the sources. *)
Inductive cclass :=
| Is (c : char)          (* a literal character *)
| IsNot (c : char)       (* [^c] *)
| Space                  (* \s *)
| Any                    (* [\s\S] *)
| Alpha.                 (* [a-zA-Z] *)

Definition in_class (k : cclass) (c : char) : bool :=
  match k with
  | Is d => char_eqb c d
  | IsNot d => negb (char_eqb c d)
  | Space => is_space c
  | Any => true
  | Alpha => ((N.leb 97 c && N.leb c 122) || (N.leb 65 c && N.leb c 90))%N
  end.

Inductive re :=
| Chr (k : cclass)
| Eps
| Seq (r1 r2 : re)
| Star (greedy : bool) (r : re)   (* r* and r*? *)
| Group (r : re)                  (* the capture group $1 *)
| Bol                             (* ^ under the m flag *)
| Eol                             (* $ under the m flag *)
| Eoi.                            (* $ without the m flag *)

Definition Plus (greedy : bool) (r : re) : re := Seq r (Star greedy r).

(** The pattern matching a literal text. *)
Fixpoint Lit (s : jsstring) : re :=
  match s with
  | [] => Eps
  | [c] => Chr (Is c)
  | c :: s' => Seq (Chr (Is c)) (Lit s')
  end.

Fixpoint Cat (rs : list re) : re :=
  match rs with
  | [] => Eps
  | [r] => r
  | r :: rs' => Seq r (Cat rs')
  end.

(** A matcher state: the code unit before the current position, the
    rest of the input and the text captured by the group so far. *)
Definition outcome := option (jsstring * option jsstring).
Definition cont := option char -> jsstring -> option jsstring -> outcome.

Definition at_line_start (prev : option char) : bool :=
  match prev with
  | None => true
  | Some c => is_line_terminator c
  end.

Definition at_line_end (s : jsstring) : bool :=
  match s with
  | [] => true
  | c :: _ => is_line_terminator c
  end.

(** The backtracking matcher of the language specification, in
    continuation-passing style: alternatives are tried in priority order
    and an iteration of a star that consumes nothing is rejected. *)
Fixpoint rmatch (r : re) (prev : option char) (s : jsstring)
         (cap : option jsstring) (k : cont) {struct r} : outcome :=
  match r with
  | Chr cl =>
      match s with
      | c :: s' => if in_class cl c then k (Some c) s' cap else None
      | [] => None
      end
  | Eps => k prev s cap
  | Seq r1 r2 =>
      rmatch r1 prev s cap (fun prev' s' cap' => rmatch r2 prev' s' cap' k)
  | Star greedy r' =>
      (fix loop (n : nat) (prev : option char) (s : jsstring)
           (cap : option jsstring) {struct n} : outcome :=
         match n with
         | O => k prev s cap
         | S n' =>
             let again (_ : unit) :=
               rmatch r' prev s cap
                 (fun prev' s' cap' =>
                    if (length s' <? length s)%nat
                    then loop n' prev' s' cap' else None) in
             if greedy then
               match again tt with
               | Some o => Some o
               | None => k prev s cap
               end
             else
               match k prev s cap with
               | Some o => Some o
               | None => again tt
               end
         end) (length s) prev s cap
  | Group r' =>
      rmatch r' prev s cap
        (fun prev' s' _ =>
           k prev' s' (Some (firstn (length s - length s') s)))
  | Bol => if at_line_start prev then k prev s cap else None
  | Eol => if at_line_end s then k prev s cap else None
  | Eoi => match s with [] => k prev s cap | _ :: _ => None end
  end.

(** A match at the current position: its length and its capture. *)
Definition match_at (r : re) (prev : option char) (s : jsstring)
  : option (nat * option jsstring) :=
  match rmatch r prev s None (fun _ s' cap => Some (s', cap)) with
  | Some (s', cap) => Some ((length s - length s')%nat, cap)
  | None => None
  end.

(** Replacement texts: literal pieces and [$1]. *)
Inductive piece :=
| Txt (s : jsstring)
| G1.

Definition expand (tpl : list piece) (cap : option jsstring) : jsstring :=
  List.concat
    (List.map (fun p => match p with
                        | Txt s => s
                        | G1 => match cap with Some c => c | None => [] end
                        end) tpl).

(** [s.replace(/r/g, tpl)]: every match, left to right, the search
    resuming where the previous match ended (one code unit further
    after an empty match).  [skip] counts the code units of the current
    match that are still to be dropped. *)
Fixpoint replace_g (r : re) (tpl : list piece) (prev : option char)
         (s : jsstring) (skip : nat) {struct s} : jsstring :=
  match skip with
  | S n =>
      match s with
      | [] => []
      | c :: s' => replace_g r tpl (Some c) s' n
      end
  | O =>
      match match_at r prev s with
      | Some (S n, cap) =>
          expand tpl cap ++
          match s with
          | [] => []
          | c :: s' => replace_g r tpl (Some c) s' n
          end
      | Some (O, cap) =>
          expand tpl cap ++
          match s with
          | [] => []
          | c :: s' => c :: replace_g r tpl (Some c) s' O
          end
      | None =>
          match s with
          | [] => []
          | c :: s' => c :: replace_g r tpl (Some c) s' O
          end
      end
  end.

(** [s.replace(/r/, tpl)]: the first match only. *)
Fixpoint replace_1 (r : re) (tpl : list piece) (prev : option char)
         (s : jsstring) {struct s} : jsstring :=
  match match_at r prev s with
  | Some (n, cap) => expand tpl cap ++ skipn n s
  | None =>
      match s with
      | [] => []
      | c :: s' => c :: replace_1 r tpl (Some c) s'
      end
  end.

(** One [replace] call of a cleanup function. *)
Record rule := Rule { rule_re : re; rule_global : bool; rule_tpl : list piece }.

Definition apply_rule (s : jsstring) (ru : rule) : jsstring :=
  if rule_global ru then replace_g (rule_re ru) (rule_tpl ru) None s O
  else replace_1 (rule_re ru) (rule_tpl ru) None s.

Definition apply_rules (rules : list rule) (s : jsstring) : jsstring :=
  fold_left apply_rule rules s.

End Regex.

(** ** Text cleanup ([utils/textUtils], [hooks/useQuestionPaper]) *)

Module TextUtils.
Import JS Regex.

Definition c1 (a : ascii) : char := N_of_ascii a.
Definition quote : jsstring := [34%N].
Definition nl : char := 10%N.

Definition all (r : re) (tpl : list piece) : rule := Rule r true tpl.
Definition first (r : re) (tpl : list piece) : rule := Rule r false tpl.

(** [\\name] replaced by a fixed text. *)
Definition symbol (name : string) (out : jsstring) : rule :=
  all (Lit (lit name)) [Txt out].

(** The [replace] calls of [formatMathContent], in source order.  The
    replacement symbols are the code units the source file holds. *)
Definition formatMathContent_rules : list rule :=
  [ all (Cat [Chr (Is (c1 "$")); Group (Plus true (Chr (IsNot (c1 "$"))));
              Chr (Is (c1 "$"))])
        [Txt (lit "<span class=" ++ quote ++ lit "inline-math" ++ quote ++ lit ">");
         G1; Txt (lit "</span>")];
    all (Cat [Lit (lit "$$"); Group (Plus true (Chr (IsNot (c1 "$"))));
              Lit (lit "$$")])
        [Txt (lit "<div class=" ++ quote ++ lit "display-math" ++ quote ++ lit ">");
         G1; Txt (lit "</div>")];
    all (Cat [Lit (lit "\mathbf{"); Group (Plus true (Chr (IsNot (c1 "}"))));
              Chr (Is (c1 "}"))])
        [Txt (lit "<strong>"); G1; Txt (lit "</strong>")];
    all (Cat [Lit (lit "\text{"); Group (Plus true (Chr (IsNot (c1 "}"))));
              Chr (Is (c1 "}"))])
        [G1];
    symbol "\quad" (lit "&nbsp;&nbsp;&nbsp;&nbsp;");
    symbol "\Rightarrow" [332; 263; 198]%N;
    symbol "\rightarrow" [332; 229; 198]%N;
    symbol "\leftarrow" [332; 229; 201]%N;
    symbol "\le" [332; 275; 380]%N;
    symbol "\ge" [332; 275; 378]%N;
    symbol "\ne" [332; 275; 256]%N;
    symbol "\pm" [9516; 9618]%N;
    symbol "\times" [9500; 346]%N;
    symbol "\div" [9500; 280]%N;
    symbol "\alpha" [9580; 9618]%N;
    symbol "\beta" [9580; 9619]%N;
    symbol "\gamma" [9580; 9474]%N;
    symbol "\delta" [9580; 9508]%N;
    symbol "\lambda" [9580; 9559]%N;
    symbol "\nabla" [332; 322; 263]%N;
    symbol "\partial" [332; 322; 233]%N;
    symbol "\sum" [332; 322; 230]%N;
    symbol "\int" [332; 322; 189]%N;
    symbol "\infty" [332; 322; 215]%N;
    all (Cat [Chr (Is (c1 "\")); Plus true (Chr Alpha); Chr (Is (c1 "{"));
              Group (Star true (Chr (IsNot (c1 "}")))); Chr (Is (c1 "}"))])
        [G1];
    all (Lit (lit "\\")) [Txt (lit "<br>")] ].

Definition formatMathContent (text : jsstring) : jsstring :=
  match text with
  | [] => []
  | _ => apply_rules formatMathContent_rules text
  end.

Definition ws : re := Star true (Chr Space).

(** The [replace] calls of [cleanAnswerText], in source order. *)
Definition cleanAnswerText_rules : list rule :=
  [ all (Cat [Chr (Is (c1 "|")); ws; Chr (Is (c1 ":")); ws; Lit (lit "---"); ws;
              Chr (Is (c1 "|")); ws; Chr (Is (c1 ":")); ws; Lit (lit "---"); ws;
              Chr (Is (c1 "|")); Star false (Chr Any); Lit [nl; nl]])
        [];
    all (Cat [Chr (Is (c1 "|")); ws; Lit (lit "Type"); ws; Chr (Is (c1 "|")); ws;
              Star true (Chr (IsNot (c1 "|"))); Chr (Is (c1 "|")); ws;
              Star true (Chr (IsNot (c1 "|"))); Chr (Is (c1 "|"))])
        [];
    first (Cat [Lit (lit "### **Memory Techniques**"); Star true (Chr Any); Eoi])
        [];
    first (Cat [Lit (lit "**Memory Techniques:**"); Star true (Chr Any); Eoi])
        [];
    all (Cat [Chr (Is nl); Chr (Is nl); Chr (Is nl); Star true (Chr (Is nl))])
        [Txt [nl; nl]];
    all (Cat [Plus true (Chr Space); Eol]) [];
    all (Cat [Bol; Plus true (Chr Space)]) [];
    all (Lit (lit "\$")) [Txt (lit "$")];
    all (Lit (lit "\[")) [Txt (lit "[")];
    all (Lit (lit "\]")) [Txt (lit "]")];
    first (Cat [Lit (lit "[Image of"); Star false (Chr Any); Eoi]) [];
    first (Cat [Lit (lit "(Note:"); Star false (Chr Any); Eoi]) [] ].

Definition cleanAnswerText (text : jsstring) : jsstring :=
  match text with
  | [] => []
  | _ => trim (apply_rules cleanAnswerText_rules text)
  end.

Definition formatQuestionText (text : jsstring) : jsstring :=
  match text with
  | [] => []
  | _ => formatMathContent text
  end.

End TextUtils.

(** ** JSON values and [JSON.parse] *)

Module Json.
Import JS.

(** A parsed JSON value.  A number literal is kept as mantissa and
    decimal exponent ([JNum m e] is [m * 10^e]); an object keeps its
    members in property order. *)
Inductive JSON :=
| JNull
| JBool (b : bool)
| JNum (m e : Z)
| JStr (s : jsstring)
| JArr (items : list JSON)
| JObj (members : list (jsstring * JSON)).

Definition obj_get (k : jsstring) (ms : list (jsstring * JSON)) : option JSON :=
  assoc_get str_eqb k ms.

Definition obj_set (ms : list (jsstring * JSON)) (k : jsstring) (v : JSON)
  : list (jsstring * JSON) :=
  assoc_set str_eqb ms k v.

(** The result of reading a property: [null.x] throws, a missing
    property is [undefined]. *)
Inductive access :=
| Throws
| Undefined
| Value (v : JSON).

Definition get_prop (v : JSON) (k : jsstring) : access :=
  match v with
  | JNull => Throws
  | JObj ms => match obj_get k ms with Some x => Value x | None => Undefined end
  | _ => Undefined
  end.

(** [v.k = x] on an object. *)
Definition set_prop (v : JSON) (k : jsstring) (x : JSON) : JSON :=
  match v with
  | JObj ms => JObj (obj_set ms k x)
  | _ => v
  end.

(** Whether the number literal [m * 10^e] is read as the number 0: the
    literal is zero, or its value is at most half of the smallest positive
    binary64 number, [2^-1074] (the conversion rounds to nearest, ties to
    even, so the half itself goes to 0). *)
Definition reads_as_zero (m e : Z) : bool :=
  (m =? 0) || ((e <? 0) && (Z.abs m * 2 ^ 1075 <=? 10 ^ (- e))).

Definition truthy (v : JSON) : bool :=
  match v with
  | JNull => false
  | JBool b => b
  | JNum m e => negb (reads_as_zero m e)
  | JStr s => match s with [] => false | _ => true end
  | JArr _ | JObj _ => true
  end.

Definition index_key (i : nat) : jsstring :=
  lit (NilZero.string_of_uint (Nat.to_uint i)).

(** The own enumerable properties copied by [{...v}]. *)
Definition spread (v : JSON) : list (jsstring * JSON) :=
  match v with
  | JObj ms => ms
  | JArr items => List.combine (List.map index_key (seq 0 (length items))) items
  | JStr s =>
      List.combine (List.map index_key (seq 0 (length s)))
                   (List.map (fun c => JStr [c]) s)
  | _ => []
  end.

(** *** The parser *)

Definition is_json_ws (c : char) : bool :=
  (N.eqb c 32 || N.eqb c 9 || N.eqb c 10 || N.eqb c 13)%N.

Fixpoint skip_ws (s : jsstring) : jsstring :=
  match s with
  | c :: s' => if is_json_ws c then skip_ws s' else s
  | [] => []
  end.

Definition digit (c : char) : option Z :=
  if (N.leb 48 c && N.leb c 57)%N then Some (Z.of_N c - 48) else None.

Definition hex (c : char) : option N :=
  if (N.leb 48 c && N.leb c 57)%N then Some (c - 48)%N
  else if (N.leb 97 c && N.leb c 102)%N then Some (c - 87)%N
  else if (N.leb 65 c && N.leb c 70)%N then Some (c - 55)%N
  else None.

(** A run of digits: its value appended to [acc], its length, the rest. *)
Fixpoint digits (s : jsstring) (acc : Z) (n : Z) : Z * Z * jsstring :=
  match s with
  | c :: s' =>
      match digit c with
      | Some d => digits s' (10 * acc + d) (n + 1)
      | None => (acc, n, s)
      end
  | [] => (acc, n, s)
  end.

Definition parse_int (s : jsstring) : option (Z * jsstring) :=
  match s with
  | c :: s' =>
      if N.eqb c 48 then Some (0, s')
      else match digit c with
           | Some d => let '(m, _, r) := digits s' d 1 in Some (m, r)
           | None => None
           end
  | [] => None
  end.

Definition parse_frac (m : Z) (s : jsstring) : option (Z * Z * jsstring) :=
  match s with
  | c :: s' =>
      if N.eqb c 46 then
        let '(m', n, r) := digits s' m 0 in
        if n =? 0 then None else Some (m', - n, r)
      else Some (m, 0, s)
  | [] => Some (m, 0, s)
  end.

Definition parse_exp (s : jsstring) : option (Z * jsstring) :=
  match s with
  | c :: s' =>
      if (N.eqb c 101 || N.eqb c 69)%N then
        let '(neg, s1) :=
          match s' with
          | d :: s'' =>
              if N.eqb d 45 then (true, s'')
              else if N.eqb d 43 then (false, s'') else (false, s')
          | [] => (false, s')
          end in
        let '(x, n, r) := digits s1 0 0 in
        if n =? 0 then None else Some (if neg then - x else x, r)
      else Some (0, s)
  | [] => Some (0, s)
  end.

Definition parse_number (s : jsstring) : option (JSON * jsstring) :=
  let '(neg, s0) :=
    match s with
    | c :: s' => if N.eqb c 45 then (true, s') else (false, s)
    | [] => (false, s)
    end in
  match parse_int s0 with
  | None => None
  | Some (m, s1) =>
      match parse_frac m s1 with
      | None => None
      | Some (m', e, s2) =>
          match parse_exp s2 with
          | None => None
          | Some (x, s3) => Some (JNum (if neg then - m' else m') (e + x), s3)
          end
      end
  end.

(** The characters of a string literal, after its opening quote. *)
Fixpoint parse_chars (s : jsstring) (acc : jsstring) {struct s}
  : option (jsstring * jsstring) :=
  match s with
  | [] => None
  | c :: r =>
      if N.eqb c 34 then Some (rev acc, r)
      else if N.eqb c 92 then
        match r with
        | [] => None
        | x :: r1 =>
            if N.eqb x 117 then
              match r1 with
              | a :: b :: c' :: d :: r2 =>
                  match hex a, hex b, hex c', hex d with
                  | Some ha, Some hb, Some hc, Some hd =>
                      parse_chars r2 ((((ha * 16 + hb) * 16 + hc) * 16 + hd)%N :: acc)
                  | _, _, _, _ => None
                  end
              | _ => None
              end
            else
              match
                (if N.eqb x 34 then Some 34 else if N.eqb x 92 then Some 92
                 else if N.eqb x 47 then Some 47 else if N.eqb x 98 then Some 8
                 else if N.eqb x 102 then Some 12 else if N.eqb x 110 then Some 10
                 else if N.eqb x 114 then Some 13 else if N.eqb x 116 then Some 9
                 else None)%N
              with
              | Some u => parse_chars r1 (u :: acc)
              | None => None
              end
        end
      else if N.ltb c 32 then None
      else parse_chars r (c :: acc)
  end.

Fixpoint parse_value (fuel : nat) (s : jsstring) {struct fuel}
  : option (JSON * jsstring) :=
  match fuel with
  | O => None
  | S fuel' =>
      match skip_ws s with
      | [] => None
      | c :: r =>
          if N.eqb c 34 then
            match parse_chars r [] with
            | Some (str, r') => Some (JStr str, r')
            | None => None
            end
          else if N.eqb c 91 then
            match skip_ws r with
            | d :: r' =>
                if N.eqb d 93 then Some (JArr [], r')
                else parse_items fuel' r []
            | [] => None
            end
          else if N.eqb c 123 then
            match skip_ws r with
            | d :: r' =>
                if N.eqb d 125 then Some (JObj [], r')
                else parse_members fuel' r []
            | [] => None
            end
          else if startsWith (lit "null") (c :: r) then Some (JNull, skipn 3 r)
          else if startsWith (lit "true") (c :: r) then Some (JBool true, skipn 3 r)
          else if startsWith (lit "false") (c :: r) then Some (JBool false, skipn 4 r)
          else parse_number (c :: r)
      end
  end
with parse_items (fuel : nat) (s : jsstring) (acc : list JSON) {struct fuel}
  : option (JSON * jsstring) :=
  match fuel with
  | O => None
  | S fuel' =>
      match parse_value fuel' s with
      | None => None
      | Some (v, r) =>
          match skip_ws r with
          | d :: r' =>
              if N.eqb d 44 then parse_items fuel' r' (v :: acc)
              else if N.eqb d 93 then Some (JArr (rev (v :: acc)), r')
              else None
          | [] => None
          end
      end
  end
with parse_members (fuel : nat) (s : jsstring) (acc : list (jsstring * JSON))
     {struct fuel} : option (JSON * jsstring) :=
  match fuel with
  | O => None
  | S fuel' =>
      match skip_ws s with
      | q :: r0 =>
          if N.eqb q 34 then
            match parse_chars r0 [] with
            | None => None
            | Some (key, r1) =>
                match skip_ws r1 with
                | colon :: r2 =>
                    if N.eqb colon 58 then
                      match parse_value fuel' r2 with
                      | None => None
                      | Some (v, r3) =>
                          match skip_ws r3 with
                          | d :: r4 =>
                              if N.eqb d 44
                              then parse_members fuel' r4 (obj_set acc key v)
                              else if N.eqb d 125
                              then Some (JObj (obj_set acc key v), r4)
                              else None
                          | [] => None
                          end
                      end
                    else None
                | [] => None
                end
            end
          else None
      | [] => None
      end
  end.

(** [JSON.parse]: one value, surrounded by white space only.  Every
    two units of fuel spent go with at least one character read, so the
    fuel given is never the reason for a failure. *)
Definition JSON_parse (text : jsstring) : option JSON :=
  match parse_value (S (2 * length text)) text with
  | Some (v, r) => match skip_ws r with [] => Some v | _ :: _ => None end
  | None => None
  end.

End Json.

(** ** The paper loader ([hooks/useQuestionPaper]) *)

Module QuestionPaper.
Import JS Json TextUtils.

(** The ways a load can fail: the three throw sites of
    [loadQuestionPaper], named as the error taxonomy names them, and the
    [TypeError] of calling [map] on a [questions] value that has none. *)
Inductive LoadError :=
| NotFound
| ServerError
| InvalidFormat
| ScriptError.

(** What the hook ends up with: [questionPaper] or [error]. *)
Inductive LoadResult :=
| Loaded (paper : JSON)
| Failed (e : LoadError).

(** [cleanAnswerText(question.answer)] on whatever the property holds:
    a falsy value gives the empty string, a string is cleaned, anything
    else has no [replace] method ([None]: an exception). *)
Definition clean_text (f : jsstring -> jsstring) (a : access) : option jsstring :=
  match a with
  | Throws => None
  | Undefined => Some []
  | Value v =>
      if truthy v then
        match v with
        | JStr s => Some (f s)
        | _ => None
        end
      else Some []
  end.

(** The body of [data.questions.map]: the question with its [answer] and
    [question_text] replaced, or the question itself when cleaning
    throws. *)
Definition clean_question (q : JSON) : JSON :=
  match get_prop q (lit "answer") with
  | Throws => q
  | a =>
      match clean_text cleanAnswerText a,
            clean_text formatQuestionText (get_prop q (lit "question_text")) with
      | Some answer, Some question_text =>
          JObj (obj_set (obj_set (spread q) (lit "answer") (JStr answer))
                        (lit "question_text") (JStr question_text))
      | _, _ => q
      end
  end.

Definition response_ok (status : Z) : bool := (200 <=? status) && (status <=? 299).

Section Loader.

(** The platform's [JSON.parse]. *)
Variable parse : jsstring -> option JSON.

(** [loadQuestionPaper] on a response with the given status and body. *)
Definition loadQuestionPaper (status : Z) (text : jsstring) : LoadResult :=
  if negb (response_ok status) then
    if status =? 404 then Failed NotFound else Failed ServerError
  else if startsWith (lit "<") (trim text) then Failed InvalidFormat
  else
    match parse text with
    | None => Failed InvalidFormat
    | Some data =>
        (* the diagnostics logged inside the parse [try] read
           [data.metadata]; on [null] that throws and is reported as a
           parse error *)
        match get_prop data (lit "metadata") with
        | Throws => Failed InvalidFormat
        | _ =>
            match get_prop data (lit "questions") with
            | Value qs =>
                if truthy data && truthy qs then
                  match qs with
                  | JArr items =>
                      Loaded (set_prop data (lit "questions")
                                       (JArr (List.map clean_question items)))
                  | _ => Failed ScriptError
                  end
                else Loaded data
            | _ => Loaded data
            end
        end
    end.

End Loader.

(** What the specification asks of an accepted body. *)
Definition has_metadata_and_questions (data : JSON) : bool :=
  match data with
  | JObj ms =>
      match obj_get (lit "metadata") ms, obj_get (lit "questions") ms with
      | Some _, Some _ => true
      | _, _ => false
      end
  | _ => false
  end.

End QuestionPaper.

(** ** Quiz history store ([hooks/useQuizHistory]) *)

Module QuizHistory.
Import JS.

Record QuizFilters := {
  subjects : list string;
  minMarks : Z;
  maxMarks : Z;
  selectedTags : list string;
  revisionOnly : bool
}.

Record QuizQuestionResult := {
  questionId : string;
  questionNo : string;
  subQuestionNo : string;
  marks : Z;
  timeSpent : Z;
  userAnswer : jsstring;
  isCorrect : bool;
  confidence : Z;
  difficulty : Z
}.

Record QuizAttempt := {
  id : string;
  paperId : string;
  startTime : Z;
  endTime : Z;
  duration : Z;
  totalQuestions : Z;
  correctAnswers : Z;
  score : Z;
  questions : list QuizQuestionResult;
  filters : option QuizFilters;
  isHidden : bool
}.

(** The hook's state: [attempts], and the value under the storage key
    ['quiz-history'] ([None]: nothing stored). *)
Record State := {
  attempts : list QuizAttempt;
  stored : option (list QuizAttempt)
}.

Definition initial (stored : option (list QuizAttempt)) : State :=
  {| attempts := []; stored := stored |}.

Definition isInvalidAttempt (attempt : QuizAttempt) : bool :=
  (duration attempt =? 0)
  && (Z.of_nat (length (questions attempt)) =? 0)
  && (correctAnswers attempt =? 0)
  && (score attempt =? 0).

Definition valid_only (l : list QuizAttempt) : list QuizAttempt :=
  List.filter (fun attempt => negb (isInvalidAttempt attempt)) l.

(** The mount effect: load, drop the invalid attempts, and rewrite the
    stored value when any was dropped. *)
Definition load (st : State) : State :=
  match stored st with
  | None => st
  | Some parsedAttempts =>
      let validAttempts := valid_only parsedAttempts in
      {| attempts := validAttempts;
         stored := if negb (length validAttempts =? length parsedAttempts)%nat
                   then Some validAttempts else stored st |}
  end.

Definition saveAttempts (newAttempts : list QuizAttempt)
  : option (list QuizAttempt) :=
  Some (valid_only newAttempts).

(** [quiz-${Date.now()}-${random suffix}]. *)
Definition attempt_id (now : Z) (suffix : string) : string :=
  "quiz-" +:+ decimal now +:+ "-" +:+ suffix.

Definition newAttempt {A} (paperId : string) (questions : list A)
           (filters : option QuizFilters) (now : Z) (suffix : string)
  : QuizAttempt :=
  {| id := attempt_id now suffix;
     paperId := paperId;
     startTime := now;
     endTime := now;
     duration := 0;
     totalQuestions := Z.of_nat (length questions);
     correctAnswers := 0;
     score := 0;
     questions := [];
     filters := filters;
     isHidden := false |}.

(** [startQuizAttempt]; [now] is the clock and [suffix] the random part
    of the id.  Returns the id and the new state. *)
Definition startQuizAttempt {A} (paperId : string) (questions : list A)
           (filters : option QuizFilters) (now : Z) (suffix : string)
           (st : State) : string * State :=
  let updated := attempts st ++ [newAttempt paperId questions filters now suffix] in
  (attempt_id now suffix,
   {| attempts := updated; stored := saveAttempts updated |}).

Definition sum_marks (results : list QuizQuestionResult) : Z :=
  fold_left (fun sum r => sum + marks r) results 0.

Definition correct_only (results : list QuizQuestionResult)
  : list QuizQuestionResult :=
  List.filter isCorrect results.

Definition quiz_score (results : list QuizQuestionResult) : Z :=
  let totalMarks := sum_marks results in
  let earnedMarks := sum_marks (correct_only results) in
  if 0 <? totalMarks then int_of (round_percent earnedMarks totalMarks) else 0.

Definition finish (attempt : QuizAttempt) (results : list QuizQuestionResult)
           (now : Z) : QuizAttempt :=
  {| id := id attempt;
     paperId := paperId attempt;
     startTime := startTime attempt;
     endTime := now;
     duration := int_of (round_quotient (now - startTime attempt) 1000);
     totalQuestions := totalQuestions attempt;
     correctAnswers := Z.of_nat (length (correct_only results));
     score := quiz_score results;
     questions := results;
     filters := filters attempt;
     isHidden := isHidden attempt |}.

Definition endQuizAttempt (attemptId : string)
           (results : list QuizQuestionResult) (now : Z) (st : State) : State :=
  let updated :=
    List.map (fun attempt =>
                if String.eqb (id attempt) attemptId
                then finish attempt results now else attempt)
             (attempts st) in
  {| attempts := valid_only updated; stored := saveAttempts updated |}.

Definition set_hidden (h : bool) (attempt : QuizAttempt) : QuizAttempt :=
  {| id := id attempt;
     paperId := paperId attempt;
     startTime := startTime attempt;
     endTime := endTime attempt;
     duration := duration attempt;
     totalQuestions := totalQuestions attempt;
     correctAnswers := correctAnswers attempt;
     score := score attempt;
     questions := questions attempt;
     filters := filters attempt;
     isHidden := h |}.

Definition hide_or_show (h : bool) (attemptId : string) (st : State) : State :=
  let updated :=
    List.map (fun attempt =>
                if String.eqb (id attempt) attemptId
                then set_hidden h attempt else attempt)
             (attempts st) in
  {| attempts := updated; stored := saveAttempts updated |}.

Definition hideAttempt := hide_or_show true.
Definition showAttempt := hide_or_show false.

Definition deleteAttempt (attemptId : string) (st : State) : State :=
  let updated :=
    List.filter (fun attempt => negb (String.eqb (id attempt) attemptId))
                (attempts st) in
  {| attempts := updated; stored := saveAttempts updated |}.

Definition cleanupInvalidAttempts (st : State) : State :=
  let validAttempts := valid_only (attempts st) in
  if (0 <? length (attempts st) - length validAttempts)%nat
  then {| attempts := validAttempts; stored := saveAttempts validAttempts |}
  else st.

Definition visibleAttempts (st : State) : list QuizAttempt :=
  List.filter (fun a => negb (isHidden a)) (attempts st).

(** The operations a component can run on the store. *)
Inductive step : State -> State -> Prop :=
| step_load st : step st (load st)
| step_start paperId (questions : list unit) filters now suffix st :
    step st (snd (startQuizAttempt paperId questions filters now suffix st))
| step_end attemptId results now st :
    step st (endQuizAttempt attemptId results now st)
| step_hide attemptId st : step st (hideAttempt attemptId st)
| step_show attemptId st : step st (showAttempt attemptId st)
| step_delete attemptId st : step st (deleteAttempt attemptId st)
| step_cleanup st : step st (cleanupInvalidAttempts st).

End QuizHistory.

(** ** Notes store ([hooks/useNotes]) *)

Module Notes.
Import JS.

(** [Record<string, string>], members in property order (note ids are
    [paper::question] texts, never array indices, so property order is
    insertion order). *)
Definition NotesMap := list (string * string).

(** A value found in storage: a string, or something else that
    [typeof value === 'string'] rejects. *)
Inductive stored_value :=
| VString (s : string)
| VOther.

Definition notes_get (k : string) (m : NotesMap) : option string :=
  assoc_get String.eqb k m.
Definition notes_set (m : NotesMap) (k v : string) : NotesMap :=
  assoc_set String.eqb m k v.
Definition notes_delete (m : NotesMap) (k : string) : NotesMap :=
  assoc_delete String.eqb m k.

(** The hook's state: [notes], and the value under the storage key
    ['gtu-learn-notes-v1']. *)
Record State := {
  notes : NotesMap;
  stored : option (list (string * stored_value))
}.

Definition initial (stored : option (list (string * stored_value))) : State :=
  {| notes := []; stored := stored |}.

Definition migrated_key (key : string) : string :=
  if includes "::" key then key else "default::" +:+ key.

(** The [forEach] of the mount effect. *)
Definition migrate (loadedNotes : list (string * stored_value)) : NotesMap :=
  fold_left
    (fun migratedNotes '(key, value) =>
       match value with
       | VString text => notes_set migratedNotes (migrated_key key) text
       | VOther => migratedNotes
       end)
    loadedNotes [].

Definition as_stored (m : NotesMap) : list (string * stored_value) :=
  List.map (fun '(k, v) => (k, VString v)) m.

(** The mount effect.  The write-back is guarded by a test on the keys
    of [migratedNotes]. *)
Definition load (st : State) : State :=
  match stored st with
  | None => st
  | Some loadedNotes =>
      let migratedNotes := migrate loadedNotes in
      {| notes := migratedNotes;
         stored :=
           if existsb (fun '(key, _) => negb (includes "::" key)) migratedNotes
           then Some (as_stored migratedNotes)
           else stored st |}
  end.

Definition saveNotes (next : NotesMap) : State :=
  {| notes := next; stored := Some (as_stored next) |}.

Definition createNoteId (questionId paperId : string) : string :=
  paperId +:+ "::" +:+ questionId.

Definition getNote (questionId paperId : string) (st : State) : string :=
  match notes_get (createNoteId questionId paperId) (notes st) with
  | Some text => text
  | None => ""
  end.

Definition setNote (questionId text paperId : string) (st : State) : State :=
  saveNotes (notes_set (notes st) (createNoteId questionId paperId) text).

Definition clearNote (questionId paperId : string) (st : State) : State :=
  saveNotes (notes_delete (notes st) (createNoteId questionId paperId)).

(** What the specification asks of a load: the migrated map is what
    storage holds afterwards. *)
Definition written_back (st : State) : Prop :=
  stored (load st) = Some (as_stored (notes (load st))).

End Notes.

(** ** Revision flags ([hooks/useRevisionToggle]) *)

Module Revision.
Import JS.

(** A [Set<string>]: its elements in insertion order, none twice. *)
Definition StringSet := list string.

Definition set_has (s : StringSet) (x : string) : bool :=
  existsb (String.eqb x) s.

Definition set_add (s : StringSet) (x : string) : StringSet :=
  if set_has s x then s else s ++ [x].

Definition set_delete (s : StringSet) (x : string) : StringSet :=
  List.filter (fun y => negb (String.eqb x y)) s.

(** [new Set(array)]. *)
Definition set_of_array (a : list string) : StringSet :=
  fold_left set_add a [].

(** The hook's state for one paper: [revisionQuestions], and the array
    under the storage key [revision-questions-${paperId}]. *)
Record State := {
  revisionQuestions : StringSet;
  stored : option (list string)
}.

Definition load (st : State) : State :=
  match stored st with
  | None => st
  | Some revisionArray =>
      {| revisionQuestions := set_of_array revisionArray; stored := stored st |}
  end.

Definition toggleRevision (questionId : string) (st : State) : State :=
  let newSet :=
    if set_has (revisionQuestions st) questionId
    then set_delete (revisionQuestions st) questionId
    else set_add (revisionQuestions st) questionId in
  {| revisionQuestions := newSet; stored := Some newSet |}.

Definition isMarkedForRevision (questionId : string) (st : State) : bool :=
  set_has (revisionQuestions st) questionId.

Definition getRevisionCount (st : State) : Z :=
  Z.of_nat (length (revisionQuestions st)).

(** The size of the persisted array (0 when nothing is stored). *)
Definition persisted_size (st : State) : Z :=
  match stored st with
  | Some a => Z.of_nat (length a)
  | None => 0
  end.

(** A state the hook can be in: the set has no repetition. *)
Definition wf (st : State) : Prop := List.NoDup (revisionQuestions st).

End Revision.

(** ** Progress tracker ([hooks/useProgressTracking]) *)

Module Progress.
Import JS.

Inductive SessionType := study | quiz | revision.

Record StudySession := {
  startTime : Z;
  endTime : option Z;
  duration : Z;
  sessionType : SessionType
}.

Record QuestionProgress := {
  questionId : string;
  paperId : string;
  completed : bool;
  completedAt : option Z;
  timeSpent : Z;
  reviewCount : Z;
  lastStudied : option Z;
  confidenceLevel : Z;
  studySessions : list StudySession
}.

(** [Partial<QuestionProgress>]: the properties an update carries. *)
Record Updates := {
  upd_questionId : option string;
  upd_paperId : option string;
  upd_completed : option bool;
  upd_completedAt : option (option Z);
  upd_timeSpent : option Z;
  upd_reviewCount : option Z;
  upd_lastStudied : option (option Z);
  upd_confidenceLevel : option Z;
  upd_studySessions : option (list StudySession)
}.

Definition no_updates : Updates :=
  {| upd_questionId := None; upd_paperId := None; upd_completed := None;
     upd_completedAt := None; upd_timeSpent := None; upd_reviewCount := None;
     upd_lastStudied := None; upd_confidenceLevel := None;
     upd_studySessions := None |}.

Record ActiveSession := {
  session_questionId : string;
  session_paperId : string;
  session_startTime : Z;
  session_type : SessionType
}.

Record Question := {
  question_no : string;
  sub_question_no : string;
  marks : Z;
  tags : list string;
  rating : option Z
}.

(** The hook's state: the [questionProgress] map, the open session and
    the value under the storage key ['progress-tracking-global']. *)
Record State := {
  questionProgress : gmap string QuestionProgress;
  activeSession : option ActiveSession;
  stored : option (gmap string QuestionProgress)
}.

Definition initial : State :=
  {| questionProgress := ∅; activeSession := None; stored := None |}.

(** [`${currentPaperId || paperId}::${questionId}`]. *)
Definition createGlobalKey (paperId questionId : string)
           (currentPaperId : option string) : string :=
  (match currentPaperId with
   | Some p => if String.eqb p "" then paperId else p
   | None => paperId
   end) +:+ "::" +:+ questionId.

(** [{ questionId, paperId, ...defaultQuestionProgress }]. *)
Definition fresh (questionId paperId : string) : QuestionProgress :=
  {| questionId := questionId;
     paperId := paperId;
     completed := false;
     completedAt := None;
     timeSpent := 0;
     reviewCount := 0;
     lastStudied := None;
     confidenceLevel := 0;
     studySessions := [] |}.

Definition getQuestionProgress (paperId questionId : string) (st : State)
  : QuestionProgress :=
  match questionProgress st !! createGlobalKey paperId questionId None with
  | Some p => p
  | None => fresh questionId paperId
  end.

Definition or_else {A} (o : option A) (d : A) : A :=
  match o with Some x => x | None => d end.

(** [{ ...current, ...updates, questionId, paperId }]. *)
Definition merge (current : QuestionProgress) (updates : Updates)
           (questionId paperId : string) : QuestionProgress :=
  {| questionId := questionId;
     paperId := paperId;
     completed := or_else (upd_completed updates) (completed current);
     completedAt := or_else (upd_completedAt updates) (completedAt current);
     timeSpent := or_else (upd_timeSpent updates) (timeSpent current);
     reviewCount := or_else (upd_reviewCount updates) (reviewCount current);
     lastStudied := or_else (upd_lastStudied updates) (lastStudied current);
     confidenceLevel := or_else (upd_confidenceLevel updates) (confidenceLevel current);
     studySessions := or_else (upd_studySessions updates) (studySessions current) |}.

(** [newProgress.set(globalKey, updated); saveProgress(newProgress)]. *)
Definition put (globalKey : string) (updated : QuestionProgress) (st : State)
  : State :=
  let newProgress := <[globalKey := updated]> (questionProgress st) in
  {| questionProgress := newProgress;
     activeSession := activeSession st;
     stored := Some newProgress |}.

Definition updateQuestionProgress (paperId questionId : string)
           (updates : Updates) (st : State) : State :=
  let globalKey := createGlobalKey paperId questionId None in
  let current := or_else (questionProgress st !! globalKey)
                         (fresh questionId paperId) in
  put globalKey (merge current updates questionId paperId) st.

Definition startStudySession (paperId questionId : string)
           (sessionType : SessionType) (now : Z) (st : State) : State :=
  let globalKey := createGlobalKey paperId questionId None in
  let current := or_else (questionProgress st !! globalKey)
                         (fresh questionId paperId) in
  let updated :=
    merge current
          {| upd_questionId := None; upd_paperId := None; upd_completed := None;
             upd_completedAt := None; upd_timeSpent := None;
             upd_reviewCount := Some (reviewCount current + 1);
             upd_lastStudied := Some (Some now);
             upd_confidenceLevel := None; upd_studySessions := None |}
          questionId paperId in
  let st' := put globalKey updated st in
  {| questionProgress := questionProgress st';
     activeSession := Some {| session_questionId := questionId;
                              session_paperId := paperId;
                              session_startTime := now;
                              session_type := sessionType |};
     stored := stored st' |}.

Definition endStudySession (paperId questionId : string) (now : Z) (st : State)
  : State :=
  match activeSession st with
  | Some a =>
      if String.eqb (session_questionId a) questionId
         && String.eqb (session_paperId a) paperId
      then
        let duration := int_of (round_quotient (now - session_startTime a) 1000) in
        let newSession := {| startTime := session_startTime a;
                             endTime := Some now;
                             duration := duration;
                             sessionType := session_type a |} in
        let globalKey := createGlobalKey paperId questionId None in
        let current := or_else (questionProgress st !! globalKey)
                               (fresh questionId paperId) in
        let updated :=
          merge current
                {| upd_questionId := None; upd_paperId := None;
                   upd_completed := None; upd_completedAt := None;
                   upd_timeSpent := Some (timeSpent current + duration);
                   upd_reviewCount := None; upd_lastStudied := None;
                   upd_confidenceLevel := None;
                   upd_studySessions := Some (studySessions current ++ [newSession]) |}
                questionId paperId in
        let st' := put globalKey updated st in
        {| questionProgress := questionProgress st';
           activeSession := None;
           stored := stored st' |}
      else st
  | None => st
  end.

Definition markCompleted (paperId questionId : string) (now : Z) : State -> State :=
  updateQuestionProgress paperId questionId
    {| upd_questionId := None; upd_paperId := None;
       upd_completed := Some true; upd_completedAt := Some (Some now);
       upd_timeSpent := None; upd_reviewCount := None; upd_lastStudied := None;
       upd_confidenceLevel := None; upd_studySessions := None |}.

Definition markIncomplete (paperId questionId : string) : State -> State :=
  updateQuestionProgress paperId questionId
    {| upd_questionId := None; upd_paperId := None;
       upd_completed := Some false; upd_completedAt := Some None;
       upd_timeSpent := None; upd_reviewCount := None; upd_lastStudied := None;
       upd_confidenceLevel := None; upd_studySessions := None |}.

Definition updateConfidence (paperId questionId : string) (confidence : Z)
  : State -> State :=
  updateQuestionProgress paperId questionId
    {| upd_questionId := None; upd_paperId := None;
       upd_completed := None; upd_completedAt := None;
       upd_timeSpent := None; upd_reviewCount := None; upd_lastStudied := None;
       upd_confidenceLevel := Some confidence; upd_studySessions := None |}.

(** The mutators of the store, run by a hook instance for paper
    [paperId]. *)
Inductive step : State -> State -> Prop :=
| step_update paperId questionId updates st :
    step st (updateQuestionProgress paperId questionId updates st)
| step_completed paperId questionId now st :
    step st (markCompleted paperId questionId now st)
| step_incomplete paperId questionId st :
    step st (markIncomplete paperId questionId st)
| step_confidence paperId questionId confidence st :
    step st (updateConfidence paperId questionId confidence st)
| step_start paperId questionId sessionType now st :
    step st (startStudySession paperId questionId sessionType now st)
| step_end paperId questionId now st :
    step st (endStudySession paperId questionId now st).

Inductive reachable : State -> Prop :=
| reach_initial : reachable initial
| reach_step st st' : reachable st -> step st st' -> reachable st'.

(** The key a record belongs under. *)
Definition key_of (p : QuestionProgress) : string :=
  paperId p +:+ "::" +:+ questionId p.

(** Every record sits under the key made of its own ids, in memory and
    in storage. *)
Definition keyed (m : gmap string QuestionProgress) : Prop :=
  forall k p, m !! k = Some p -> k = key_of p.

Definition keys_consistent (st : State) : Prop :=
  keyed (questionProgress st)
  /\ forall m, stored st = Some m -> keyed m.

(** *** Derived statistics *)

Definition question_id (q : Question) : string :=
  question_no q +:+ "_" +:+ sub_question_no q.

Definition weekMs : Z := 7 * 24 * 60 * 60 * 1000.
Definition oneDayMs : Z := 24 * 60 * 60 * 1000.

Definition studied_recently (now : Z) (progress : QuestionProgress) : bool :=
  match lastStudied progress with
  | Some t => now - t <? weekMs
  | None => false
  end.

(** The [score] of one question in [calculateExamReadiness]. *)
Definition readiness_points (now : Z) (progress : QuestionProgress) (marks : Z) : Z :=
  (if completed progress then marks else 0)
  + (if 4 <=? confidenceLevel progress then marks else 0)
  + (if studied_recently now progress then marks else 0).

(** [totalScore] and [maxScore] after the [forEach]. *)
Definition readiness_totals (paperId : string) (allQuestions : list Question)
           (now : Z) (st : State) : Z * Z :=
  fold_left
    (fun '(totalScore, maxScore) question =>
       let progress := getQuestionProgress paperId (question_id question) st in
       (totalScore + readiness_points now progress (marks question),
        maxScore + marks question * 3))
    allQuestions (0, 0).

(** [calculateExamReadiness]; [None] is NaN. *)
Definition calculateExamReadiness (paperId : string) (allQuestions : list Question)
           (now : Z) (st : State) : option Z :=
  match allQuestions with
  | [] => Some 0
  | _ =>
      let '(totalScore, maxScore) := readiness_totals paperId allQuestions now st in
      round_percent totalScore maxScore
  end.

(** The time zone of the host, as the language specification has it:
    [LocalTZA(t, isUTC)] is the offset of local time from UTC, in
    milliseconds, in force at the instant [t] ([isUTC = true]) or at the
    local time [t] ([isUTC = false]; a local time that occurs twice when
    clocks go back is read with the offset before the change). *)
Definition Zone := Z -> bool -> Z.

(** A zone without clock changes. *)
Definition fixed_zone (tzOffset : Z) : Zone := fun _ _ => tzOffset.

Section LocalTime.

Variable LocalTZA : Zone.

Definition LocalTime (t : Z) : Z := t + LocalTZA t true.

Definition UTC (t : Z) : Z := t - LocalTZA t false.

(** [d.setHours(0, 0, 0, 0); d.getTime()]: the instant at which the local
    calendar day of [t] begins. *)
Definition startOfDay (t : Z) : Z := UTC (LocalTime t / oneDayMs * oneDayMs).

(** Keep the first occurrence of each date. *)
Fixpoint unique_from (seen l : list Z) : list Z :=
  match l with
  | [] => []
  | x :: l' =>
      if existsb (Z.eqb x) seen then unique_from seen l'
      else x :: unique_from (x :: seen) l'
  end.

Definition unique (l : list Z) : list Z := unique_from [] l.

(** [sort((a, b) => b - a)]: most recent first. *)
Fixpoint insert_desc (x : Z) (l : list Z) : list Z :=
  match l with
  | [] => [x]
  | y :: l' => if y <=? x then x :: l else y :: insert_desc x l'
  end.

Definition sort_desc (l : list Z) : list Z := fold_right insert_desc [] l.

Definition last_studied_dates (allProgressValues : list QuestionProgress)
  : list Z :=
  List.concat (List.map (fun p => match lastStudied p with
                                  | Some t => [t]
                                  | None => []
                                  end) allProgressValues).

Definition studyDates (allProgressValues : list QuestionProgress) : list Z :=
  sort_desc (unique (List.map startOfDay (last_studied_dates allProgressValues))).

(** The [for] loop: how many further dates each lie one day before
    the previous one. *)
Fixpoint consecutive (prev : Z) (rest : list Z) : Z :=
  match rest with
  | [] => 0
  | d :: rest' => if prev - d =? oneDayMs then 1 + consecutive d rest' else 0
  end.

Definition calculateStreak (now : Z) (allProgressValues : list QuestionProgress)
  : Z :=
  match studyDates allProgressValues with
  | [] => 0
  | d0 :: rest =>
      let streak := 1 + consecutive d0 rest in
      let today := startOfDay now in
      let yesterday := today - oneDayMs in
      if negb (d0 =? today) && negb (d0 =? yesterday) then 0 else streak
  end.

(** [Array.from(questionProgress.values())]. *)
Definition allProgressValues (st : State) : list QuestionProgress :=
  (map_to_list (questionProgress st)).*2.

(** The calendar day (local time) an instant falls on. *)
Definition day_of (t : Z) : Z := LocalTime t / oneDayMs.

End LocalTime.

End Progress.


(** * Vocabulary of the properties and sample data *)

(** ** Quiz history: what the purge guarantees *)

Module QuizHistorySpec.
Import JS QuizHistory.

(** An attempt that passes the purge. *)
Definition valid (a : QuizAttempt) : Prop := isInvalidAttempt a = false.

(** Every stored attempt passes the purge. *)
Definition stored_valid (st : State) : Prop :=
  forall l, stored st = Some l -> Forall valid l.

End QuizHistorySpec.

(** ** Notes: namespaced maps *)

Module NotesSpec.
Import JS Notes.

Definition keys (m : NotesMap) : list string := List.map fst m.

Definition namespaced (m : NotesMap) : Prop :=
  Forall (fun k => includes "::" k = true) (keys m).

End NotesSpec.

(** ** Revision flags: a sample state *)

Module RevisionSpec.
Import JS Revision.

(** The set [{Q1_a, Q2_b}], as loaded from its persisted array. *)
Definition two_marked : State :=
  {| revisionQuestions := ["Q1_a"; "Q2_b"]; stored := Some ["Q1_a"; "Q2_b"] |}.

End RevisionSpec.

(** ** Progress tracker: paper ids that keys can be read back from *)

Module ProgressSpec.
Import JS Progress.

(** A paper id that [createGlobalKey] can be read back from. *)
Fixpoint no_colon (s : string) : bool :=
  match s with
  | EmptyString => true
  | String c s' => negb (Ascii.eqb c ":") && no_colon s'
  end.

End ProgressSpec.

(** ** Percentages in exact arithmetic *)

Module ScoreSpec.
Import JS.

(** The percentage of the specification: [n / d] as a percentage, rounded
    to the nearest integer (halves upwards), in exact arithmetic. *)
Definition exact_percent (n d : Z) : Z := (2 * (100 * n) + d) / (2 * d).

(** The pairs [(n, d)], [0 <= n <= d], [1 <= d <= bound], at which the
    computed percentage is not the exact one. *)
Definition percent_mismatches (bound : nat) : list (Z * Z) :=
  List.concat
    (List.map
       (fun d =>
          List.filter
            (fun '(n, d) =>
               negb (match round_percent n d with
                     | Some z => z =? exact_percent n d
                     | None => false
                     end))
            (List.map (fun n => (Z.of_nat n, Z.of_nat d)) (seq 0 (d + 1))))
       (seq 1 bound)).

End ScoreSpec.

(** ** Quiz score: the specified score and a sample quiz *)

Module QuizScoreSpec.
Import JS QuizHistory ScoreSpec.

(** The score of the specification: round(100 * earnedMarks / totalMarks),
    0 when totalMarks is 0. *)
Definition spec_score (results : list QuizQuestionResult) : Z :=
  if sum_marks results =? 0 then 0
  else exact_percent (sum_marks (correct_only results)) (sum_marks results).

Definition result (no : string) (marks : Z) (correct : bool) : QuizQuestionResult :=
  {| questionId := no +:+ "_a"; questionNo := no; subQuestionNo := "a";
     marks := marks; timeSpent := 30; userAnswer := []; isCorrect := correct;
     confidence := 3; difficulty := 5 |}.

(** Eight questions worth 40 marks, 23 of them earned. *)
Definition results_23_of_40 : list QuizQuestionResult :=
  [ result "1" 7 true; result "2" 4 true; result "3" 4 true; result "4" 4 true;
    result "5" 4 true; result "6" 7 false; result "7" 7 false; result "8" 3 false ].

End QuizScoreSpec.

(** ** Exam readiness: the specified value and a sample paper *)

Module ReadinessSpec.
Import JS Progress ScoreSpec.

(** The readiness of the specification: round(100 * totalScore / maxScore). *)
Definition spec_readiness (paperId : string) (allQuestions : list Question)
           (now : Z) (st : State) : Z :=
  let '(totalScore, maxScore) := readiness_totals paperId allQuestions now st in
  exact_percent totalScore maxScore.

Definition question (no : string) (marks : Z) : Question :=
  {| question_no := no; sub_question_no := "a"; marks := marks;
     tags := []; rating := None |}.

(** A paper of eight questions worth 40 marks. *)
Definition paper_40 : list Question :=
  [ question "1" 7; question "2" 4; question "3" 4; question "4" 4;
    question "5" 4; question "6" 7; question "7" 7; question "8" 3 ].

(** Study a question: open a session, rate the confidence 5, mark it
    completed. *)
Definition mastered (paperId questionId : string) (now : Z) (st : State) : State :=
  markCompleted paperId questionId now
    (updateConfidence paperId questionId 5
       (startStudySession paperId questionId study now st)).

(** The first five questions (23 marks) mastered at time [now], the other
    three untouched. *)
Definition five_mastered (now : Z) : State :=
  fold_right (fun q st => mastered "paper.json" q now st) initial
             ["1_a"; "2_a"; "3_a"; "4_a"; "5_a"].

Definition all_mastered (now : Z) : State :=
  fold_right (fun q st => mastered "paper.json" (question_id q) now st) initial
             paper_40.

End ReadinessSpec.

(** ** Text cleanup: clean text *)

Module CleanupSpec.
Import JS Regex TextUtils.

(** [String.prototype.includes] on texts. *)
Fixpoint includes_text (w s : jsstring) : bool :=
  startsWith w s
  || match s with
     | [] => false
     | _ :: s' => includes_text w s'
     end.

(** The text contains none of the given phrases. *)
Definition none_of (phrases : list jsstring) (s : jsstring) : bool :=
  forallb (fun w => negb (includes_text w s)) phrases.

(** The text contains none of the given characters. *)
Definition free_of (cs : list char) (s : jsstring) : bool :=
  forallb (fun c => negb (existsb (char_eqb c) cs)) s.

(** White space occurs only as single characters between two characters
    that are not white space.  [blank] tells whether the position before
    is the start of the text or a white-space character. *)
Fixpoint spaced (blank : bool) (s : jsstring) : bool :=
  match s with
  | [] => negb blank
  | c :: s' => if is_space c then negb blank && spaced true s' else spaced false s'
  end.

Definition single_spaced (s : jsstring) : bool :=
  match s with
  | [] => true
  | _ => spaced true s
  end.

(** The text a pattern matches when it is a plain literal. *)
Fixpoint literal_of (r : re) : option jsstring :=
  match r with
  | Chr (Is c) => Some [c]
  | Eps => Some []
  | Seq r1 r2 =>
      match literal_of r1, literal_of r2 with
      | Some a, Some b => Some (a ++ b)
      | _, _ => None
      end
  | _ => None
  end.

(** The literal text every match of a pattern starts with. *)
Fixpoint literal_prefix (r : re) : jsstring :=
  match r with
  | Chr (Is c) => [c]
  | Seq r1 r2 =>
      match literal_of r1 with
      | Some a => a ++ literal_prefix r2
      | None => literal_prefix r1
      end
  | Group r' => literal_prefix r'
  | _ => []
  end.

(** The phrases the literal patterns of [cleanAnswerText] start with. *)
Definition clean_markers : list jsstring :=
  [ lit "|"; lit "### **Memory Techniques**"; lit "**Memory Techniques:**";
    lit "\$"; lit "\["; lit "\]"; lit "[Image of"; lit "(Note:" ].

Definition blank_before (prev : option char) : bool :=
  match prev with
  | None => true
  | Some p => is_space p
  end.

(** The white-space discipline, seen from a position inside the text. *)
Definition spaced_at (prev : option char) (s : jsstring) : Prop :=
  spaced (blank_before prev) s = true.

End CleanupSpec.

(** ** Study streak: calendar days *)

Module StreakSpec.
Import JS Progress.

Ltac day_lia := unfold oneDayMs in *; lia.

Section Days.

Variable zone : Zone.

(** Some question was last studied on calendar day [d]. *)
Definition studied_on (values : list QuestionProgress) (d : Z) : Prop :=
  exists p t, In p values /\ lastStudied p = Some t /\ day_of zone t = d.

(** [m] is the most recent calendar day with a last-studied date. *)
Definition most_recent (values : list QuestionProgress) (m : Z) : Prop :=
  studied_on values m /\ forall d, studied_on values d -> d <= m.

End Days.

Definition studied_at (t : Z) : QuestionProgress :=
  {| questionId := "1_a"; paperId := "paper.json"; completed := false;
     completedAt := None; timeSpent := 0; reviewCount := 1;
     lastStudied := Some t; confidenceLevel := 0; studySessions := [] |}.

(** Indian Standard Time, UTC+05:30. *)
Definition ist : Z := 19800000.

(** New York around 1 November 2026, 06:00 UTC, when clocks go back from
    UTC-04:00 to UTC-05:00 (the zone as it is between the clock changes of
    March 2026 and March 2027). *)
Definition clocks_back : Z := 1793512800000.

Definition new_york : Zone :=
  fun t isUTC =>
    if isUTC
    then if t <? clocks_back then - (4 * 3600000) else - (5 * 3600000)
    else if t + 4 * 3600000 <? clocks_back then - (4 * 3600000) else - (5 * 3600000).

(** 1, 2 and 3 November 2026 in New York: a study event on each day, and
    an afternoon of the second and of the third day. *)
Definition nov1_study : Z := 1793545200000.
Definition nov2_study : Z := 1793628000000.
Definition nov3_study : Z := 1793714400000.
Definition nov2_afternoon : Z := 1793631600000.
Definition nov3_afternoon : Z := 1793718000000.

(** 3 November 2026, 10:00 IST. *)
Definition a_morning : Z := 1793680200000.

End StreakSpec.


(** * Further parts of the code *)

(** ** Question ratings ([hooks/useQuestionRatings]) *)

Module Ratings.
Import JS.

(** [Record<string, number>], members in property order. *)
Definition RatingsMap := list (string * Z).

(** One instance of the hook: its [ratings], and [localStorage] beside
    it, read at the keys [question-ratings-${paperId}]: per paper id, the
    object stored for it. *)
Record State := {
  ratings : RatingsMap;
  storage : gmap string RatingsMap
}.

Definition initial (storage : gmap string RatingsMap) : State :=
  {| ratings := []; storage := storage |}.

(** The effect, run on mount and again whenever [paperId] changes. *)
Definition load (paperId : string) (st : State) : State :=
  match storage st !! paperId with
  | Some parsed => {| ratings := parsed; storage := storage st |}
  | None => st
  end.

Definition setRating (paperId questionId : string) (rating : Z) (st : State)
  : State :=
  let newRatings := assoc_set String.eqb (ratings st) questionId rating in
  {| ratings := newRatings; storage := <[paperId := newRatings]> (storage st) |}.

(** [ratings[questionId] || 0]. *)
Definition getRating (questionId : string) (st : State) : Z :=
  match assoc_get String.eqb questionId (ratings st) with
  | Some rating => rating
  | None => 0
  end.

End Ratings.

(** ** Quiz history: queries and statistics ([hooks/useQuizHistory]) *)

Module QuizAnalytics.
Import JS QuizHistory.

(** The intermediate [topicPerformance] map: per topic, [totalScore] and
    [attempts], in insertion order. *)
Definition TopicTotals := list (string * (Z * Z)).

Definition add_result (topicPerformance : TopicTotals) (question : QuizQuestionResult)
  : TopicTotals :=
  let topic := questionNo question in
  let score := if isCorrect question then 100 else 0 in
  let '(totalScore, n) :=
    match assoc_get String.eqb topic topicPerformance with
    | Some current => current
    | None => (0, 0)
    end in
  assoc_set String.eqb topicPerformance topic (totalScore + score, n + 1).

Definition topic_totals (st : State) : TopicTotals :=
  fold_left (fun topicPerformance attempt =>
               fold_left add_result (questions attempt) topicPerformance)
            (visibleAttempts st) [].

(** Per topic, [attempts] and [averageScore] ([None]: not a number). *)
Definition getTopicPerformance (st : State) : list (string * (Z * option Z)) :=
  List.map (fun '(topic, (totalScore, n)) => (topic, (n, round_quotient totalScore n)))
           (topic_totals st).

(** [list.reduce((sum, a) => sum + f(a), 0)]. *)
Definition sum_of (f : QuizAttempt -> Z) (l : list QuizAttempt) : Z :=
  fold_left (fun sum a => sum + f a) l 0.

(** [l.length > 0 ? Math.max(...l) : 0]. *)
Definition max_or_zero (l : list Z) : Z :=
  match l with
  | [] => 0
  | x :: l' => fold_left Z.max l' x
  end.

(** [sort((a, b) => a.startTime - b.startTime)]: oldest first, attempts
    that started together keep their order. *)
Fixpoint insert_by_start (a : QuizAttempt) (l : list QuizAttempt) : list QuizAttempt :=
  match l with
  | [] => [a]
  | b :: l' => if startTime a <=? startTime b then a :: l else b :: insert_by_start a l'
  end.

Definition sort_by_start (l : list QuizAttempt) : list QuizAttempt :=
  fold_right insert_by_start [] l.

Definition sub (x y : num) : num := SFsub prec emax x y.

(** [list.reduce((sum, a) => sum + a.score, 0) / list.length]. *)
Definition average_score (l : list QuizAttempt) : num :=
  div (of_Z (sum_of score l)) (of_Z (Z.of_nat (length l))).

(** [stats.improvementTrend] ([None]: not a number). *)
Definition improvement_trend (visibleAttempts : list QuizAttempt) : option Z :=
  if (4 <=? length visibleAttempts)%nat then
    let sortedAttempts := sort_by_start visibleAttempts in
    let half := (length sortedAttempts / 2)%nat in
    let firstHalf := firstn half sortedAttempts in
    let secondHalf := skipn (length sortedAttempts - half) sortedAttempts in
    let firstHalfAvg := average_score firstHalf in
    let secondHalfAvg := average_score secondHalf in
    Math_round (mul (div (sub secondHalfAvg firstHalfAvg) firstHalfAvg) (of_Z 100))
  else Some 0.

Record QuizStats := {
  totalAttempts : Z;
  averageScore : option Z;
  bestScore : Z;
  totalTimeSpent : Z;
  improvementTrend : option Z;
  weakestTopics : list string;
  strongestTopics : list string;
  averageTimePerQuestion : option Z
}.

Definition stats (st : State) : QuizStats :=
  let visibleAttempts := visibleAttempts st in
  let some := (0 <? length visibleAttempts)%nat in
  {| totalAttempts := Z.of_nat (length visibleAttempts);
     averageScore :=
       if some
       then round_quotient (sum_of score visibleAttempts)
                           (Z.of_nat (length visibleAttempts))
       else Some 0;
     bestScore := max_or_zero (List.map score visibleAttempts);
     totalTimeSpent := sum_of duration visibleAttempts;
     improvementTrend := improvement_trend visibleAttempts;
     weakestTopics := [];
     strongestTopics := [];
     averageTimePerQuestion :=
       if some
       then round_quotient (sum_of duration visibleAttempts)
                           (sum_of totalQuestions visibleAttempts)
       else Some 0 |}.

End QuizAnalytics.

(** ** Progress tracker: breakdowns ([hooks/useProgressTracking]) *)

Module ProgressAnalytics.
Import JS Progress.

(** A [Map<number, { completed, total }>], in insertion order. *)
Definition Breakdown := list (Z * (Z * Z)).

(** The body of the [forEach] of [getProgressByDifficulty] and
    [getProgressByMarks], which differ in the key only. *)
Definition count_question (paperId : string) (st : State) (key : Question -> Z)
           (breakdown : Breakdown) (question : Question) : Breakdown :=
  let progress := getQuestionProgress paperId (question_id question) st in
  let '(completed_n, total_n) :=
    match assoc_get Z.eqb (key question) breakdown with
    | Some current => current
    | None => (0, 0)
    end in
  assoc_set Z.eqb breakdown (key question)
            (if completed progress then completed_n + 1 else completed_n,
             total_n + 1).

(** [question.rating || 0]. *)
Definition difficulty_of (question : Question) : Z := or_else (rating question) 0.

Definition getProgressByDifficulty (paperId : string) (allQuestions : list Question)
           (st : State) : Breakdown :=
  fold_left (count_question paperId st difficulty_of) allQuestions [].

Definition getProgressByMarks (paperId : string) (allQuestions : list Question)
           (st : State) : Breakdown :=
  fold_left (count_question paperId st marks) allQuestions [].

(** [progress.confidenceLevel > 0 && progress.confidenceLevel <= 2]. *)
Definition low_confidence (progress : QuestionProgress) : bool :=
  (0 <? confidenceLevel progress) && (confidenceLevel progress <=? 2).

(** The [tagPerformance] map: per tag, [total] and [lowConfidence]. *)
Definition TagPerformance := list (string * (Z * Z)).

Definition count_tag (progress : QuestionProgress) (tagPerformance : TagPerformance)
           (tag : string) : TagPerformance :=
  let '(total, lowConfidence) :=
    match assoc_get String.eqb tag tagPerformance with
    | Some current => current
    | None => (0, 0)
    end in
  assoc_set String.eqb tagPerformance tag
            (total + 1,
             if low_confidence progress then lowConfidence + 1 else lowConfidence).

Definition tag_performance (paperId : string) (allQuestions : list Question)
           (st : State) : TagPerformance :=
  fold_left (fun tagPerformance question =>
               let progress := getQuestionProgress paperId (question_id question) st in
               fold_left (count_tag progress) (tags question) tagPerformance)
            allQuestions [].

(** The number [0.5]. *)
Definition one_half : num := S754_finite false 4503599627370496 (-53).

Definition gt (x y : num) : bool := SFltb y x.

Definition getWeakAreas (paperId : string) (allQuestions : list Question)
           (st : State) : list string :=
  List.map fst
    (List.filter (fun '(_, (total, lowConfidence)) =>
                    (0 <? total)
                    && gt (div (of_Z lowConfidence) (of_Z total)) one_half)
                 (tag_performance paperId allQuestions st)).

End ProgressAnalytics.

(** ** Progress tracker: what a mount reads back ([hooks/useProgressTracking]) *)

Module ProgressStore.
Import JS Progress.

(** [s.split(sep)] for a separator that is not empty: [cur] is the part
    being read, [skip] the characters of a separator still to pass. *)
Fixpoint split_from (sep s : string) (skip : nat) (cur : string) : list string :=
  match s with
  | EmptyString => [cur]
  | String c s' =>
      match skip with
      | S k => split_from sep s' k cur
      | O =>
          if has_prefix sep s
          then cur :: split_from sep s' (String.length sep - 1) EmptyString
          else split_from sep s' 0 (cur +:+ String c EmptyString)
      end
  end.

Definition split (sep s : string) : list string := split_from sep s 0 EmptyString.

(** [{ ...progress, paperId, questionId }]. *)
Definition with_ids (progress : QuestionProgress) (paperId questionId : string)
  : QuestionProgress :=
  {| questionId := questionId;
     paperId := paperId;
     completed := completed progress;
     completedAt := completedAt progress;
     timeSpent := timeSpent progress;
     reviewCount := reviewCount progress;
     lastStudied := lastStudied progress;
     confidenceLevel := confidenceLevel progress;
     studySessions := studySessions progress |}.

(** The body of the [forEach] over the stored entries. *)
Definition load_entry (progressMap : gmap string QuestionProgress)
           (entry : string * QuestionProgress) : gmap string QuestionProgress :=
  let '(key, progress) := entry in
  if negb (includes "::" key) then
    <["default::" +:+ key := with_ids progress "default" key]> progressMap
  else
    let parts := split "::" key in
    <[key := with_ids progress (nth 0 parts EmptyString) (nth 1 parts EmptyString)]>
      progressMap.

(** The map built from [Object.entries] of the stored object. *)
Definition loadProgress (entries : list (string * QuestionProgress))
  : gmap string QuestionProgress :=
  fold_left load_entry entries ∅.

(** The session found under ['session-cleanup-needed'] is closed at [now]
    and added to its question. *)
Definition credit (paperId : string) (session : ActiveSession) (now : Z)
           (progressMap : gmap string QuestionProgress)
  : gmap string QuestionProgress :=
  let duration := int_of (round_quotient (now - session_startTime session) 1000) in
  let globalKey := createGlobalKey paperId (session_questionId session)
                                   (Some (session_paperId session)) in
  let current := or_else (progressMap !! globalKey)
                         (fresh (session_questionId session) (session_paperId session)) in
  let newSession := {| startTime := session_startTime session;
                       endTime := Some now;
                       duration := duration;
                       sessionType := session_type session |} in
  let updated :=
    {| questionId := questionId current;
       paperId := Progress.paperId current;
       completed := completed current;
       completedAt := completedAt current;
       timeSpent := timeSpent current + duration;
       reviewCount := reviewCount current;
       lastStudied := lastStudied current;
       confidenceLevel := confidenceLevel current;
       studySessions := studySessions current ++ [newSession] |} in
  <[globalKey := updated]> progressMap.

(** The three storage items of the hook: the entries of the object under
    ['progress-tracking-global'] in property order, the session under
    ['active-study-session'] and the one under ['session-cleanup-needed']. *)
Record Storage := {
  progress_item : option (list (string * QuestionProgress));
  session_item : option ActiveSession;
  cleanup_item : option ActiveSession
}.

(** The [beforeunload] handler. *)
Definition handleBeforeUnload (sto : Storage) : Storage :=
  match session_item sto with
  | Some currentSession =>
      {| progress_item := progress_item sto;
         session_item := session_item sto;
         cleanup_item := Some currentSession |}
  | None => sto
  end.

(** The state of a hook instance for paper [paperId] once its mount
    effects have run at time [now]: the map that was read (with the
    interrupted session added, in which case it is also written back) and
    the session restored from storage.  [stored] is the progress object in
    storage afterwards, as a map. *)
Definition mount (paperId : string) (now : Z) (sto : Storage) : State :=
  match progress_item sto with
  | Some entries =>
      let progressMap := loadProgress entries in
      match cleanup_item sto with
      | Some session =>
          let progressMap' := credit paperId session now progressMap in
          {| questionProgress := progressMap';
             activeSession := session_item sto;
             stored := Some progressMap' |}
      | None =>
          {| questionProgress := progressMap;
             activeSession := session_item sto;
             stored := Some (list_to_map entries) |}
      end
  | None =>
      {| questionProgress := ∅;
         activeSession := session_item sto;
         stored := None |}
  end.

End ProgressStore.

(** ** Revision flags across papers ([hooks/useSubjectRevision]) *)

Module SubjectRevision.
Import JS.

(** The entries of [localStorage] that hold arrays of question ids, in
    the order of [localStorage.key(i)]. *)
Definition Storage := list (string * list string).

Definition getItem (key : string) (sto : Storage) : option (list string) :=
  assoc_get String.eqb key sto.

Definition setItem (sto : Storage) (key : string) (value : list string) : Storage :=
  assoc_set String.eqb sto key value.

(** An optional string argument that is given and not empty. *)
Definition given (s : option string) : bool :=
  match s with
  | Some x => negb (String.eqb x EmptyString)
  | None => false
  end.

Definition text_of (s : option string) : string :=
  match s with Some x => x | None => EmptyString end.

Definition endsWith (suffix s : string) : bool :=
  JS.startsWith (rev (lit suffix)) (rev (lit s)).

Fixpoint drop (n : nat) (s : string) : string :=
  match n, s with
  | S n', String _ s' => drop n' s'
  | _, _ => s
  end.

(** [s.replace(pattern, '')] with a string pattern: the first occurrence
    is removed. *)
Fixpoint remove_first (pattern s : string) : string :=
  if has_prefix pattern s then drop (String.length pattern) s
  else match s with
       | EmptyString => EmptyString
       | String c s' => String c (remove_first pattern s')
       end.

Definition revision_key (name : string) : string := "revision-questions-" +:+ name.

Definition array_includes (a : list string) (x : string) : bool :=
  existsb (String.eqb x) a.

Definition isQuestionMarkedForRevision (sto : Storage) (questionId : string)
           (questionPaperId filename : option string) : bool :=
  if negb (given questionPaperId) then false
  else
    let revisionKey :=
      if given filename then revision_key (text_of filename)
      else revision_key (text_of questionPaperId) in
    match getItem revisionKey sto with
    | Some revisionArray => array_includes revisionArray questionId
    | None => false
    end.

(** The scan of [toggleQuestionRevision] for a key in file-name format. *)
Definition existingFilenameKey (sto : Storage) (questionPaperId : string)
  : option string :=
  option_map fst
    (List.find (fun '(key, _) =>
                  has_prefix "revision-questions-" key
                  && endsWith ".json" key
                  && (includes "ip-" (remove_first "revision-questions-" key)
                      && includes "3155204" questionPaperId))
               sto).

Definition toggle_key (sto : Storage) (questionPaperId : string)
           (filename : option string) : string :=
  if given filename then revision_key (text_of filename)
  else if endsWith ".json" questionPaperId then revision_key questionPaperId
  else match existingFilenameKey sto questionPaperId with
       | Some key => key
       | None => revision_key questionPaperId
       end.

Definition toggleQuestionRevision (sto : Storage) (questionId : string)
           (questionPaperId filename : option string) : Storage :=
  if negb (given questionPaperId) then sto
  else
    let revisionKey := toggle_key sto (text_of questionPaperId) filename in
    let revisionArray :=
      match getItem revisionKey sto with
      | Some a => a
      | None => []
      end in
    setItem sto revisionKey
            (if array_includes revisionArray questionId
             then List.filter (fun id => negb (String.eqb id questionId)) revisionArray
             else revisionArray ++ [questionId]).

End SubjectRevision.

(** ** Content tests ([utils/textUtils], [utils/textFormatting]) *)

Module TextContent.
Import JS.

(** [Boolean(text && text.toString().trim().length > 0)]. *)
Definition hasContent (text : option jsstring) : bool :=
  match text with
  | Some s =>
      match s with
      | [] => false
      | _ => (0 <? length (trim s))%nat
      end
  | None => false
  end.

(** [utils/textUtils]. *)
Definition shouldShowDiagram (diagramRepresentation : option jsstring) : bool :=
  hasContent diagramRepresentation.

(** [utils/textFormatting]:
    [diagramRepresentation !== null && diagramRepresentation.trim().length > 0]. *)
Definition shouldShowDiagram' (diagramRepresentation : option jsstring) : bool :=
  match diagramRepresentation with
  | Some s => (0 <? length (trim s))%nat
  | None => false
  end.

End TextContent.

(** ** Quiz mode ([components/QuizMode]) *)

Module QuizMode.
Import JS Progress.

(** [Math.round((rating / 10) * 5)]: the confidence recorded for a quiz
    rating. *)
Definition confidenceScore (rating : Z) : option Z :=
  Math_round (mul (div (of_Z rating) (of_Z 10)) (of_Z 5)).

(** [applyFilters], the effect that selects the questions of the quiz.
    [allSubjectRevisionQuestions] is what [getAllRevisionQuestions]
    resolved to ([None]: it rejected) and [isMarkedForRevision] the test
    of the paper's own revision flags. *)
Definition applyFilters (subject_name : string) (filters : QuizHistory.QuizFilters)
           (allQuestions : list Question)
           (allSubjectRevisionQuestions : option (list Question))
           (isMarkedForRevision : string -> bool) : list Question :=
  let marked :=
    List.filter (fun q => isMarkedForRevision (question_id q)) allQuestions in
  let filtered :=
    if QuizHistory.revisionOnly filters then
      match allSubjectRevisionQuestions with
      | Some found => if (length found =? 0)%nat then marked else found
      | None => marked
      end
    else if (0 <? length (QuizHistory.subjects filters))%nat
         then List.filter (fun _ => existsb (String.eqb subject_name)
                                            (QuizHistory.subjects filters))
                          allQuestions
         else allQuestions in
  let filtered :=
    List.filter (fun q => (QuizHistory.minMarks filters <=? marks q)
                          && (marks q <=? QuizHistory.maxMarks filters))
                filtered in
  if (0 <? length (QuizHistory.selectedTags filters))%nat
  then List.filter (fun q =>
                      existsb (fun tag => existsb (String.eqb tag) (tags q))
                              (QuizHistory.selectedTags filters))
                   filtered
  else filtered.

End QuizMode.

(** ** Vocabulary of the further properties *)

(** *** Tallies kept in a map *)

Module Tally.
Import JS.

Section Tally.
Context {K X V : Type} (eqb : K -> K -> bool) (key : X -> K)
        (upd : X -> V -> V) (zero : V).

(** One step of a tally: the entry of [key x], started at [zero] when it
    is missing, is updated by [x]. *)
Definition step (acc : list (K * V)) (x : X) : list (K * V) :=
  assoc_set eqb acc (key x)
    (upd x (match assoc_get eqb (key x) acc with
            | Some current => current
            | None => zero
            end)).

(** The items filed under [k], and what they make of a start value. *)
Definition filed (k : K) (xs : list X) : list X :=
  List.filter (fun x => eqb (key x) k) xs.

Definition total (k : K) (xs : list X) (v : V) : V :=
  fold_left (fun v x => upd x v) (filed k xs) v.

End Tally.

(** How many items of a list pass a test. *)
Definition count {X} (p : X -> bool) (xs : list X) : Z :=
  Z.of_nat (length (List.filter p xs)).

End Tally.

(** *** Quiz history *)

Module QuizHistoryFacts.
Import JS QuizHistory QuizAnalytics.

(** Storage holds the valid attempts of the state. *)
Definition synced (st : State) : Prop :=
  stored st = Some (valid_only (attempts st)).

(** The question results of the visible attempts, in order. *)
Definition visible_results (st : State) : list QuizQuestionResult :=
  List.concat (List.map questions (visibleAttempts st)).

Definition on_topic (topic : string) (r : QuizQuestionResult) : bool :=
  String.eqb (questionNo r) topic.

(** The chronologically earlier half of the attempts. *)
Definition earlier_half (l : list QuizAttempt) : list QuizAttempt :=
  firstn (length l / 2) (sort_by_start l).

(** A finished attempt, for examples. *)
Definition attempt (id : string) (startTime duration totalQuestions score : Z)
  : QuizAttempt :=
  {| id := id; paperId := "paper.json"; startTime := startTime;
     endTime := startTime + duration * 1000; duration := duration;
     totalQuestions := totalQuestions; correctAnswers := 0; score := score;
     questions := []; filters := None; isHidden := false |}.

Definition history (l : list QuizAttempt) : State :=
  {| attempts := l; stored := Some (valid_only l) |}.

End QuizHistoryFacts.

(** *** Question ratings *)

Module RatingsFacts.
Import JS Ratings.

(** A hook instance that has rated two questions of paper [a.json]. *)
Definition rated_a : State :=
  setRating "a.json" "2_b" 7 (setRating "a.json" "1_a" 4 (initial ∅)).

End RatingsFacts.

(** *** Notes *)

Module NotesFacts.
Import JS Notes NotesSpec.

(** A state the hook can be in: every key is namespaced, none occurs
    twice. *)
Definition wf (st : State) : Prop :=
  namespaced (notes st) /\ List.NoDup (keys (notes st)).

(** The ids that the entries of a stored object are read under. *)
Definition read_keys (l : list (string * stored_value)) : list string :=
  List.map (fun e => migrated_key (fst e)) l.

(** Two notes of paper [a.json]. *)
Definition two_notes : State :=
  setNote "2_b" "revise" "a.json" (setNote "1_a" "easy" "a.json" (initial None)).

End NotesFacts.

(** *** Progress tracker *)

Module ProgressFacts.
Import JS Progress.

(** The mutators the hook hands out to components. *)
Inductive api_step : State -> State -> Prop :=
| api_start paperId questionId sessionType now st :
    api_step st (startStudySession paperId questionId sessionType now st)
| api_end paperId questionId now st :
    api_step st (endStudySession paperId questionId now st)
| api_completed paperId questionId now st :
    api_step st (markCompleted paperId questionId now st)
| api_incomplete paperId questionId st :
    api_step st (markIncomplete paperId questionId st)
| api_confidence paperId questionId confidence st :
    api_step st (updateConfidence paperId questionId confidence st).

(** The states a hook reaches from empty storage. *)
Inductive api_reachable : State -> Prop :=
| api_initial : api_reachable initial
| api_next st st' : api_reachable st -> api_step st st' -> api_reachable st'.

Definition sessions_time (sessions : list StudySession) : Z :=
  fold_right (fun s t => duration s + t) 0 sessions.

(** The key of the question a session is open on. *)
Definition session_key (a : ActiveSession) : string :=
  createGlobalKey (session_paperId a) (session_questionId a) None.

(** 1 when the open session is on the question under key [k]. *)
Definition open_at (st : State) (k : string) : Z :=
  match activeSession st with
  | Some a => if String.eqb (session_key a) k then 1 else 0
  | None => 0
  end.

(** Every record's time is the time of its recorded sessions, and it was
    opened at least as often as it has sessions, recorded or open. *)
Definition accounted (st : State) : Prop :=
  forall k p, questionProgress st !! k = Some p ->
    timeSpent p = sessions_time (studySessions p)
    /\ Z.of_nat (length (studySessions p)) + open_at st k <= reviewCount p.

(** The question of the open session has a record. *)
Definition session_recorded (st : State) : Prop :=
  forall a, activeSession st = Some a ->
    exists p, questionProgress st !! session_key a = Some p.

(** Whether the question is completed, in the state of paper [paperId]. *)
Definition is_completed (paperId : string) (st : State) (q : Question) : bool :=
  completed (getQuestionProgress paperId (question_id q) st).

(** Whether the question is rated 1 or 2. *)
Definition is_low (paperId : string) (st : State) (q : Question) : bool :=
  ProgressAnalytics.low_confidence (getQuestionProgress paperId (question_id q) st).

(** The questions paired with each of their tags, in order. *)
Definition tagged (allQuestions : list Question) : list (Question * string) :=
  List.concat (List.map (fun q => List.map (fun tag => (q, tag)) (tags q)) allQuestions).

Definition total_marks (allQuestions : list Question) : Z :=
  fold_right (fun q s => marks q + s) 0 allQuestions.

(** A paper of three questions, two of them tagged [sql], and a state in
    which those two are rated 1 and 2. *)
Definition tagged_paper : list Question :=
  [ {| question_no := "1"; sub_question_no := "a"; marks := 7;
       tags := ["sql"; "joins"]; rating := Some 3 |};
    {| question_no := "2"; sub_question_no := "b"; marks := 7;
       tags := ["sql"]; rating := None |};
    {| question_no := "3"; sub_question_no := "c"; marks := 4;
       tags := ["uml"]; rating := Some 3 |} ].

Definition low_rated : State :=
  updateConfidence "a.json" "2_b" 2 (updateConfidence "a.json" "1_a" 1 initial).

End ProgressFacts.

(** *** Progress tracker: stored entries *)

Module ProgressStoreFacts.
Import JS Progress ProgressStore ProgressSpec.

(** The key an entry of the stored object is filed under by the load. *)
Definition read_key (key : string) : string :=
  if includes "::" key then key else "default::" +:+ key.

Definition read_keys (entries : list (string * QuestionProgress)) : list string :=
  List.map (fun e => read_key (fst e)) entries.

(** An entry as the hook saves it, with ids that can be read back from
    its key. *)
Definition plain_entry (e : string * QuestionProgress) : Prop :=
  fst e = key_of (snd e)
  /\ no_colon (paperId (snd e)) = true
  /\ includes "::" (questionId (snd e)) = false.

(** [Math.round(ms / 1000)]. *)
Definition seconds (ms : Z) : Z := int_of (round_quotient ms 1000).

Definition record (paperId questionId : string) (timeSpent : Z) : QuestionProgress :=
  {| questionId := questionId; paperId := paperId; completed := false;
     completedAt := None; timeSpent := timeSpent; reviewCount := 1;
     lastStudied := None; confidenceLevel := 0; studySessions := [] |}.

End ProgressStoreFacts.

(** *** Revision flags across papers *)

Module SubjectRevisionFacts.
Import JS SubjectRevision.

(** The key [isQuestionMarkedForRevision] reads. *)
Definition read_key (questionPaperId filename : option string) : string :=
  if given filename then revision_key (text_of filename)
  else revision_key (text_of questionPaperId).

(** The array a toggle leaves. *)
Definition toggled (a : list string) (questionId : string) : list string :=
  if array_includes a questionId
  then List.filter (fun id => negb (String.eqb id questionId)) a
  else a ++ [questionId].

(** Storage with the flags of one paper, kept under its file name. *)
Definition one_file : Storage :=
  [("revision-questions-ip-winter-2024.json", ["1_a"])].

End SubjectRevisionFacts.


(** * Properties *)

(** ** Quiz history store *)

Module QuizHistoryProps.
Import JS QuizHistory QuizHistorySpec.

Lemma valid_only_app (l1 l2 : list QuizAttempt) :
  valid_only (l1 ++ l2) = valid_only l1 ++ valid_only l2.
Proof. apply List.filter_app. Qed.

Lemma valid_only_Forall (l : list QuizAttempt) : Forall valid (valid_only l).
Proof.
  apply List.Forall_forall. intros a Ha.
  apply List.filter_In in Ha. destruct Ha as [_ Ha].
  unfold valid. now destruct (isInvalidAttempt a).
Qed.

Lemma valid_only_fixed (l : list QuizAttempt) :
  length (valid_only l) = length l -> valid_only l = l.
Proof.
  induction l as [|a l IH]; simpl; intros H; [reflexivity|].
  destruct (isInvalidAttempt a); simpl in *.
  - pose proof (List.filter_length_le (fun x => negb (isInvalidAttempt x)) l) as Hle.
    unfold valid_only in H. lia.
  - f_equal. apply IH. lia.
Qed.

Lemma newAttempt_invalid {A} paperId (questions : list A) filters now suffix :
  isInvalidAttempt (newAttempt paperId questions filters now suffix) = true.
Proof. reflexivity. Qed.

Lemma saved_valid (l : list QuizAttempt) (st : State) :
  stored st = saveAttempts l -> stored_valid st.
Proof.
  intros H l' Hl'. rewrite H in Hl'. injection Hl' as <-. apply valid_only_Forall.
Qed.

Lemma load_stored_valid (st : State) : stored_valid (load st) \/ stored st = None.
Proof.
  unfold load. destruct (stored st) as [l|] eqn:E; [left|now right].
  intros l'. simpl.
  destruct (Nat.eqb_spec (length (valid_only l)) (length l)) as [Hlen|Hlen]; simpl.
  - intros [= <-]. rewrite <- (valid_only_fixed l Hlen). apply valid_only_Forall.
  - intros [= <-]. apply valid_only_Forall.
Qed.

(** The purge keeps the stored list valid across every operation. *)
Lemma step_stored_valid (st st' : State) :
  step st st' -> stored_valid st -> stored_valid st'.
Proof.
  intros Hstep Hst. destruct Hstep;
    try (eapply saved_valid; reflexivity).
  - destruct (load_stored_valid st) as [H|H]; [exact H|].
    unfold load. now rewrite H.
  - unfold cleanupInvalidAttempts.
    destruct (_ <? _)%nat; [eapply saved_valid; reflexivity | exact Hst].
Qed.

Lemma sum_marks_nil : sum_marks [] = 0.
Proof. reflexivity. Qed.

Lemma finish_invalid_iff (a : QuizAttempt) (results : list QuizQuestionResult) (now : Z) :
  isInvalidAttempt (finish a results now) = true
  <-> results = [] /\ duration (finish a results now) = 0.
Proof.
  unfold isInvalidAttempt. split.
  - intros H. repeat (apply andb_prop in H; destruct H as [H ?]).
    apply Z.eqb_eq in H. split; [|exact H].
    simpl in *. destruct results; [reflexivity|]. simpl in *. discriminate.
  - intros [-> Hd]. rewrite Hd. reflexivity.
Qed.

(** C1 (as amended).  [startQuizAttempt] returns the generated id
    [quiz-<now>-<suffix>] and appends to the in-memory attempts a new
    attempt with that id, zero duration, zero correct answers, zero score
    and an empty result list; it writes local storage at once, but what it
    writes under ['quiz-history'] is the previous attempts with the
    invalid ones purged: the new attempt, being all-zero, is never part of
    the stored value. *)
Theorem startQuizAttempt_stores_without_new_attempt :
  forall (A : Type) (paperId : string) (questions : list A)
         (filters : option QuizFilters) (now : Z) (suffix : string) (st : State),
    let a := newAttempt paperId questions filters now suffix in
    let r := startQuizAttempt paperId questions filters now suffix st in
    fst r = id a
    /\ id a = attempt_id now suffix
    /\ duration a = 0 /\ correctAnswers a = 0 /\ score a = 0
    /\ QuizHistory.questions a = []
    /\ attempts (snd r) = attempts st ++ [a]
    /\ stored (snd r) = Some (valid_only (attempts st))
    /\ ~ In a (valid_only (attempts st)).
Proof.
  intros A paperId questions filters now suffix st a r.
  repeat split; try reflexivity.
  - unfold r, startQuizAttempt, saveAttempts. simpl.
    rewrite valid_only_app. simpl. now rewrite app_nil_r.
  - intros Hin. apply List.filter_In in Hin. destruct Hin as [_ Hin].
    unfold a in Hin. rewrite newAttempt_invalid in Hin. discriminate.
Qed.

(** C1, as stated, fails: after starting the first attempt the stored
    ['quiz-history'] value is the empty list, while the attempt is in the
    in-memory list only. *)
Lemma startQuizAttempt_new_attempt_not_stored :
  let r := startQuizAttempt "paper.json" [tt; tt] None 1730000000000 "k3x9q2m1z"
                            (initial None) in
  stored (snd r) = Some []
  /\ attempts (snd r) = [newAttempt "paper.json" [tt; tt] None 1730000000000 "k3x9q2m1z"].
Proof. split; reflexivity. Qed.

(** C3 (as amended).  No invalid attempt (zero duration, empty result
    list, zero correct answers, zero score) survives a load or a save:
    the attempts a load yields and every value written under
    ['quiz-history'] are free of them, and every operation keeps the
    stored value so.  [endQuizAttempt] leaves only valid attempts in
    memory and in storage, and the attempt it finishes is purged exactly
    when its result list is empty and its computed duration is 0: in that
    case it is neither in memory, nor in storage, nor among the attempts
    a later load yields, and in every other case it is in all three; so
    an attempt finished with an empty result list after a measurable
    time is kept. *)
Theorem invalid_attempts_purged :
  (forall s, Forall valid (attempts (load (initial s)))
             /\ stored_valid (load (initial s)))
  /\ (forall l, exists l', saveAttempts l = Some l' /\ Forall valid l')
  /\ (forall st st', step st st' -> stored_valid st -> stored_valid st')
  /\ (forall attemptId results now st,
         Forall valid (attempts (endQuizAttempt attemptId results now st))
         /\ stored_valid (endQuizAttempt attemptId results now st))
  /\ (forall a results now,
         isInvalidAttempt (finish a results now) = true
         <-> results = [] /\ duration (finish a results now) = 0)
  /\ (forall attemptId results now st a,
         In a (attempts st) -> id a = attemptId ->
         let st' := endQuizAttempt attemptId results now st in
         let purged := results = [] /\ duration (finish a results now) = 0 in
         (In (finish a results now) (attempts st') <-> ~ purged)
         /\ (exists l, stored st' = Some l
                       /\ (In (finish a results now) l <-> ~ purged))
         /\ (In (finish a results now) (attempts (load (initial (stored st'))))
             <-> ~ purged)).
Proof.
  split; [|split; [|split; [|split; [|split]]]].
  - intros s. split.
    + unfold load, initial; simpl. destruct s; simpl; [apply valid_only_Forall|constructor].
    + destruct (load_stored_valid (initial s)) as [H|H]; [exact H|].
      simpl in H. subst s. intros l. discriminate.
  - intros l. eexists. split; [reflexivity|apply valid_only_Forall].
  - exact step_stored_valid.
  - intros. split; [apply valid_only_Forall|eapply saved_valid; reflexivity].
  - exact finish_invalid_iff.
  - intros attemptId results now st a Ha Hid st' purged.
    assert (Hin : forall l,
               l = valid_only
                     (List.map (fun attempt =>
                                  if String.eqb (id attempt) attemptId
                                  then finish attempt results now else attempt)
                               (attempts st))
               -> (In (finish a results now) l <-> ~ purged)).
    { intros l ->. unfold valid_only. rewrite filter_In, negb_true_iff.
      unfold purged. rewrite <- finish_invalid_iff.
      split.
      - intros [_ Hv]. congruence.
      - intros Hv. split.
        + apply in_map_iff. exists a. split; [|exact Ha].
          apply String.eqb_eq in Hid. now rewrite Hid.
        + now destruct (isInvalidAttempt (finish a results now)). }
    split; [|split].
    + now apply Hin.
    + eexists. split; [reflexivity|]. now apply Hin.
    + apply Hin. unfold st', endQuizAttempt, saveAttempts, load, initial.
      cbn [stored attempts].
      assert (Hidem : forall l, valid_only (valid_only l) = valid_only l).
      { clear. intros l. unfold valid_only.
        induction l as [|x l IH]; [reflexivity|].
        simpl. destruct (isInvalidAttempt x) eqn:E; simpl; [exact IH|].
        rewrite E. simpl. now rewrite IH. }
      apply Hidem.
Qed.

(** C3, as stated, fails: an attempt started at 1000 ms and ended at
    6000 ms with an empty result list has no questions, no correct answer
    and score 0, yet it stays in the attempts and in storage, because its
    duration is 5. *)
Lemma endQuizAttempt_empty_results_kept :
  let st1 := snd (startQuizAttempt "paper.json" [tt] None 1000 "abc" (initial None)) in
  let st2 := endQuizAttempt (attempt_id 1000 "abc") [] 6000 st1 in
  let kept := {| id := "quiz-1000-abc"; paperId := "paper.json";
                 startTime := 1000; endTime := 6000; duration := 5;
                 totalQuestions := 1; correctAnswers := 0; score := 0;
                 questions := []; filters := None; isHidden := false |} in
  attempts st2 = [kept] /\ stored st2 = Some [kept].
Proof. split; vm_compute; reflexivity. Qed.

End QuizHistoryProps.

(** ** Notes store *)

Module NotesProps.
Import JS Notes NotesSpec.

Lemma includes_default (key : string) : includes "::" ("default::" +:+ key) = true.
Proof. reflexivity. Qed.

Lemma migrated_key_includes (key : string) : includes "::" (migrated_key key) = true.
Proof.
  unfold migrated_key. destruct (includes "::" key) eqn:E; [exact E|apply includes_default].
Qed.

Lemma migrated_key_fixed (key : string) :
  includes "::" key = true -> migrated_key key = key.
Proof. unfold migrated_key. now intros ->. Qed.

Lemma notes_set_keys (m : NotesMap) (k v : string) :
  keys (notes_set m k v) = keys m \/ keys (notes_set m k v) = keys m ++ [k].
Proof.
  induction m as [|[k' v'] m IH]; simpl; [now right|].
  destruct (String.eqb k k'); simpl; [now left|].
  destruct IH as [-> | ->]; [now left|now right].
Qed.

Lemma notes_set_fresh (m : NotesMap) (k v : string) :
  ~ In k (keys m) -> notes_set m k v = m ++ [(k, v)].
Proof.
  induction m as [|[k' v'] m IH]; simpl; intros H; [reflexivity|].
  destruct (String.eqb_spec k k') as [->|Hne]; [exfalso; apply H; now left|].
  f_equal. apply IH. intros Hin. apply H. now right.
Qed.

Lemma notes_set_namespaced (m : NotesMap) (k v : string) :
  namespaced m -> includes "::" k = true -> namespaced (notes_set m k v).
Proof.
  unfold namespaced. intros Hm Hk.
  destruct (notes_set_keys m k v) as [-> | ->]; [exact Hm|].
  apply Forall_app. split; [exact Hm|]. constructor; [exact Hk|constructor].
Qed.

Lemma notes_set_NoDup (m : NotesMap) (k v : string) :
  List.NoDup (keys m) -> List.NoDup (keys (notes_set m k v)).
Proof.
  induction m as [|[k' v'] m IH]; simpl; intros H.
  - constructor; [intros []|constructor].
  - destruct (String.eqb_spec k k') as [->|Hne]; simpl; [exact H|].
    inversion H as [|? ? Hnin Hnd]; subst.
    constructor; [|now apply IH].
    destruct (notes_set_keys m k v) as [-> | ->]; [exact Hnin|].
    intros Hin. apply in_app_or in Hin. destruct Hin as [Hin|[Heq|[]]]; [now apply Hnin|].
    now apply Hne.
Qed.

(** The state of the migration loop after some entries. *)
Lemma migrate_from_invariant (l : list (string * stored_value)) (acc : NotesMap) :
  namespaced acc -> List.NoDup (keys acc) ->
  let r := fold_left
             (fun migratedNotes '(key, value) =>
                match value with
                | VString text => notes_set migratedNotes (migrated_key key) text
                | VOther => migratedNotes
                end) l acc in
  namespaced r /\ List.NoDup (keys r).
Proof.
  revert acc. induction l as [|[key value] l IH]; simpl; intros acc Hns Hnd; [now split|].
  destruct value as [text|]; [|now apply IH].
  apply IH; [apply notes_set_namespaced; [exact Hns|apply migrated_key_includes]
            |now apply notes_set_NoDup].
Qed.

Lemma migrate_namespaced (l : list (string * stored_value)) :
  namespaced (migrate l) /\ List.NoDup (keys (migrate l)).
Proof.
  apply (migrate_from_invariant l []); constructor.
Qed.

Lemma namespaced_no_legacy (m : NotesMap) :
  namespaced m -> existsb (fun '(key, _) => negb (includes "::" key)) m = false.
Proof.
  unfold namespaced, keys. induction m as [|[k v] m IH]; simpl; intros H; [reflexivity|].
  inversion H as [|? ? Hk Hm]; subst. simpl in Hk. rewrite Hk. simpl. now apply IH.
Qed.

(** The guard of the write-back never holds: a load leaves storage as it
    found it. *)
Lemma load_leaves_storage (st : State) : stored (load st) = stored st.
Proof.
  unfold load. destruct (stored st) as [l|] eqn:E; [|exact E]. simpl.
  now rewrite (namespaced_no_legacy _ (proj1 (migrate_namespaced l))).
Qed.

(** Replaying a namespaced map without repeated keys rebuilds it. *)
Lemma migrate_replay (m acc : NotesMap) :
  namespaced m -> List.NoDup (keys (acc ++ m)) ->
  fold_left
    (fun migratedNotes '(key, value) =>
       match value with
       | VString text => notes_set migratedNotes (migrated_key key) text
       | VOther => migratedNotes
       end) (as_stored m) acc = acc ++ m.
Proof.
  revert acc. induction m as [|[k v] m IH]; simpl; intros acc Hns Hnd.
  - now rewrite app_nil_r.
  - inversion Hns as [|? ? Hk Hm]; subst. simpl in Hk.
    rewrite (migrated_key_fixed k Hk).
    unfold keys in Hnd. rewrite List.map_app in Hnd. simpl in Hnd.
    rewrite notes_set_fresh.
    + rewrite IH; [now rewrite <- app_assoc|exact Hm|].
      unfold keys. rewrite !List.map_app. simpl. rewrite <- app_assoc. exact Hnd.
    + apply List.NoDup_remove_2 in Hnd. intros Hin. apply Hnd.
      apply in_or_app. now left.
Qed.

(** Migration is idempotent: loading a migrated map gives it back. *)
Lemma migrate_idempotent (l : list (string * stored_value)) :
  migrate (as_stored (migrate l)) = migrate l.
Proof.
  destruct (migrate_namespaced l) as [Hns Hnd].
  unfold migrate at 1. now rewrite (migrate_replay (migrate l) []).
Qed.

(** Each legacy key is found again under the default paper, with its
    text, when no later entry claims the same id. *)
Lemma migrate_single (key text : string) :
  migrate [(key, VString text)] = [(migrated_key key, text)].
Proof. reflexivity. Qed.

(** C2: what the code does at the legacy store [{"Q1_a": "foo"}].  The
    in-memory notes are migrated to ["default::Q1_a"], but storage still
    holds the legacy key: the guard of the write-back inspects the keys of
    the migrated map, which are all namespaced, so no load ever writes. *)
Theorem notes_load_never_writes_back :
  (forall st, stored (load st) = stored st)
  /\ load (initial (Some [("Q1_a", VString "foo")]))
     = {| notes := [("default::Q1_a", "foo")];
          stored := Some [("Q1_a", VString "foo")] |}.
Proof. split; [exact load_leaves_storage|reflexivity]. Qed.

End NotesProps.

(** ** Revision flags *)

Module RevisionProps.
Import JS Revision RevisionSpec.

Lemma set_has_In (s : StringSet) (x : string) : set_has s x = true <-> In x s.
Proof.
  unfold set_has. rewrite List.existsb_exists. split.
  - intros [y [Hy Heq]]. apply String.eqb_eq in Heq. now subst.
  - intros H. exists x. split; [exact H|apply String.eqb_refl].
Qed.

Lemma set_has_false (s : StringSet) (x : string) : set_has s x = false <-> ~ In x s.
Proof.
  rewrite <- set_has_In. destruct (set_has s x); intuition congruence.
Qed.

Lemma set_delete_In (s : StringSet) (x y : string) :
  In y (set_delete s x) <-> In y s /\ y <> x.
Proof.
  unfold set_delete. rewrite List.filter_In. split; intros [H1 H2]; split; try exact H1.
  - intros ->. now rewrite String.eqb_refl in H2.
  - destruct (String.eqb_spec x y) as [->|]; [now contradiction H2|reflexivity].
Qed.

Lemma set_delete_absent (s : StringSet) (x : string) :
  ~ In x s -> set_delete s x = s.
Proof.
  induction s as [|y s IH]; simpl; intros H; [reflexivity|].
  destruct (String.eqb_spec x y) as [->|Hne]; simpl.
  - exfalso. apply H. now left.
  - f_equal. apply IH. intros Hin. apply H. now right.
Qed.

Lemma set_delete_app (s1 s2 : StringSet) (x : string) :
  set_delete (s1 ++ s2) x = set_delete s1 x ++ set_delete s2 x.
Proof. apply List.filter_app. Qed.

Lemma set_add_absent (s : StringSet) (x : string) :
  set_has s x = false -> set_add s x = s ++ [x].
Proof. unfold set_add. now intros ->. Qed.

Lemma set_delete_NoDup (s : StringSet) (x : string) :
  List.NoDup s -> List.NoDup (set_delete s x).
Proof. apply List.NoDup_filter. Qed.

(** Deleting a member and appending it again permutes the set. *)
Lemma delete_then_add_Permutation (s : StringSet) (x : string) :
  List.NoDup s -> In x s -> Permutation (set_delete s x ++ [x]) s.
Proof.
  induction s as [|y s IH]; simpl; intros Hnd Hin; [contradiction|].
  inversion Hnd as [|? ? Hnin Hnd']; subst.
  destruct (String.eqb_spec x y) as [->|Hne]; simpl.
  - rewrite set_delete_absent by exact Hnin.
    apply Permutation_sym, Permutation_cons_append.
  - constructor. apply IH; [exact Hnd'|]. destruct Hin as [Heq|Hin]; [|exact Hin].
    now contradiction Hne.
Qed.

(** C9 (as amended).  Toggling the same question twice gives back a set
    with the same members and the same size, and what is persisted is that
    set; the element order is the original one when the question was not
    marked before, and otherwise the question has moved to the end.  The
    persisted size is never negative. *)
Theorem toggleRevision_twice (q : string) (st : State) :
  wf st ->
  let st1 := toggleRevision q st in
  let st2 := toggleRevision q st1 in
  (forall x, isMarkedForRevision x st2 = isMarkedForRevision x st)
  /\ Permutation (revisionQuestions st2) (revisionQuestions st)
  /\ getRevisionCount st2 = getRevisionCount st
  /\ wf st2
  /\ stored st2 = Some (revisionQuestions st2)
  /\ (isMarkedForRevision q st = false ->
      revisionQuestions st2 = revisionQuestions st)
  /\ (isMarkedForRevision q st = true ->
      revisionQuestions st2 = set_delete (revisionQuestions st) q ++ [q])
  /\ 0 <= persisted_size st1 /\ 0 <= persisted_size st2.
Proof.
  intros Hwf st1 st2. unfold wf in *.
  assert (Hperm : Permutation (revisionQuestions st2) (revisionQuestions st)
                  /\ (isMarkedForRevision q st = false ->
                      revisionQuestions st2 = revisionQuestions st)
                  /\ (isMarkedForRevision q st = true ->
                      revisionQuestions st2 = set_delete (revisionQuestions st) q ++ [q])).
  { unfold st2, st1, toggleRevision, isMarkedForRevision. simpl.
    destruct (set_has (revisionQuestions st) q) eqn:E.
    - assert (Hq : set_has (set_delete (revisionQuestions st) q) q = false).
      { apply set_has_false. rewrite set_delete_In. now intros [_ H]. }
      rewrite Hq, (set_add_absent _ _ Hq).
      split; [|split; [discriminate|reflexivity]].
      apply delete_then_add_Permutation; [exact Hwf|now apply set_has_In].
    - rewrite (set_add_absent _ _ E).
      assert (Hq : set_has (revisionQuestions st ++ [q]) q = true).
      { apply set_has_In, in_or_app. right. now left. }
      rewrite Hq, set_delete_app, (set_delete_absent (revisionQuestions st) q)
        by (now apply set_has_false).
      simpl. rewrite String.eqb_refl. simpl. rewrite app_nil_r.
      split; [reflexivity|split; [reflexivity|discriminate]]. }
  destruct Hperm as [Hperm [Hout Hin]].
  split; [|split; [exact Hperm|split; [|split; [|split; [reflexivity|split;
    [exact Hout|split; [exact Hin|]]]]]]].
  - intros x. unfold isMarkedForRevision.
    destruct (set_has (revisionQuestions st) x) eqn:E.
    + apply set_has_In. apply (Permutation_in x (Permutation_sym Hperm)).
      now apply set_has_In.
    + apply set_has_false. intros H. apply (Permutation_in x Hperm) in H.
      apply set_has_In in H. congruence.
  - unfold getRevisionCount. now rewrite (Permutation_length Hperm).
  - apply (Permutation_NoDup (Permutation_sym Hperm) Hwf).
  - unfold persisted_size. simpl. lia.
Qed.

Lemma toggleRevision_twice_witness :
  wf two_marked
  /\ Permutation (revisionQuestions (toggleRevision "Q1_a" (toggleRevision "Q1_a" two_marked)))
                 (revisionQuestions two_marked).
Proof.
  assert (H : wf two_marked).
  { unfold wf. simpl. constructor.
    - simpl. intros [H|[]]. discriminate.
    - constructor; [intros []|constructor]. }
  split; [exact H|].
  exact (proj1 (proj2 (toggleRevision_twice "Q1_a" two_marked H))).
Defined.

(** C9, as stated, fails for the persisted form: toggling the first of
    two marked questions twice leaves the stored array in another order. *)
Lemma toggleRevision_twice_reorders :
  stored two_marked = Some ["Q1_a"; "Q2_b"]
  /\ stored (toggleRevision "Q1_a" (toggleRevision "Q1_a" two_marked))
     = Some ["Q2_b"; "Q1_a"].
Proof. split; reflexivity. Qed.

End RevisionProps.

(** ** Progress tracker: keys and record ids *)

Module ProgressKeys.
Import JS Progress ProgressSpec.

Lemma key_of_merge (current : QuestionProgress) (updates : Updates)
      (questionId paperId : string) :
  key_of (merge current updates questionId paperId)
  = createGlobalKey paperId questionId None.
Proof. reflexivity. Qed.

Lemma keyed_insert (m : gmap string QuestionProgress) (k : string)
      (p : QuestionProgress) :
  keyed m -> k = key_of p -> keyed (<[k := p]> m).
Proof.
  intros Hm Hk k' p' Hlook. apply lookup_insert_Some in Hlook.
  destruct Hlook as [[<- <-]|[_ Hlook]]; [exact Hk|now apply Hm].
Qed.

Lemma put_consistent (k : string) (p : QuestionProgress) (st : State) :
  keys_consistent st -> k = key_of p -> keys_consistent (put k p st).
Proof.
  intros [Hm _] Hk. split; simpl.
  - now apply keyed_insert.
  - intros m [= <-]. now apply keyed_insert.
Qed.

Lemma updateQuestionProgress_consistent paperId questionId updates st :
  keys_consistent st ->
  keys_consistent (updateQuestionProgress paperId questionId updates st).
Proof.
  intros H. unfold updateQuestionProgress. apply put_consistent; [exact H|].
  now rewrite key_of_merge.
Qed.

Lemma startStudySession_consistent paperId questionId sessionType now st :
  keys_consistent st ->
  keys_consistent (startStudySession paperId questionId sessionType now st).
Proof.
  intros H. unfold startStudySession.
  match goal with
  | |- keys_consistent {| questionProgress := questionProgress ?s;
                          activeSession := _; stored := stored ?s |} =>
      assert (Hs : keys_consistent s)
  end.
  { apply put_consistent; [exact H|]. now rewrite key_of_merge. }
  exact Hs.
Qed.

Lemma endStudySession_consistent paperId questionId now st :
  keys_consistent st ->
  keys_consistent (endStudySession paperId questionId now st).
Proof.
  intros H. unfold endStudySession.
  destruct (activeSession st) as [a|]; [|exact H].
  destruct (_ && _); [|exact H].
  match goal with
  | |- keys_consistent {| questionProgress := questionProgress ?s;
                          activeSession := _; stored := stored ?s |} =>
      assert (Hs : keys_consistent s)
  end.
  { apply put_consistent; [exact H|]. now rewrite key_of_merge. }
  exact Hs.
Qed.

Lemma step_consistent (st st' : State) :
  step st st' -> keys_consistent st -> keys_consistent st'.
Proof.
  intros Hstep H. destruct Hstep.
  - now apply updateQuestionProgress_consistent.
  - now apply updateQuestionProgress_consistent.
  - now apply updateQuestionProgress_consistent.
  - now apply updateQuestionProgress_consistent.
  - now apply startStudySession_consistent.
  - now apply endStudySession_consistent.
Qed.

Lemma initial_consistent : keys_consistent initial.
Proof.
  split; simpl.
  - intros k p Hlook. now rewrite lookup_empty in Hlook.
  - intros m. discriminate.
Qed.

(** The record a mutator leaves under the key of its question. *)
Lemma updateQuestionProgress_writes paperId questionId updates st :
  exists p,
    questionProgress (updateQuestionProgress paperId questionId updates st)
      !! (paperId +:+ "::" +:+ questionId) = Some p
    /\ Progress.paperId p = paperId /\ Progress.questionId p = questionId.
Proof.
  eexists. split; [apply lookup_insert_eq|]. now split.
Qed.

Lemma global_key_split (pid pid' qid qid' : string) :
  no_colon pid = true -> no_colon pid' = true ->
  pid +:+ "::" +:+ qid = pid' +:+ "::" +:+ qid' ->
  pid = pid' /\ qid = qid'.
Proof.
  revert pid'. induction pid as [|c pid IH]; intros [|c' pid']; simpl;
    intros H H' Heq.
  - injection Heq as Heq. now subst.
  - injection Heq as Hc _. subst c'. discriminate.
  - injection Heq as Hc _. subst c. discriminate.
  - injection Heq as Hc Heq. subst c'.
    apply andb_prop in H. apply andb_prop in H'.
    destruct (IH pid' (proj2 H) (proj2 H') Heq) as [-> ->]. now split.
Qed.

Lemma keyed_lookup (m : gmap string QuestionProgress) (pid qid : string)
      (p : QuestionProgress) :
  keyed m -> no_colon pid = true -> no_colon (paperId p) = true ->
  m !! (pid +:+ "::" +:+ qid) = Some p ->
  paperId p = pid /\ questionId p = qid.
Proof.
  intros Hm Hpid Hp Hlook. apply Hm in Hlook. unfold key_of in Hlook.
  destruct (global_key_split _ _ _ _ Hpid Hp Hlook) as [-> ->]. now split.
Qed.



End ProgressKeys.

(** ** Scores: quiz score and exam readiness *)

Module ScoreProps.
Import JS ScoreSpec.

(** Up to a total of 100 the computed percentage is the exact one, except
    at 23/40 and 46/80, where the exact value 57.5 is computed as
    57.49999999999999 and rounds down. *)
Lemma percent_mismatches_100 : percent_mismatches 100 = [(23, 40); (46, 80)].
Proof. vm_compute. reflexivity. Qed.

End ScoreProps.

Module QuizScoreProps.
Import JS QuizHistory ScoreSpec QuizScoreSpec.

Lemma endQuizAttempt_score (a : QuizAttempt) (results : list QuizQuestionResult) (now : Z) :
  score (finish a results now) = quiz_score results.
Proof. reflexivity. Qed.

Lemma quiz_score_no_marks (results : list QuizQuestionResult) :
  sum_marks results = 0 -> quiz_score results = 0.
Proof. unfold quiz_score. now intros ->. Qed.

Lemma quiz_score_one_of_two :
  quiz_score [result "1" 5 true; result "2" 5 false] = 50.
Proof. vm_compute. reflexivity. Qed.

(** C5: the code at 23 marks earned out of 40.  The exact percentage is
    57.5, which rounds to 58; the stored score is 57, because
    [earnedMarks / totalMarks] is rounded to a double before it is
    multiplied by 100. *)
Theorem quiz_score_23_of_40 :
  sum_marks results_23_of_40 = 40
  /\ sum_marks (correct_only results_23_of_40) = 23
  /\ spec_score results_23_of_40 = 58
  /\ quiz_score results_23_of_40 = 57.
Proof. repeat split; vm_compute; reflexivity. Qed.

End QuizScoreProps.

Module ReadinessProps.
Import JS Progress ScoreSpec ReadinessSpec.

Lemma readiness_no_questions (paperId : string) (now : Z) (st : State) :
  calculateExamReadiness paperId [] now st = Some 0.
Proof. reflexivity. Qed.

Lemma readiness_no_progress :
  calculateExamReadiness "paper.json" paper_40 1730000000000 initial = Some 0.
Proof. vm_compute. reflexivity. Qed.

Lemma readiness_all_mastered :
  calculateExamReadiness "paper.json" paper_40 1730000600000
                         (all_mastered 1730000000000) = Some 100.
Proof. vm_compute. reflexivity. Qed.

(** C8: the code on a paper of 40 marks of which the questions worth 23
    are completed, rated 5 and studied ten minutes ago.  [totalScore] is
    69 and [maxScore] 120: the exact percentage is 57.5, which rounds to
    58, and [calculateExamReadiness] returns 57, because
    [totalScore / maxScore] is rounded to a double before it is multiplied
    by 100. *)
Theorem readiness_69_of_120 :
  let now := 1730000600000 in
  let st := five_mastered 1730000000000 in
  readiness_totals "paper.json" paper_40 now st = (69, 120)
  /\ spec_readiness "paper.json" paper_40 now st = 58
  /\ calculateExamReadiness "paper.json" paper_40 now st = Some 57.
Proof. repeat split; vm_compute; reflexivity. Qed.

End ReadinessProps.

(** ** The paper loader *)

Module LoaderProps.
Import JS Json QuestionPaper.

Section Outcomes.

Variable parse : jsstring -> option JSON.
Variable status : Z.
Variable text : jsstring.

Lemma not_found_iff : loadQuestionPaper parse status text = Failed NotFound <-> status = 404.
Proof.
  unfold loadQuestionPaper. split.
  - destruct (response_ok status) eqn:Hok; cbn [negb].
    + destruct (startsWith _ _); [discriminate|].
      destruct (parse text) as [data|]; [|discriminate].
      destruct (get_prop data _); try discriminate;
        destruct (get_prop data _) as [| |qs]; try discriminate;
        destruct (truthy data && truthy qs); try discriminate;
        destruct qs; discriminate.
    + destruct (Z.eqb_spec status 404); [easy|discriminate].
  - intros ->. reflexivity.
Qed.

Lemma server_error_iff :
  loadQuestionPaper parse status text = Failed ServerError
  <-> response_ok status = false /\ status <> 404.
Proof.
  unfold loadQuestionPaper. split.
  - destruct (response_ok status) eqn:Hok; cbn [negb].
    + destruct (startsWith _ _); [discriminate|].
      destruct (parse text) as [data|]; [|discriminate].
      destruct (get_prop data _); try discriminate;
        destruct (get_prop data _) as [| |qs]; try discriminate;
        destruct (truthy data && truthy qs); try discriminate;
        destruct qs; discriminate.
    + destruct (Z.eqb_spec status 404); [discriminate|easy].
  - intros [-> Hne]. cbn [negb]. destruct (Z.eqb_spec status 404); [contradiction|reflexivity].
Qed.

Lemma html_or_unparsable :
  response_ok status = true ->
  startsWith (lit "<") (trim text) = true \/ parse text = None ->
  loadQuestionPaper parse status text = Failed InvalidFormat.
Proof.
  unfold loadQuestionPaper. intros -> H. cbn [negb].
  destruct (startsWith _ _); [reflexivity|].
  destruct H as [H| ->]; [discriminate|reflexivity].
Qed.

(** A body that parses to an object is loaded whatever its members:
    as it is when it has no [questions], with the questions cleaned when
    [questions] is an array. *)
Lemma object_accepted (ms : list (jsstring * JSON)) :
  response_ok status = true ->
  startsWith (lit "<") (trim text) = false ->
  parse text = Some (JObj ms) ->
  (obj_get (lit "questions") ms = None ->
   loadQuestionPaper parse status text = Loaded (JObj ms))
  /\ (forall items,
         obj_get (lit "questions") ms = Some (JArr items) ->
         loadQuestionPaper parse status text
         = Loaded (JObj (obj_set ms (lit "questions")
                                 (JArr (List.map clean_question items)))))
  /\ loadQuestionPaper parse status text <> Failed InvalidFormat.
Proof.
  unfold loadQuestionPaper. intros -> -> ->. cbn [negb get_prop truthy andb].
  fold (obj_get (lit "metadata") ms). fold (obj_get (lit "questions") ms).
  destruct (obj_get (lit "metadata") ms);
    (destruct (obj_get (lit "questions") ms) as [qs|];
     [|repeat split; [discriminate|discriminate]]);
    (repeat split; [discriminate| |]);
    try (intros items [= ->]; reflexivity);
    destruct (truthy qs); try discriminate; destruct qs; discriminate.
Qed.

End Outcomes.



(** The loader on a small paper: the answer loses its trailing image
    placeholder and the question text gets its math marked up. *)
Lemma loadQuestionPaper_cleans_questions :
  loadQuestionPaper
    (fun _ => Some (JObj [(lit "metadata", JObj []);
                          (lit "questions",
                            JArr [JObj [(lit "question_text", JStr (lit "Define $x$"));
                                        (lit "answer", JStr (lit "It is x. [Image of x"))]])]))
    200 (lit "{...}")
  = Loaded (JObj [(lit "metadata", JObj []);
                  (lit "questions",
                    JArr [JObj [(lit "question_text",
                                  JStr (lit "Define <span class=" ++ [34%N]
                                        ++ lit "inline-math" ++ [34%N]
                                        ++ lit ">x</span>"));
                                (lit "answer", JStr (lit "It is x."))]])]).
Proof. vm_compute. reflexivity. Qed.

End LoaderProps.

(** ** Text cleanup: where the transforms are the identity *)

Module CleanupProps.
Import JS Regex TextUtils CleanupSpec.

Lemma startsWith_app (a b s : jsstring) :
  startsWith (a ++ b) s = startsWith a s && startsWith b (skipn (length a) s).
Proof.
  revert s. induction a as [|x a IH]; intros s; simpl; [reflexivity|].
  destruct s as [|y s]; simpl; [reflexivity|].
  rewrite IH. now rewrite andb_assoc.
Qed.

Lemma literal_match (r : re) :
  forall w prev s cap k,
    literal_of r = Some w ->
    (startsWith w s = false -> rmatch r prev s cap k = None)
    /\ (startsWith w s = true ->
        exists prev', rmatch r prev s cap k = k prev' (skipn (length w) s) cap).
Proof.
  induction r as [cl| |r1 IH1 r2 IH2|g r IH|r IH| | |]; intros w prev s cap k Hlit;
    simpl in Hlit; try discriminate.
  - destruct cl as [c| | | |]; try discriminate. injection Hlit as <-.
    simpl. destruct s as [|y s]; simpl.
    + split; [reflexivity|discriminate].
    + unfold char_eqb. rewrite N.eqb_sym.
      destruct (N.eqb y c); simpl; split; try discriminate; try reflexivity.
      intros _. now eexists.
  - injection Hlit as <-. simpl. split; [discriminate|]. intros _. now exists prev.
  - destruct (literal_of r1) as [a|]; [|discriminate].
    destruct (literal_of r2) as [b|]; [|discriminate].
    injection Hlit as <-. rewrite startsWith_app. simpl.
    destruct (IH1 a prev s cap
                  (fun prev' s' cap' => rmatch r2 prev' s' cap' k) eq_refl) as [Hf Ht].
    destruct (startsWith a s) eqn:Ea; simpl.
    + destruct (Ht eq_refl) as [prev' ->].
      destruct (IH2 b prev' (skipn (length a) s) cap k eq_refl) as [Hf2 Ht2].
      split.
      * exact Hf2.
      * intros Hb. destruct (Ht2 Hb) as [prev'' ->]. exists prev''.
        now rewrite List.skipn_skipn, List.length_app, Nat.add_comm.
    + split; [intros _; now apply Hf|discriminate].
Qed.

(** A pattern cannot match where the text does not start with its
    literal prefix. *)
Lemma rmatch_needs_prefix (r : re) :
  forall prev s cap k,
    startsWith (literal_prefix r) s = false -> rmatch r prev s cap k = None.
Proof.
  induction r as [cl| |r1 IH1 r2 IH2|g r IH|r IH| | |]; intros prev s cap k H;
    simpl in H; try discriminate.
  - destruct cl as [c| | | |]; try discriminate.
    apply (proj1 (literal_match (Chr (Is c)) [c] prev s cap k eq_refl) H).
  - simpl. destruct (literal_of r1) as [a|] eqn:Ea.
    + rewrite startsWith_app in H.
      destruct (literal_match r1 a prev s cap
                  (fun prev' s' cap' => rmatch r2 prev' s' cap' k) Ea) as [Hf Ht].
      destruct (startsWith a s) eqn:Es; [|now apply Hf].
      destruct (Ht eq_refl) as [prev' ->]. now apply IH2.
    + now apply IH1.
  - simpl. now apply IH.
Qed.

Lemma match_at_needs_prefix (r : re) (prev : option char) (s : jsstring) :
  startsWith (literal_prefix r) s = false -> match_at r prev s = None.
Proof. intros H. unfold match_at. now rewrite rmatch_needs_prefix. Qed.

(** A replacement whose pattern matches nowhere gives the text back. *)
Section NoMatch.

Variable r : re.
Variable tpl : list piece.
Variable inv : option char -> jsstring -> Prop.
Hypothesis inv_no_match : forall prev s, inv prev s -> match_at r prev s = None.
Hypothesis inv_step : forall prev c s, inv prev (c :: s) -> inv (Some c) s.

Lemma replace_g_no_match (prev : option char) (s : jsstring) :
  inv prev s -> replace_g r tpl prev s O = s.
Proof using inv_no_match inv_step.
  revert prev. induction s as [|c s IH]; intros prev H; simpl;
    rewrite (inv_no_match _ _ H); [reflexivity|].
  f_equal. apply IH. now apply (inv_step prev).
Qed.

Lemma replace_1_no_match (prev : option char) (s : jsstring) :
  inv prev s -> replace_1 r tpl prev s = s.
Proof using inv_no_match inv_step.
  revert prev. induction s as [|c s IH]; intros prev H; simpl;
    rewrite (inv_no_match _ _ H); [reflexivity|].
  f_equal. apply IH. now apply (inv_step prev).
Qed.

End NoMatch.

Lemma apply_rule_needs_prefix (ru : rule) (s : jsstring) :
  includes_text (literal_prefix (rule_re ru)) s = false -> apply_rule s ru = s.
Proof.
  intros H. unfold apply_rule.
  destruct (rule_global ru);
    [apply (replace_g_no_match _ _
              (fun _ t => includes_text (literal_prefix (rule_re ru)) t = false))
    |apply (replace_1_no_match _ _
              (fun _ t => includes_text (literal_prefix (rule_re ru)) t = false))];
    try exact H.
  all: try (intros prev t Ht; apply match_at_needs_prefix;
            destruct t; simpl in Ht; apply orb_false_elim in Ht; tauto).
  all: intros prev c t Ht; simpl in Ht; apply orb_false_elim in Ht; tauto.
Qed.

Lemma free_of_includes (c : char) (w cs s : jsstring) :
  existsb (char_eqb c) cs = true -> free_of cs s = true ->
  includes_text (c :: w) s = false.
Proof.
  intros Hc. induction s as [|y s IH]; simpl; intros H; [reflexivity|].
  apply andb_prop in H. destruct H as [Hy Hs]. rewrite (IH Hs), orb_false_r.
  unfold char_eqb at 1. destruct (N.eqb_spec c y) as [->|]; [|reflexivity].
  simpl. now rewrite Hc in Hy.
Qed.

(** *** [formatMathContent] *)

(** Every pattern of [formatMathContent] starts with a dollar sign or a
    backslash. *)
Lemma formatMathContent_prefixes :
  forallb (fun ru => match literal_prefix (rule_re ru) with
                     | c :: _ => existsb (char_eqb c) (lit "$\")
                     | [] => false
                     end) formatMathContent_rules = true.
Proof. vm_compute. reflexivity. Qed.

Lemma apply_rules_fixed (rules : list rule) (s : jsstring) :
  Forall (fun ru => apply_rule s ru = s) rules -> apply_rules rules s = s.
Proof.
  unfold apply_rules. induction 1 as [|ru rules Hru _ IH]; simpl; [reflexivity|].
  now rewrite Hru.
Qed.

Lemma formatMathContent_fixed (s : jsstring) :
  free_of (lit "$\") s = true -> formatMathContent s = s.
Proof.
  intros H. unfold formatMathContent. destruct s as [|c s]; [reflexivity|].
  apply apply_rules_fixed. apply List.Forall_forall. intros ru Hru.
  pose proof formatMathContent_prefixes as Hall.
  rewrite List.forallb_forall in Hall. specialize (Hall ru Hru).
  apply apply_rule_needs_prefix.
  destruct (literal_prefix (rule_re ru)) as [|x w]; [discriminate|].
  now apply (free_of_includes x w (lit "$\")).
Qed.

(** *** [cleanAnswerText] *)

Lemma spaced_at_step (prev : option char) (c : char) (s : jsstring) :
  spaced_at prev (c :: s) -> spaced_at (Some c) s.
Proof.
  unfold spaced_at. simpl. destruct (is_space c); [|easy].
  intros H. now apply andb_prop in H.
Qed.

Lemma line_terminator_is_space (c : char) :
  is_line_terminator c = true -> is_space c = true.
Proof.
  unfold is_line_terminator. intros H.
  repeat (apply orb_prop in H; destruct H as [H|H]);
    apply N.eqb_eq in H; subst; reflexivity.
Qed.

Lemma not_space_not_terminator (c : char) :
  is_space c = false -> is_line_terminator c = false.
Proof.
  intros H. destruct (is_line_terminator c) eqn:E; [|reflexivity].
  apply line_terminator_is_space in E. congruence.
Qed.

Lemma not_space_not_nl (c : char) : is_space c = false -> char_eqb c nl = false.
Proof.
  intros H. unfold char_eqb. destruct (N.eqb_spec c nl) as [->|]; [discriminate|reflexivity].
Qed.

(** After a white-space character comes a character that is not one. *)
Lemma spaced_after_blank (s : jsstring) :
  spaced true s = true -> exists d s', s = d :: s' /\ is_space d = false.
Proof.
  destruct s as [|d s']; simpl; [discriminate|].
  destruct (is_space d) eqn:E; [discriminate|]. intros _. now exists d, s'.
Qed.

Lemma blank_lines_no_match (prev : option char) (s : jsstring) :
  spaced_at prev s ->
  match_at (Cat [Chr (Is nl); Chr (Is nl); Chr (Is nl); Star true (Chr (Is nl))])
           prev s = None.
Proof.
  unfold spaced_at, match_at. intros H. destruct s as [|c s]; [reflexivity|].
  simpl in H. cbn [Cat rmatch in_class].
  destruct (char_eqb c nl) eqn:Ec; [|reflexivity].
  assert (Hc : is_space c = true).
  { unfold char_eqb in Ec. apply N.eqb_eq in Ec. now subst. }
  rewrite Hc in H. apply andb_prop in H. destruct H as [_ H].
  destruct (spaced_after_blank s H) as [d [s' [-> Hd]]].
  now rewrite (not_space_not_nl d Hd).
Qed.

Lemma trailing_space_no_match (prev : option char) (s : jsstring) :
  spaced_at prev s ->
  match_at (Cat [Plus true (Chr Space); Eol]) prev s = None.
Proof.
  unfold spaced_at, match_at. intros H. destruct s as [|c s]; [reflexivity|].
  simpl in H. cbn [Cat Plus rmatch in_class].
  destruct (is_space c) eqn:Ec; [|reflexivity].
  apply andb_prop in H. destruct H as [_ H].
  destruct (spaced_after_blank s H) as [d [s' [-> Hd]]].
  cbn [length]. cbn [in_class]. rewrite Hd. cbn [at_line_end].
  now rewrite (not_space_not_terminator d Hd).
Qed.

Lemma leading_space_no_match (prev : option char) (s : jsstring) :
  spaced_at prev s ->
  match_at (Cat [Bol; Plus true (Chr Space)]) prev s = None.
Proof.
  unfold spaced_at, match_at. intros H. cbn [Cat Plus rmatch].
  destruct (at_line_start prev) eqn:Eb; [|reflexivity].
  assert (Hblank : blank_before prev = true).
  { destruct prev as [p|]; [|reflexivity]. simpl in *.
    now apply line_terminator_is_space. }
  rewrite Hblank in H. destruct s as [|c s]; [reflexivity|].
  simpl in H. cbn [in_class]. destruct (is_space c); [discriminate|reflexivity].
Qed.

Lemma spaced_last (b : bool) (s : jsstring) (c : char) :
  spaced b (s ++ [c]) = true -> is_space c = false.
Proof.
  revert b. induction s as [|x s IH]; intros b; simpl.
  - destruct (is_space c); [|reflexivity]. now rewrite andb_false_r.
  - destruct (is_space x); [|apply IH]. intros H. apply andb_prop in H. now apply (IH true).
Qed.

Lemma trim_single_spaced (s : jsstring) : single_spaced s = true -> trim s = s.
Proof.
  destruct s as [|c s]; [reflexivity|]. unfold single_spaced. intros H.
  assert (Hstart : trimStart (c :: s) = c :: s).
  { simpl in *. now destruct (is_space c). }
  unfold trim, trimEnd. rewrite Hstart.
  destruct (exists_last (l := c :: s)) as [s' [z Hz]]; [discriminate|].
  rewrite Hz in *. rewrite rev_app_distr. simpl.
  rewrite (spaced_last true s' z H). simpl. now rewrite rev_involutive.
Qed.

Lemma apply_rule_spaced (r : re) (g : bool) (tpl : list piece) (s : jsstring) :
  (forall prev t, spaced_at prev t -> match_at r prev t = None) ->
  spaced_at None s -> apply_rule s (Rule r g tpl) = s.
Proof.
  intros Hr Hs. unfold apply_rule. simpl.
  destruct g; [apply (replace_g_no_match r tpl spaced_at)
              |apply (replace_1_no_match r tpl spaced_at)];
    first [exact Hr|exact spaced_at_step|exact Hs].
Qed.

Lemma cleanAnswerText_fixed (s : jsstring) :
  single_spaced s = true -> none_of clean_markers s = true -> cleanAnswerText s = s.
Proof.
  intros Hsp Hmark. unfold cleanAnswerText. destruct s as [|c s]; [reflexivity|].
  assert (Hw : forall w, In w clean_markers -> includes_text w (c :: s) = false).
  { intros w Hin. unfold none_of in Hmark. rewrite List.forallb_forall in Hmark.
    specialize (Hmark w Hin). now destruct (includes_text w (c :: s)). }
  assert (Hat : spaced_at None (c :: s)) by exact Hsp.
  rewrite apply_rules_fixed; [now apply trim_single_spaced|].
  unfold cleanAnswerText_rules, all, first.
  repeat (apply List.Forall_cons; [|]); try apply List.Forall_nil;
    first [ apply apply_rule_needs_prefix; apply Hw; vm_compute; tauto
          | apply apply_rule_spaced; [|exact Hat];
            first [ exact blank_lines_no_match
                  | exact trailing_space_no_match
                  | exact leading_space_no_match ] ].
Qed.

(** C6 (as amended).  The cleanup transforms are not idempotent on every
    text, but each leaves clean text as it is, so applying it twice is
    the same as applying it once whenever the first result is clean:
    [formatMathContent] is the identity on every text without a dollar
    sign and without a backslash; [cleanAnswerText] is the identity on
    every text that contains no [|], none of the markers
    [### **Memory Techniques**], [**Memory Techniques:**], [\$], [\[],
    [\]], [[Image of], [(Note:], and whose white space is single
    characters standing between characters that are not white space. *)
Theorem cleanup_identity_on_clean_text :
  (forall s, free_of (lit "$\") s = true -> formatMathContent s = s)
  /\ (forall s, single_spaced s = true -> none_of clean_markers s = true ->
                cleanAnswerText s = s)
  /\ (forall s, free_of (lit "$\") (formatMathContent s) = true ->
                formatMathContent (formatMathContent s) = formatMathContent s)
  /\ (forall s, single_spaced (cleanAnswerText s) = true ->
                none_of clean_markers (cleanAnswerText s) = true ->
                cleanAnswerText (cleanAnswerText s) = cleanAnswerText s).
Proof.
  split; [exact formatMathContent_fixed|split; [exact cleanAnswerText_fixed|split]].
  - intros s. apply formatMathContent_fixed.
  - intros s. apply cleanAnswerText_fixed.
Qed.

(** C6, as stated, fails for both transforms.  [formatMathContent] wraps
    the inside of [$$a$$] as inline math and a second pass wraps the
    result again; [cleanAnswerText] turns backslash, backslash, dollar
    into backslash, dollar and a second pass turns that into a dollar. *)
Lemma cleanup_not_idempotent :
  let span := lit "<span class=" ++ quote ++ lit "inline-math" ++ quote ++ lit ">" in
  formatMathContent (lit "$$a$$") = lit "$" ++ span ++ lit "a</span>$"
  /\ formatMathContent (lit "$" ++ span ++ lit "a</span>$")
     = span ++ span ++ lit "a</span></span>"
  /\ cleanAnswerText (lit "\\$") = lit "\$"
  /\ cleanAnswerText (lit "\$") = lit "$".
Proof. repeat split; vm_compute; reflexivity. Qed.

(** Clean text in the sense of the theorem: a short answer. *)
Lemma cleanAnswerText_fixed_example :
  cleanAnswerText (lit "A stack is a LIFO structure (last in, first out).")
  = lit "A stack is a LIFO structure (last in, first out).".
Proof. apply cleanAnswerText_fixed; vm_compute; reflexivity. Qed.

End CleanupProps.

(** ** Progress tracker: the study streak *)

Module StreakProps.
Import JS Progress StreakSpec.

Section Streak.

Variable tzOffset : Z.

Lemma startOfDay_day (t : Z) :
  startOfDay (fixed_zone tzOffset) t = oneDayMs * day_of (fixed_zone tzOffset) t - tzOffset.
Proof.
  unfold startOfDay, day_of, UTC, LocalTime, fixed_zone. lia.
Qed.

Lemma in_last_studied (values : list QuestionProgress) (t : Z) :
  In t (last_studied_dates values)
  <-> exists p, In p values /\ lastStudied p = Some t.
Proof.
  unfold last_studied_dates. induction values as [|p values IH]; simpl.
  - split; [intros []|intros [p [[] _]]].
  - rewrite in_app_iff, IH. split.
    + intros [H|[q [Hq Ht]]].
      * exists p. split; [now left|]. destruct (lastStudied p); simpl in H; [|easy].
        destruct H as [->|[]]. reflexivity.
      * exists q. split; [now right|exact Ht].
    + intros [q [[->|Hq] Ht]].
      * left. rewrite Ht. now left.
      * right. now exists q.
Qed.

Lemma existsb_eqb_In (x : Z) (l : list Z) : existsb (Z.eqb x) l = true <-> In x l.
Proof.
  rewrite List.existsb_exists. split.
  - intros [y [Hy Heq]]. apply Z.eqb_eq in Heq. now subst.
  - intros H. exists x. split; [exact H|apply Z.eqb_refl].
Qed.

Lemma unique_from_In (seen l : list Z) (x : Z) :
  In x (unique_from seen l) <-> In x l /\ ~ In x seen.
Proof.
  revert seen. induction l as [|y l IH]; intros seen; simpl; [tauto|].
  destruct (existsb (Z.eqb y) seen) eqn:E.
  - apply existsb_eqb_In in E. rewrite IH. split.
    + intros [H1 H2]. split; [now right|exact H2].
    + intros [[->|H1] H2]; [contradiction|now split].
  - assert (Hy : ~ In y seen).
    { intros H. apply existsb_eqb_In in H. congruence. }
    simpl. rewrite IH. simpl. split.
    + intros [->|[H1 H2]]; [split; [now left|exact Hy]|].
      split; [now right|]. intros H. apply H2. now right.
    + intros [[->|H1] H2]; [now left|].
      destruct (Z.eq_dec y x) as [->|Hne]; [now left|].
      right. split; [exact H1|]. intros [H|H]; [now apply Hne|now apply H2].
Qed.

Lemma unique_from_NoDup (seen l : list Z) : List.NoDup (unique_from seen l).
Proof.
  revert seen. induction l as [|y l IH]; intros seen; simpl; [constructor|].
  destruct (existsb (Z.eqb y) seen); [apply IH|].
  constructor; [|apply IH]. rewrite unique_from_In. intros [_ H]. apply H. now left.
Qed.

Lemma insert_desc_Permutation (x : Z) (l : list Z) :
  Permutation (insert_desc x l) (x :: l).
Proof.
  induction l as [|y l IH]; simpl; [reflexivity|].
  destruct (y <=? x); [reflexivity|].
  rewrite IH. apply perm_swap.
Qed.

Lemma sort_desc_Permutation (l : list Z) : Permutation (sort_desc l) l.
Proof.
  induction l as [|x l IH]; simpl; [reflexivity|].
  rewrite insert_desc_Permutation. now constructor.
Qed.

Lemma insert_desc_sorted (x : Z) (l : list Z) :
  StronglySorted Z.ge l -> StronglySorted Z.ge (insert_desc x l).
Proof.
  induction 1 as [|y l Hl IH Hy]; simpl.
  - constructor; constructor.
  - destruct (Z.leb_spec y x).
    + constructor; [now constructor|].
      constructor; [lia|]. eapply List.Forall_impl; [|exact Hy]. simpl. lia.
    + constructor; [exact IH|].
      apply (Permutation_Forall (Permutation_sym (insert_desc_Permutation x l))).
      constructor; [lia|exact Hy].
Qed.

Lemma sort_desc_sorted (l : list Z) : StronglySorted Z.ge (sort_desc l).
Proof.
  induction l as [|x l IH]; simpl; [constructor|now apply insert_desc_sorted].
Qed.

Lemma sorted_NoDup_strict (l : list Z) :
  StronglySorted Z.ge l -> List.NoDup l -> StronglySorted Z.gt l.
Proof.
  induction 1 as [|y l Hl IH Hy]; intros Hnd; [constructor|].
  inversion Hnd as [|? ? Hnin Hnd']; subst.
  constructor; [now apply IH|].
  rewrite List.Forall_forall in *. intros z Hz. specialize (Hy z Hz).
  assert (z <> y) by (intros ->; contradiction). lia.
Qed.

Lemma studyDates_strict (values : list QuestionProgress) :
  StronglySorted Z.gt (studyDates (fixed_zone tzOffset) values).
Proof.
  unfold studyDates. apply sorted_NoDup_strict; [apply sort_desc_sorted|].
  apply (Permutation_NoDup (Permutation_sym (sort_desc_Permutation _))).
  apply unique_from_NoDup.
Qed.

(** The study dates are the midnights of the days studied on. *)
Lemma in_studyDates (values : list QuestionProgress) (x : Z) :
  In x (studyDates (fixed_zone tzOffset) values)
  <-> exists d, studied_on (fixed_zone tzOffset) values d /\ x = oneDayMs * d - tzOffset.
Proof.
  unfold studyDates. split.
  - intros H. apply (Permutation_in x (sort_desc_Permutation _)) in H.
    apply unique_from_In in H. destruct H as [H _].
    apply List.in_map_iff in H. destruct H as [t [<- Ht]].
    apply in_last_studied in Ht. destruct Ht as [p [Hp Ht]].
    exists (day_of (fixed_zone tzOffset) t). split; [now exists p, t|apply startOfDay_day].
  - intros [d [[p [t [Hp [Ht <-]]]] ->]].
    apply (Permutation_in _ (Permutation_sym (sort_desc_Permutation _))).
    apply unique_from_In. split; [|intros []].
    rewrite <- startOfDay_day. apply List.in_map. apply in_last_studied. now exists p.
Qed.

(** The loop counts the run of consecutive days that starts the list. *)
Lemma consecutive_run (rest : list Z) :
  forall x0,
    StronglySorted Z.gt (x0 :: rest) ->
    (forall x, In x (x0 :: rest) -> exists d, x = oneDayMs * d - tzOffset) ->
    let k := 1 + consecutive x0 rest in
    1 <= k
    /\ (forall i, 0 <= i < k -> In (x0 - i * oneDayMs) (x0 :: rest))
    /\ ~ In (x0 - k * oneDayMs) (x0 :: rest).
Proof.
  induction rest as [|y rest IH]; intros x0 Hs Hday; cbn [consecutive].
  - split; [lia|split].
    + intros i Hi. left. day_lia.
    + intros [H|[]]. day_lia.
  - inversion Hs as [|? ? Hs' Hall]; subst.
    assert (Hgt : forall z, In z (y :: rest) -> x0 > z).
    { now apply List.Forall_forall. }
    destruct (Z.eqb_spec (x0 - y) oneDayMs) as [Heq|Hne].
    + destruct (IH y Hs' (fun x Hx => Hday x (or_intror Hx))) as [Hk [Hin Hout]].
      cbv zeta in *. split; [lia|split].
      * intros i Hi. destruct (Z.eq_dec i 0) as [->|Hi0]; [left; lia|].
        right. replace (x0 - i * oneDayMs) with (y - (i - 1) * oneDayMs) by day_lia.
        apply Hin. lia.
      * intros [H|H].
        -- day_lia.
        -- apply Hout.
           replace (y - (1 + consecutive y rest) * oneDayMs)
             with (x0 - (1 + (1 + consecutive y rest)) * oneDayMs) by day_lia.
           exact H.
    + split; [lia|split].
      * intros i Hi. left. day_lia.
      * destruct (Hday x0 (or_introl eq_refl)) as [a Ha].
        destruct (Hday y (or_intror (or_introl eq_refl))) as [b Hb].
        pose proof (Hgt y (or_introl eq_refl)) as Hy.
        assert (Hfar : y < x0 - oneDayMs) by day_lia.
        intros [H|[H|H]].
        -- day_lia.
        -- day_lia.
        -- inversion Hs' as [|? ? _ Hall']; subst.
           rewrite List.Forall_forall in Hall'. specialize (Hall' _ H). day_lia.
Qed.

Lemma studyDates_head (values : list QuestionProgress) (m x0 : Z) (rest : list Z) :
  most_recent (fixed_zone tzOffset) values m -> studyDates (fixed_zone tzOffset) values = x0 :: rest ->
  x0 = oneDayMs * m - tzOffset.
Proof.
  intros [Hm Hmax] Hsd.
  pose proof (studyDates_strict values) as Hs. rewrite Hsd in Hs.
  assert (Hx0 : In x0 (studyDates (fixed_zone tzOffset) values)) by (rewrite Hsd; now left).
  apply in_studyDates in Hx0. destruct Hx0 as [d [Hd ->]].
  assert (Hin : In (oneDayMs * m - tzOffset) (studyDates (fixed_zone tzOffset) values)).
  { apply in_studyDates. now exists m. }
  rewrite Hsd in Hin. specialize (Hmax d Hd).
  destruct Hin as [Hin|Hin]; [exact Hin|].
  inversion Hs as [|? ? _ Hall]; subst.
  rewrite List.Forall_forall in Hall. specialize (Hall _ Hin).
  day_lia.
Qed.

Lemma streak_no_study (now : Z) (values : list QuestionProgress) :
  (forall d, ~ studied_on (fixed_zone tzOffset) values d) -> calculateStreak (fixed_zone tzOffset) now values = 0.
Proof.
  intros H. unfold calculateStreak.
  destruct (studyDates (fixed_zone tzOffset) values) as [|x0 rest] eqn:E; [reflexivity|].
  assert (Hin : In x0 (studyDates (fixed_zone tzOffset) values)) by (rewrite E; now left).
  apply in_studyDates in Hin. destruct Hin as [d [Hd _]]. now contradiction (H d).
Qed.

Lemma streak_broken (now : Z) (values : list QuestionProgress) (m : Z) :
  most_recent (fixed_zone tzOffset) values m ->
  m <> day_of (fixed_zone tzOffset) now -> m <> day_of (fixed_zone tzOffset) now - 1 ->
  calculateStreak (fixed_zone tzOffset) now values = 0.
Proof.
  intros Hm H1 H2. unfold calculateStreak.
  destruct (studyDates (fixed_zone tzOffset) values) as [|x0 rest] eqn:E; [reflexivity|].
  rewrite (studyDates_head values m x0 rest Hm E), startOfDay_day. cbv zeta.
  destruct (Z.eqb_spec (oneDayMs * m - tzOffset)
                       (oneDayMs * day_of (fixed_zone tzOffset) now - tzOffset)) as [H|_];
    [day_lia|].
  destruct (Z.eqb_spec (oneDayMs * m - tzOffset)
                       (oneDayMs * day_of (fixed_zone tzOffset) now - tzOffset - oneDayMs)) as [H|_];
    [day_lia|reflexivity].
Qed.

Lemma streak_counts (now : Z) (values : list QuestionProgress) (m : Z) :
  most_recent (fixed_zone tzOffset) values m ->
  m = day_of (fixed_zone tzOffset) now \/ m = day_of (fixed_zone tzOffset) now - 1 ->
  let k := calculateStreak (fixed_zone tzOffset) now values in
  1 <= k
  /\ (forall i, 0 <= i < k -> studied_on (fixed_zone tzOffset) values (m - i))
  /\ ~ studied_on (fixed_zone tzOffset) values (m - k).
Proof.
  intros Hm Hnow. unfold calculateStreak.
  destruct (studyDates (fixed_zone tzOffset) values) as [|x0 rest] eqn:E.
  - exfalso. destruct Hm as [Hm _].
    assert (Hin : In (oneDayMs * m - tzOffset) (studyDates (fixed_zone tzOffset) values)).
    { apply in_studyDates. now exists m. }
    now rewrite E in Hin.
  - pose proof (studyDates_head values m x0 rest Hm E) as Hx0.
    pose proof (studyDates_strict values) as Hs. rewrite E in Hs.
    assert (Hday : forall x, In x (x0 :: rest) -> exists d, x = oneDayMs * d - tzOffset).
    { intros x Hx. rewrite <- E in Hx. apply in_studyDates in Hx.
      destruct Hx as [d [_ ->]]. now exists d. }
    destruct (consecutive_run rest x0 Hs Hday) as [Hk [Hin Hout]].
    cbv zeta in *. rewrite startOfDay_day.
    assert (Hcond : negb (x0 =? oneDayMs * day_of (fixed_zone tzOffset) now - tzOffset)
                    && negb (x0 =? oneDayMs * day_of (fixed_zone tzOffset) now - tzOffset - oneDayMs)
                    = false).
    { destruct (Z.eqb_spec x0 (oneDayMs * day_of (fixed_zone tzOffset) now - tzOffset));
        [reflexivity|].
      destruct (Z.eqb_spec x0 (oneDayMs * day_of (fixed_zone tzOffset) now - tzOffset - oneDayMs));
        [reflexivity|].
      exfalso. destruct Hnow; day_lia. }
    rewrite Hcond. split; [exact Hk|split].
    + intros i Hi. specialize (Hin i Hi). rewrite <- E in Hin.
      apply in_studyDates in Hin. destruct Hin as [d [Hd' Heq]].
      replace (m - i) with d by day_lia. exact Hd'.
    + intros Hst. apply Hout. rewrite <- E. apply in_studyDates.
      eexists. split; [exact Hst|]. day_lia.
Qed.

End Streak.

(** Study events today, yesterday evening and the morning before. *)
Lemma streak_three_days_example :
  calculateStreak (fixed_zone ist) a_morning
    [ studied_at (a_morning - 3600000);
      studied_at (a_morning - 15 * 3600000);
      studied_at (a_morning - 49 * 3600000);
      studied_at (a_morning - 47 * 3600000) ] = 3.
Proof. vm_compute. reflexivity. Qed.

(** The same history read two days later: the most recent date is older
    than yesterday. *)
Lemma streak_stale_example :
  calculateStreak (fixed_zone ist) (a_morning + 48 * 3600000)
    [ studied_at (a_morning - 3600000);
      studied_at (a_morning - 15 * 3600000);
      studied_at (a_morning - 49 * 3600000) ] = 0.
Proof. vm_compute. reflexivity. Qed.

(** In local time with a constant offset from UTC, the streak is 0
    when nothing was studied or when the most recent calendar day with a
    last-studied date is neither today nor yesterday; otherwise it is the
    number [k >= 1] of consecutive calendar days, counted backwards from
    that most recent day [m], that each have a last-studied date: the
    days [m], [m - 1], ..., [m - k + 1] have one and the day [m - k] has
    none.  In particular, last-studied dates on exactly today, yesterday
    and the day before give 3, and a most recent date older than
    yesterday gives 0. *)
Lemma streak_in_fixed_zone :
  forall (tzOffset now : Z) (values : list QuestionProgress),
    let streak := calculateStreak (fixed_zone tzOffset) now values in
    let today := day_of (fixed_zone tzOffset) now in
    ((forall d, ~ studied_on (fixed_zone tzOffset) values d) -> streak = 0)
    /\ (forall m,
           most_recent (fixed_zone tzOffset) values m ->
           (m <> today /\ m <> today - 1 -> streak = 0)
           /\ (m < today - 1 -> streak = 0)
           /\ (m = today \/ m = today - 1 ->
               1 <= streak
               /\ (forall i, 0 <= i < streak -> studied_on (fixed_zone tzOffset) values (m - i))
               /\ ~ studied_on (fixed_zone tzOffset) values (m - streak)))
    /\ ((forall d, studied_on (fixed_zone tzOffset) values d
                   <-> d = today \/ d = today - 1 \/ d = today - 2) ->
        streak = 3).
Proof.
  intros tzOffset now values streak today.
  split; [apply streak_no_study|split].
  - intros m Hm. split; [|split].
    + intros [H1 H2]. now apply (streak_broken tzOffset now values m).
    + intros H. apply (streak_broken tzOffset now values m Hm); unfold today in H; lia.
    + apply (streak_counts tzOffset now values m Hm).
  - intros Hdays.
    assert (Hm : most_recent (fixed_zone tzOffset) values today).
    { split; [apply Hdays; now left|]. intros d Hd. apply Hdays in Hd. lia. }
    destruct (streak_counts tzOffset now values today Hm (or_introl eq_refl))
      as [Hk [Hin Hout]].
    fold streak in Hk, Hin, Hout.
    assert (Hle : streak <= 3).
    { destruct (Z.le_gt_cases streak 3) as [H|H]; [exact H|].
      assert (H3 : studied_on (fixed_zone tzOffset) values (today - 3)) by (apply Hin; lia).
      apply Hdays in H3. lia. }
    assert (H1 : streak <> 1).
    { intros H. rewrite H in Hout. apply Hout, Hdays. right. now left. }
    assert (H2 : streak <> 2).
    { intros H. rewrite H in Hout. apply Hout, Hdays. right. now right. }
    lia.
Qed.

Lemma new_york_days :
  day_of new_york nov1_study = day_of new_york nov3_afternoon - 2
  /\ day_of new_york nov2_study = day_of new_york nov3_afternoon - 1
  /\ day_of new_york nov3_study = day_of new_york nov3_afternoon
  /\ day_of new_york nov1_study = day_of new_york nov2_afternoon - 1.
Proof. repeat split; vm_compute; reflexivity. Qed.

(** C7.  Where the clocks change, the streak is not the number of
    consecutive calendar days.  In New York the clocks go back on
    1 November 2026, so the local midnights of 1 and 2 November are 25
    hours apart, while the loop and the test for yesterday both step by
    24 hours.  With a last-studied date on each of 1, 2 and 3 November
    and today the 3rd (today, yesterday and the day before) the streak is
    2, not 3; with one on 1 November only and today the 2nd (the most
    recent study date is yesterday) it is 0, not 1.  With the offset
    held at UTC-05:00 the same histories give 3 and 1. *)
Theorem calculateStreak_breaks_at_clock_change :
  let three_days :=
    [studied_at nov1_study; studied_at nov2_study; studied_at nov3_study] in
  let today := day_of new_york nov3_afternoon in
  (forall d, studied_on new_york three_days d
             <-> d = today \/ d = today - 1 \/ d = today - 2)
  /\ calculateStreak new_york nov3_afternoon three_days = 2
  /\ most_recent new_york [studied_at nov1_study] (day_of new_york nov2_afternoon - 1)
  /\ calculateStreak new_york nov2_afternoon [studied_at nov1_study] = 0
  /\ calculateStreak (fixed_zone (- (5 * 3600000))) nov3_afternoon three_days = 3
  /\ calculateStreak (fixed_zone (- (5 * 3600000))) nov2_afternoon
                     [studied_at nov1_study] = 1.
Proof.
  intros three_days today.
  destruct new_york_days as [E1 [E2 [E3 E4]]]. fold today in E1, E2, E3.
  split; [|split; [|split; [|split; [|split]]]].
  - intros d. split.
    + intros [p [t [Hin [Ht Hd]]]]. subst d.
      destruct Hin as [<-|[<-|[<-|[]]]]; injection Ht as <-; tauto.
    + intros [->|[->| ->]].
      * exists (studied_at nov3_study), nov3_study. simpl. tauto.
      * exists (studied_at nov2_study), nov2_study. simpl. tauto.
      * exists (studied_at nov1_study), nov1_study. simpl. tauto.
  - vm_compute. reflexivity.
  - split.
    + exists (studied_at nov1_study), nov1_study. simpl. tauto.
    + intros d [p [t [[<-|[]] [Ht Hd]]]]. injection Ht as <-. lia.
  - vm_compute. reflexivity.
  - vm_compute. reflexivity.
  - vm_compute. reflexivity.
Qed.

End StreakProps.

(** * Further properties *)

(** ** Objects used as maps, and tallies kept in them *)

Module AssocFacts.
Import JS.

Lemma existsb_false_filter {X} (p : X -> bool) (xs : list X) :
  existsb p xs = false <-> List.filter p xs = [].
Proof.
  induction xs as [|x xs IH]; simpl; [tauto|].
  destruct (p x); simpl; [split; discriminate|exact IH].
Qed.

Section Assoc.
Context {K A : Type} (eqb : K -> K -> bool).
Hypothesis eqb_spec : forall x y, reflect (x = y) (eqb x y).

Lemma assoc_get_set_eq (ms : list (K * A)) k v :
  assoc_get eqb k (assoc_set eqb ms k v) = Some v.
Proof.
  induction ms as [|[k' v'] ms IH]; simpl.
  - destruct (eqb_spec k k); congruence.
  - destruct (eqb_spec k k') as [->|Hne]; simpl.
    + destruct (eqb_spec k' k'); congruence.
    + destruct (eqb_spec k k'); [congruence|exact IH].
Qed.

Lemma assoc_get_set_ne (ms : list (K * A)) k k' v :
  k <> k' -> assoc_get eqb k' (assoc_set eqb ms k v) = assoc_get eqb k' ms.
Proof.
  intros Hne. induction ms as [|[k0 v0] ms IH]; simpl.
  - destruct (eqb_spec k' k); congruence.
  - destruct (eqb_spec k k0) as [->|Hk]; simpl.
    + destruct (eqb_spec k' k0); congruence.
    + destruct (eqb_spec k' k0); [reflexivity|exact IH].
Qed.

Lemma assoc_get_In (ms : list (K * A)) k v :
  assoc_get eqb k ms = Some v -> In (k, v) ms.
Proof.
  induction ms as [|[k' v'] ms IH]; simpl; [discriminate|].
  destruct (eqb_spec k k') as [->|Hne].
  - intros [= ->]. now left.
  - intros H. right. now apply IH.
Qed.

Lemma assoc_get_None (ms : list (K * A)) k :
  assoc_get eqb k ms = None <-> ~ In k (List.map fst ms).
Proof.
  induction ms as [|[k' v'] ms IH]; simpl; [tauto|].
  destruct (eqb_spec k k') as [->|Hne].
  - split; [discriminate|]. intros H. exfalso. apply H. now left.
  - rewrite IH. split.
    + intros H [E|HI]; [congruence|tauto].
    + intros H HI. apply H. now right.
Qed.

Lemma assoc_get_Some_key (ms : list (K * A)) k v :
  assoc_get eqb k ms = Some v -> In k (List.map fst ms).
Proof.
  intros H. apply assoc_get_In in H. now apply (in_map fst) in H.
Qed.

Lemma assoc_get_unique (ms : list (K * A)) k v :
  List.NoDup (List.map fst ms) -> In (k, v) ms -> assoc_get eqb k ms = Some v.
Proof.
  induction ms as [|[k' v'] ms IH]; simpl; [tauto|].
  intros Hnd [E|HI].
  - injection E as -> ->. destruct (eqb_spec k k); congruence.
  - inversion Hnd as [|? ? Hnot Hnd']; subst.
    destruct (eqb_spec k k') as [->|Hne].
    + exfalso. apply Hnot. now apply (in_map fst) in HI.
    + now apply IH.
Qed.

Lemma assoc_set_keys (ms : list (K * A)) k v :
  List.map fst (assoc_set eqb ms k v)
  = match assoc_get eqb k ms with
    | Some _ => List.map fst ms
    | None => List.map fst ms ++ [k]
    end.
Proof.
  induction ms as [|[k' v'] ms IH]; simpl; [reflexivity|].
  destruct (eqb_spec k k') as [->|Hne]; simpl; [reflexivity|].
  rewrite IH. now destruct (assoc_get eqb k ms).
Qed.

Lemma assoc_set_NoDup (ms : list (K * A)) k v :
  List.NoDup (List.map fst ms) -> List.NoDup (List.map fst (assoc_set eqb ms k v)).
Proof.
  intros Hnd. rewrite assoc_set_keys.
  destruct (assoc_get eqb k ms) eqn:E; [exact Hnd|].
  apply assoc_get_None in E.
  apply NoDup_rev in Hnd. rewrite <- (rev_involutive (_ ++ _)).
  apply NoDup_rev. rewrite rev_app_distr. simpl.
  constructor; [|exact Hnd]. now rewrite <- in_rev.
Qed.

Lemma assoc_get_delete_eq (ms : list (K * A)) k :
  List.NoDup (List.map fst ms) -> assoc_get eqb k (assoc_delete eqb ms k) = None.
Proof.
  induction ms as [|[k' v'] ms IH]; simpl; [reflexivity|].
  intros Hnd. inversion Hnd as [|? ? Hnot Hnd']; subst.
  destruct (eqb_spec k k') as [->|Hne]; simpl.
  - now apply assoc_get_None.
  - destruct (eqb_spec k k'); [congruence|now apply IH].
Qed.

Lemma assoc_get_delete_ne (ms : list (K * A)) k k' :
  k <> k' -> assoc_get eqb k' (assoc_delete eqb ms k) = assoc_get eqb k' ms.
Proof.
  intros Hne. induction ms as [|[k0 v0] ms IH]; simpl; [reflexivity|].
  destruct (eqb_spec k k0) as [->|Hk]; simpl.
  - destruct (eqb_spec k' k0); congruence.
  - destruct (eqb_spec k' k0); [reflexivity|exact IH].
Qed.

Lemma assoc_delete_keys_incl (ms : list (K * A)) k x :
  In x (List.map fst (assoc_delete eqb ms k)) -> In x (List.map fst ms).
Proof.
  induction ms as [|[k0 v0] ms IH]; simpl; [tauto|].
  destruct (eqb_spec k k0) as [->|Hk]; simpl; [tauto|].
  intros [E|HI]; [now left|right; now apply IH].
Qed.

Lemma assoc_delete_NoDup (ms : list (K * A)) k :
  List.NoDup (List.map fst ms) -> List.NoDup (List.map fst (assoc_delete eqb ms k)).
Proof.
  induction ms as [|[k0 v0] ms IH]; simpl; [trivial|].
  intros Hnd. inversion Hnd as [|? ? Hnot Hnd']; subst.
  destruct (eqb_spec k k0) as [->|Hk]; simpl; [exact Hnd'|].
  constructor; [|now apply IH].
  intros HI. apply Hnot. now apply assoc_delete_keys_incl in HI.
Qed.

Section TallyFacts.
Context {X : Type} (key : X -> K) (upd : X -> A -> A) (zero : A).

Lemma tally_lookup (xs : list X) (acc : list (K * A)) k :
  assoc_get eqb k (fold_left (Tally.step eqb key upd zero) xs acc)
  = if existsb (fun x => eqb (key x) k) xs
    then Some (Tally.total eqb key upd k xs
                 (match assoc_get eqb k acc with Some c => c | None => zero end))
    else assoc_get eqb k acc.
Proof.
  revert acc. induction xs as [|x xs IH]; intros acc; simpl; [reflexivity|].
  rewrite IH. unfold Tally.total, Tally.filed, Tally.step. simpl.
  destruct (eqb_spec (key x) k) as [<-|Hne]; simpl.
  - rewrite assoc_get_set_eq. destruct (existsb _ xs) eqn:E; [reflexivity|].
    apply existsb_false_filter in E. now rewrite E.
  - now rewrite assoc_get_set_ne.
Qed.

Lemma tally_NoDup (xs : list X) (acc : list (K * A)) :
  List.NoDup (List.map fst acc)
  -> List.NoDup (List.map fst (fold_left (Tally.step eqb key upd zero) xs acc)).
Proof.
  revert acc. induction xs as [|x xs IH]; intros acc Hnd; simpl; [exact Hnd|].
  apply IH. now apply assoc_set_NoDup.
Qed.

End TallyFacts.

End Assoc.

(** A pair of counters: a weighted sum and the number of items. *)
Lemma fold_counters {X} (w : X -> Z) (xs : list X) (a n : Z) :
  fold_left (fun (v : Z * Z) x => (fst v + w x, snd v + 1)) xs (a, n)
  = (fold_left (fun s x => s + w x) xs a, n + Z.of_nat (length xs)).
Proof.
  revert a n. induction xs as [|x xs IH]; intros a n; simpl fold_left.
  - f_equal. simpl. lia.
  - rewrite IH. f_equal. simpl length. lia.
Qed.

Lemma fold_indicator {X} (p : X -> bool) (c : Z) (xs : list X) (a : Z) :
  fold_left (fun s x => s + (if p x then c else 0)) xs a
  = a + c * Tally.count p xs.
Proof.
  unfold Tally.count. revert a. induction xs as [|x xs IH]; intros a; simpl.
  - lia.
  - rewrite IH. destruct (p x); simpl length; lia.
Qed.

Lemma fold_left_concat {X Y} (f : Y -> X -> Y) (ls : list (list X)) (y : Y) :
  fold_left f (List.concat ls) y = fold_left (fun acc l => fold_left f l acc) ls y.
Proof.
  revert y. induction ls as [|l ls IH]; intros y; simpl; [reflexivity|].
  now rewrite fold_left_app, IH.
Qed.

Lemma fold_left_ext_eq {X Y} (f g : Y -> X -> Y) (xs : list X) (y : Y) :
  (forall a x, f a x = g a x) -> fold_left f xs y = fold_left g xs y.
Proof.
  intros H. revert y. induction xs as [|x xs IH]; intros y; simpl; [reflexivity|].
  now rewrite H, IH.
Qed.

End AssocFacts.

(** ** Question ratings *)

Module RatingsProps.
Import JS Ratings RatingsFacts AssocFacts.

(** X1. A rating is read back, on the spot and by a new instance of the
    hook for the same paper, and rating one question leaves the ratings of
    the others as they were. *)
Theorem setRating_getRating paperId questionId rating st :
  getRating questionId (setRating paperId questionId rating st) = rating
  /\ (forall other, other <> questionId ->
        getRating other (setRating paperId questionId rating st) = getRating other st)
  /\ ratings (load paperId (initial (storage (setRating paperId questionId rating st))))
     = ratings (setRating paperId questionId rating st).
Proof.
  unfold getRating, setRating, load, initial. cbn [ratings storage].
  repeat split.
  - now rewrite (assoc_get_set_eq _ String.eqb_spec).
  - intros other Hne.
    rewrite (assoc_get_set_ne _ String.eqb_spec); [reflexivity|congruence].
  - now rewrite lookup_insert_eq.
Qed.

(** X2. When the hook is moved to a paper that has no stored ratings, it
    keeps the ratings of the paper it showed before: they are still read
    for the new paper, and the next rating stores them under the new
    paper's key. *)
Theorem ratings_carried_to_unrated_paper paperId questionId rating st
        (Hnone : storage st !! paperId = None) :
  (forall other, getRating other (load paperId st) = getRating other st)
  /\ storage (setRating paperId questionId rating (load paperId st)) !! paperId
     = Some (assoc_set String.eqb (ratings st) questionId rating).
Proof.
  unfold load. rewrite Hnone. split; [reflexivity|].
  unfold setRating. cbn [ratings storage]. now rewrite lookup_insert_eq.
Qed.

Lemma ratings_carried_to_unrated_paper_witness :
  storage rated_a !! "b.json" = None
  /\ getRating "1_a" (load "b.json" rated_a) = 4
  /\ storage (setRating "b.json" "3_c" 9 (load "b.json" rated_a)) !! "b.json"
     = Some [("1_a", 4); ("2_b", 7); ("3_c", 9)].
Proof.
  assert (H : storage rated_a !! "b.json" = None) by reflexivity.
  split; [exact H|].
  destruct (ratings_carried_to_unrated_paper "b.json" "3_c" 9 rated_a H) as [H1 H2].
  split; [now rewrite H1|exact H2].
Defined.

End RatingsProps.

(** ** Quiz history: hiding, deleting, saving *)

Module QuizHistoryStoreProps.
Import JS QuizHistory QuizAnalytics QuizHistorySpec QuizHistoryFacts AssocFacts.

Lemma set_hidden_id h a : id (set_hidden h a) = id a.
Proof. reflexivity. Qed.

Lemma set_hidden_same a : set_hidden (isHidden a) a = a.
Proof. now destruct a. Qed.

Lemma filter_filter_same {X} (p : X -> bool) (l : list X) :
  List.filter p (List.filter p l) = List.filter p l.
Proof.
  induction l as [|x l IH]; simpl; [reflexivity|].
  destruct (p x) eqn:E; simpl; [rewrite E, IH|]; trivial.
Qed.

Lemma filter_all {X} (p : X -> bool) (l : list X) :
  (forall x, In x l -> p x = true) -> List.filter p l = l.
Proof.
  induction l as [|x l IH]; simpl; intros H; [reflexivity|].
  rewrite (H x) by now left. f_equal. apply IH. intros y Hy. apply H. now right.
Qed.

Lemma filter_same_length {X} (p : X -> bool) (l : list X) :
  length (List.filter p l) = length l -> List.filter p l = l.
Proof.
  induction l as [|x l IH]; simpl; [reflexivity|].
  destruct (p x); simpl; intros H.
  - f_equal. apply IH. lia.
  - pose proof (List.filter_length_le p l). lia.
Qed.

Lemma hide_then_show attemptId st :
  visibleAttempts (hideAttempt attemptId st)
  = List.filter (fun a => negb (String.eqb (id a) attemptId)) (visibleAttempts st)
  /\ List.map id (attempts (hideAttempt attemptId st)) = List.map id (attempts st)
  /\ showAttempt attemptId (hideAttempt attemptId st) = showAttempt attemptId st
  /\ ((forall a, In a (attempts st) -> id a = attemptId -> isHidden a = false)
      -> attempts (showAttempt attemptId (hideAttempt attemptId st)) = attempts st).
Proof.
  assert (Hshow : showAttempt attemptId (hideAttempt attemptId st)
                  = showAttempt attemptId st).
  { unfold showAttempt, hideAttempt, hide_or_show. cbn [attempts].
    rewrite List.map_map.
    assert (E : forall l : list QuizAttempt,
               List.map (fun x => if String.eqb
                                      (id (if String.eqb (id x) attemptId
                                           then set_hidden true x else x)) attemptId
                                  then set_hidden false
                                         (if String.eqb (id x) attemptId
                                          then set_hidden true x else x)
                                  else if String.eqb (id x) attemptId
                                       then set_hidden true x else x) l
               = List.map (fun x => if String.eqb (id x) attemptId
                                    then set_hidden false x else x) l).
    { intros l. apply List.map_ext. intros a.
      destruct (String.eqb (id a) attemptId) eqn:E; [|now rewrite E].
      rewrite set_hidden_id, E. reflexivity. }
    now rewrite E. }
  repeat split.
  - unfold visibleAttempts, hideAttempt, hide_or_show. cbn [attempts].
    induction (attempts st) as [|a l IH]; simpl; [reflexivity|].
    destruct (String.eqb (id a) attemptId) eqn:E; simpl.
    + destruct (isHidden a); simpl; rewrite ?E; simpl; exact IH.
    + destruct (isHidden a); simpl; rewrite ?E; simpl; now rewrite IH.
  - unfold hideAttempt, hide_or_show. cbn [attempts].
    rewrite List.map_map. apply List.map_ext. intros a.
    now destruct (String.eqb (id a) attemptId).
  - exact Hshow.
  - intros Hvis. rewrite Hshow. unfold showAttempt, hide_or_show. cbn [attempts].
    rewrite <- (List.map_id (attempts st)) at 2.
    apply List.map_ext_in. intros a Ha.
    destruct (String.eqb (id a) attemptId) eqn:E; [|reflexivity].
    apply String.eqb_eq in E. rewrite <- (Hvis a Ha E). apply set_hidden_same.
Qed.

Lemma delete_removes attemptId st :
  (forall a, In a (attempts (deleteAttempt attemptId st))
             <-> In a (attempts st) /\ id a <> attemptId)
  /\ deleteAttempt attemptId (deleteAttempt attemptId st) = deleteAttempt attemptId st
  /\ ((forall a, In a (attempts st) -> id a <> attemptId)
      -> attempts (deleteAttempt attemptId st) = attempts st).
Proof.
  unfold deleteAttempt. cbn [attempts]. split; [|split].
  - intros a. rewrite filter_In, negb_true_iff, String.eqb_neq. tauto.
  - now rewrite filter_filter_same.
  - intros H. apply filter_all. intros a Ha.
    apply negb_true_iff, String.eqb_neq. now apply H.
Qed.

(** X3. Hiding, showing and deleting go by the id.  Hiding removes
    exactly the attempts with that id from the visible ones and keeps the
    list of attempts otherwise; showing afterwards gives what showing at
    once gives, which is the list before when the attempt was visible.
    Deleting removes the attempts with that id and no other, once and for
    all, and an id that no attempt has leaves the list as it is. *)
Theorem hide_show_delete_by_id attemptId st :
  visibleAttempts (hideAttempt attemptId st)
  = List.filter (fun a => negb (String.eqb (id a) attemptId)) (visibleAttempts st)
  /\ List.map id (attempts (hideAttempt attemptId st)) = List.map id (attempts st)
  /\ showAttempt attemptId (hideAttempt attemptId st) = showAttempt attemptId st
  /\ ((forall a, In a (attempts st) -> id a = attemptId -> isHidden a = false)
      -> attempts (showAttempt attemptId (hideAttempt attemptId st)) = attempts st)
  /\ (forall a, In a (attempts (deleteAttempt attemptId st))
                <-> In a (attempts st) /\ id a <> attemptId)
  /\ deleteAttempt attemptId (deleteAttempt attemptId st) = deleteAttempt attemptId st
  /\ ((forall a, In a (attempts st) -> id a <> attemptId)
      -> attempts (deleteAttempt attemptId st) = attempts st).
Proof.
  destruct (hide_then_show attemptId st) as [H1 [H2 [H3 H4]]].
  destruct (delete_removes attemptId st) as [H5 [H6 H7]].
  repeat (split; [assumption|]). assumption.
Qed.

Lemma valid_only_twice l : valid_only (valid_only l) = valid_only l.
Proof. apply filter_filter_same. Qed.

(** X4. Storage follows the state: after a start, an end, a hide, a show
    or a delete, storage holds the valid attempts of the new state; a load
    from stored data and a cleanup keep it so; and a hook mounted on that
    storage shows these valid attempts and rewrites nothing. *)
Theorem storage_holds_valid_attempts paperId (questions : list unit) filters now
        suffix attemptId results st :
  synced (snd (startQuizAttempt paperId questions filters now suffix st))
  /\ synced (endQuizAttempt attemptId results now st)
  /\ synced (hideAttempt attemptId st)
  /\ synced (showAttempt attemptId st)
  /\ synced (deleteAttempt attemptId st)
  /\ (stored st <> None -> synced (load st))
  /\ (synced st -> synced (cleanupInvalidAttempts st))
  /\ (synced st ->
      load (initial (stored st))
      = {| attempts := valid_only (attempts st); stored := stored st |}).
Proof.
  unfold synced. repeat split.
  - unfold endQuizAttempt, saveAttempts. cbn [attempts stored].
    now rewrite valid_only_twice.
  - unfold load. destruct (stored st) as [parsed|] eqn:E; [intros _|congruence].
    cbn [attempts stored]. rewrite valid_only_twice.
    destruct (length (valid_only parsed) =? length parsed)%nat eqn:El; simpl.
    + apply Nat.eqb_eq in El. unfold valid_only in *.
      now rewrite (filter_same_length _ _ El).
    + reflexivity.
  - intros H. unfold cleanupInvalidAttempts.
    destruct (0 <? _)%nat; [|exact H].
    unfold saveAttempts. cbn [attempts stored]. now rewrite valid_only_twice.
  - intros H. unfold load, initial. cbn [attempts stored]. rewrite H.
    rewrite valid_only_twice, Nat.eqb_refl. reflexivity.
Qed.

(** X5. Ending an attempt touches the attempts with that id only: the
    others stay exactly when they are valid, the ones that stay with that
    id are finished ones, and an id that no attempt has only purges. *)
Theorem endQuizAttempt_other_attempts attemptId results now st :
  (forall a, id a <> attemptId ->
             (In a (attempts (endQuizAttempt attemptId results now st))
              <-> In a (attempts st) /\ isInvalidAttempt a = false))
  /\ (forall a, In a (attempts (endQuizAttempt attemptId results now st)) ->
                id a = attemptId ->
                exists a0, In a0 (attempts st) /\ id a0 = attemptId
                           /\ a = finish a0 results now)
  /\ ((forall a, In a (attempts st) -> id a <> attemptId)
      -> attempts (endQuizAttempt attemptId results now st)
         = valid_only (attempts st)).
Proof.
  unfold endQuizAttempt, valid_only. cbn [attempts]. split; [|split].
  - intros a Hne. split.
    + intros H. apply filter_In in H. destruct H as [H Hv].
      apply negb_true_iff in Hv. split; [|exact Hv].
      apply in_map_iff in H. destruct H as [a0 [E Ha0]].
      destruct (String.eqb (id a0) attemptId) eqn:Eid.
      * apply String.eqb_eq in Eid. subst a. now simpl in *.
      * now subst a0.
    + intros [Ha Hv]. apply filter_In. split; [|now rewrite Hv].
      apply in_map_iff. exists a. split; [|exact Ha].
      apply String.eqb_neq in Hne. now rewrite Hne.
  - intros a Ha Hid. apply filter_In in Ha. destruct Ha as [Ha _].
    apply in_map_iff in Ha. destruct Ha as [a0 [E Ha0]].
    destruct (String.eqb (id a0) attemptId) eqn:Eid.
    + apply String.eqb_eq in Eid. now exists a0.
    + apply String.eqb_neq in Eid. now subst a0.
  - intros H. f_equal. rewrite <- (List.map_id (attempts st)) at 2.
    apply List.map_ext_in. intros a Ha.
    specialize (H a Ha). apply String.eqb_neq in H. now rewrite H.
Qed.

End QuizHistoryStoreProps.

(** ** Quiz history: queries and statistics *)

Module QuizAnalyticsProps.
Import JS QuizHistory QuizAnalytics QuizHistoryFacts AssocFacts.

Lemma add_result_step acc q :
  add_result acc q
  = Tally.step String.eqb questionNo
      (fun q (v : Z * Z) => (fst v + (if isCorrect q then 100 else 0), snd v + 1))
      (0, 0) acc q.
Proof.
  unfold add_result, Tally.step.
  now destruct (assoc_get String.eqb (questionNo q) acc) as [[t n]|].
Qed.

Lemma topic_totals_fold st :
  topic_totals st
  = fold_left
      (Tally.step String.eqb questionNo
         (fun q (v : Z * Z) => (fst v + (if isCorrect q then 100 else 0), snd v + 1))
         (0, 0))
      (visible_results st) [].
Proof.
  unfold topic_totals, visible_results.
  generalize (@nil (string * (Z * Z))).
  induction (visibleAttempts st) as [|a l IH]; intros acc; simpl; [reflexivity|].
  rewrite fold_left_app, IH. f_equal.
  apply fold_left_ext_eq. exact add_result_step.
Qed.

Lemma assoc_get_performance (ms : TopicTotals) k :
  assoc_get String.eqb k
    (List.map (fun '(topic, (totalScore, n)) =>
                 (topic, (n, round_quotient totalScore n))) ms)
  = option_map (fun v => (snd v, round_quotient (fst v) (snd v)))
               (assoc_get String.eqb k ms).
Proof.
  induction ms as [|[k' [t n]] ms IH]; simpl; [reflexivity|].
  now destruct (String.eqb k k').
Qed.

(** X6. Topic performance counts question results per question number over
    the visible attempts: a number that was never asked has no entry, and
    the entry of one that was holds how often it was asked and the rounded
    quotient of 100 times its correct answers by that count. *)
Theorem getTopicPerformance_counts st topic :
  let asked := List.filter (on_topic topic) (visible_results st) in
  let n := Z.of_nat (length asked) in
  assoc_get String.eqb topic (getTopicPerformance st)
  = if n =? 0 then None
    else Some (n, round_quotient (100 * Tally.count isCorrect asked) n).
Proof.
  intros asked n. unfold getTopicPerformance.
  rewrite assoc_get_performance, topic_totals_fold.
  rewrite (tally_lookup _ String.eqb_spec).
  fold (on_topic topic).
  destruct (existsb (on_topic topic) (visible_results st)) eqn:E.
  - assert (Hn : n <> 0).
    { unfold n, asked. intros Hz.
      assert (Hnil : List.filter (on_topic topic) (visible_results st) = [])
        by (apply length_zero_iff_nil; lia).
      apply existsb_false_filter in Hnil. congruence. }
    apply Z.eqb_neq in Hn. rewrite Hn. cbn [assoc_get option_map].
    unfold Tally.total, Tally.filed. fold (on_topic topic). fold asked.
    rewrite fold_counters, fold_indicator. cbn [fst snd].
    now rewrite !Z.add_0_l.
  - apply existsb_false_filter in E. unfold n, asked. now rewrite E.
Qed.

Lemma fold_max_ge (l : list Z) x : x <= fold_left Z.max l x.
Proof.
  revert x. induction l as [|y l IH]; intros x; simpl; [lia|].
  specialize (IH (Z.max x y)). lia.
Qed.

Lemma fold_max_upper (l : list Z) x y : In y l -> y <= fold_left Z.max l x.
Proof.
  revert x. induction l as [|z l IH]; intros x; simpl; [tauto|].
  intros [->|H]; [|now apply IH].
  pose proof (fold_max_ge l (Z.max x y)). lia.
Qed.

Lemma fold_max_In (l : list Z) x : fold_left Z.max l x = x \/ In (fold_left Z.max l x) l.
Proof.
  revert x. induction l as [|y l IH]; intros x; simpl; [now left|].
  destruct (IH (Z.max x y)) as [E|H]; [|now right; right].
  rewrite E. destruct (Z.max_spec x y) as [[_ ->]|[_ ->]]; [right; now left|now left].
Qed.

(** X7. The best score is the score of a visible attempt, and no visible
    attempt scored higher. *)
Theorem bestScore_is_maximum st a (Hvisible : In a (visibleAttempts st)) :
  score a <= bestScore (stats st)
  /\ exists b, In b (visibleAttempts st) /\ score b = bestScore (stats st).
Proof.
  unfold stats. cbn [bestScore].
  apply (in_map score) in Hvisible.
  assert (Hmax : In (max_or_zero (List.map score (visibleAttempts st)))
                    (List.map score (visibleAttempts st))
                 /\ score a <= max_or_zero (List.map score (visibleAttempts st))).
  { destruct (List.map score (visibleAttempts st)) as [|x l]; [contradiction|].
    unfold max_or_zero. split.
    - destruct (fold_max_In l x) as [->|H]; [now left|now right].
    - destruct Hvisible as [<-|H]; [apply fold_max_ge|now apply fold_max_upper]. }
  destruct Hmax as [Hin Hle]. split; [exact Hle|].
  apply in_map_iff in Hin. destruct Hin as [b [Hb Hin]]. now exists b.
Qed.

Lemma bestScore_is_maximum_witness :
  let st := history [attempt "q1" 1000 60 5 40; attempt "q2" 2000 90 5 80;
                     attempt "q3" 3000 30 5 60] in
  In (attempt "q3" 3000 30 5 60) (visibleAttempts st)
  /\ bestScore (stats st) = 80
  /\ score (attempt "q3" 3000 30 5 60) <= bestScore (stats st).
Proof.
  intros st.
  assert (H : In (attempt "q3" 3000 30 5 60) (visibleAttempts st))
    by (right; right; left; reflexivity).
  split; [exact H|]. split; [reflexivity|].
  exact (proj1 (bestScore_is_maximum st _ H)).
Defined.

Lemma of_Z_0 : of_Z 0 = S754_zero false.
Proof. reflexivity. Qed.

Lemma round_quotient_by_zero a : round_quotient a 0 = None.
Proof.
  unfold round_quotient. rewrite of_Z_0. unfold div, SFdiv.
  now destruct (of_Z a).
Qed.

Lemma sum_of_zero (f : QuizAttempt -> Z) l :
  Forall (fun a => f a = 0) l -> sum_of f l = 0.
Proof.
  intros H. unfold sum_of.
  assert (G : forall z, fold_left (fun sum a => sum + f a) l z = z).
  { induction H as [|a l Ha _ IH]; intros z; simpl; [reflexivity|].
    rewrite Ha, Z.add_0_r. apply IH. }
  apply G.
Qed.

(** X8. When the visible attempts have no questions between them (quizzes
    started on an empty selection), the average time per question is not
    a number: the division by zero is not guarded. *)
Theorem averageTimePerQuestion_not_a_number st
        (Hsome : (0 < length (visibleAttempts st))%nat)
        (Hempty : Forall (fun a => totalQuestions a = 0) (visibleAttempts st)) :
  averageTimePerQuestion (stats st) = None.
Proof.
  unfold stats. cbn [averageTimePerQuestion].
  apply Nat.ltb_lt in Hsome. rewrite Hsome.
  rewrite (sum_of_zero totalQuestions _ Hempty). apply round_quotient_by_zero.
Qed.

Lemma averageTimePerQuestion_not_a_number_witness :
  averageTimePerQuestion (stats (history [attempt "q1" 1000 60 0 0])) = None.
Proof.
  apply averageTimePerQuestion_not_a_number.
  - simpl. lia.
  - repeat constructor.
Defined.

Lemma insert_by_start_length a l :
  length (insert_by_start a l) = S (length l).
Proof.
  induction l as [|b l IH]; simpl; [reflexivity|].
  destruct (startTime a <=? startTime b); simpl; [reflexivity|now rewrite IH].
Qed.

Lemma sort_by_start_length l : length (sort_by_start l) = length l.
Proof.
  induction l as [|a l IH]; simpl; [reflexivity|].
  now rewrite insert_by_start_length, IH.
Qed.

Lemma trend_from_zero (second y : num) :
  let first := div (S754_zero false) y in
  Math_round (mul (div (sub second first) first) (of_Z 100)) = None.
Proof.
  assert (H100 : of_Z 100 = S754_finite false 7036874417766400 (-46)) by reflexivity.
  intros first. rewrite H100.
  assert (Hfirst : first = S754_nan \/ exists s, first = S754_zero s).
  { unfold first, div, SFdiv. destruct y; eauto. }
  destruct Hfirst as [->|[s ->]].
  - unfold div, SFdiv. now destruct (sub second S754_nan).
  - unfold div, SFdiv, mul, SFmul.
    now destruct (sub second (S754_zero s)).
Qed.

(** X9. With four or more visible attempts of which the chronologically
    earlier half all scored 0, the improvement trend is not a number: it
    divides by the average of that half. *)
Theorem improvementTrend_not_a_number st
        (Hfour : (4 <= length (visibleAttempts st))%nat)
        (Hzero : Forall (fun a => score a = 0) (earlier_half (visibleAttempts st))) :
  improvementTrend (stats st) = None.
Proof.
  unfold stats. cbn [improvementTrend]. unfold improvement_trend.
  apply Nat.leb_le in Hfour. rewrite Hfour.
  rewrite sort_by_start_length. fold (earlier_half (visibleAttempts st)).
  unfold average_score at 2 3.
  rewrite (sum_of_zero score _ Hzero), of_Z_0.
  apply trend_from_zero.
Qed.

Lemma improvementTrend_not_a_number_witness :
  improvementTrend
    (stats (history [attempt "q3" 3000 60 5 80; attempt "q1" 1000 60 5 0;
                     attempt "q4" 4000 60 5 60; attempt "q2" 2000 60 5 0]))
  = None.
Proof.
  apply improvementTrend_not_a_number.
  - simpl. lia.
  - repeat constructor.
Defined.

End QuizAnalyticsProps.

(** ** Notes: reading back what was written *)

Module NotesStoreProps.
Import JS Notes NotesSpec NotesFacts ProgressSpec AssocFacts NotesProps ProgressKeys.

Lemma createNoteId_includes questionId paperId :
  includes "::" (createNoteId questionId paperId) = true.
Proof.
  unfold createNoteId. induction paperId as [|c p IH]; [reflexivity|].
  change (includes "::" (String c (p +:+ "::" +:+ questionId)) = true).
  cbn [includes]. rewrite IH. apply orb_true_r.
Qed.

Lemma createNoteId_inj q p q' p' :
  no_colon p = true -> no_colon p' = true ->
  createNoteId q p = createNoteId q' p' -> q = q' /\ p = p'.
Proof.
  intros Hp Hp' E. unfold createNoteId in E.
  destruct (global_key_split _ _ _ _ Hp Hp' E). now split.
Qed.

(** X10. A note is read back after it is set and is empty after it is
    cleared, and setting or clearing the note of one question leaves the
    note of every other question of every paper as it was, for paper ids
    without a colon. *)
Theorem notes_are_kept_apart questionId paperId text st :
  getNote questionId paperId (setNote questionId text paperId st) = text
  /\ (List.NoDup (keys (notes st)) ->
      getNote questionId paperId (clearNote questionId paperId st) = EmptyString)
  /\ (forall questionId' paperId',
        no_colon paperId = true -> no_colon paperId' = true ->
        questionId' <> questionId \/ paperId' <> paperId ->
        getNote questionId' paperId' (setNote questionId text paperId st)
        = getNote questionId' paperId' st
        /\ getNote questionId' paperId' (clearNote questionId paperId st)
           = getNote questionId' paperId' st).
Proof.
  unfold getNote, setNote, clearNote, saveNotes, notes_get, notes_set, notes_delete.
  cbn [notes]. split; [|split].
  - now rewrite (assoc_get_set_eq _ String.eqb_spec).
  - intros Hnd. now rewrite (assoc_get_delete_eq _ String.eqb_spec).
  - intros questionId' paperId' Hp Hp' Hother.
    assert (Hne : createNoteId questionId paperId <> createNoteId questionId' paperId').
    { intros E. destruct (createNoteId_inj _ _ _ _ Hp Hp' E) as [-> ->]. tauto. }
    split.
    + now rewrite (assoc_get_set_ne _ String.eqb_spec).
    + now rewrite (assoc_get_delete_ne _ String.eqb_spec).
Qed.

Lemma notes_delete_namespaced m k : namespaced m -> namespaced (notes_delete m k).
Proof.
  unfold namespaced, keys, notes_delete. rewrite !List.Forall_forall.
  intros H x Hx. apply H.
  now apply (assoc_delete_keys_incl _ String.eqb_spec) in Hx.
Qed.

Lemma reload_wf m :
  namespaced m -> List.NoDup (keys m) ->
  load (initial (Some (as_stored m))) = saveNotes m.
Proof.
  intros Hns Hnd. unfold load, initial, saveNotes. cbn [stored].
  assert (E : migrate (as_stored m) = m).
  { unfold migrate. now rewrite (migrate_replay m []). }
  rewrite E. now rewrite (namespaced_no_legacy _ Hns).
Qed.

(** X11. The states of the hook have namespaced keys without repetition,
    and from such a state what [setNote] or [clearNote] stores is read
    back unchanged by a hook that mounts on it. *)
Theorem notes_survive_reload questionId paperId text st (Hwf : wf st) :
  wf (load st)
  /\ wf (setNote questionId text paperId st)
  /\ wf (clearNote questionId paperId st)
  /\ load (initial (stored (setNote questionId text paperId st)))
     = setNote questionId text paperId st
  /\ load (initial (stored (clearNote questionId paperId st)))
     = clearNote questionId paperId st.
Proof.
  destruct Hwf as [Hns Hnd].
  assert (Hset : wf (setNote questionId text paperId st)).
  { split; cbn [setNote saveNotes notes].
    - apply notes_set_namespaced; [exact Hns|apply createNoteId_includes].
    - now apply notes_set_NoDup. }
  assert (Hclear : wf (clearNote questionId paperId st)).
  { split; cbn [clearNote saveNotes notes].
    - now apply notes_delete_namespaced.
    - now apply (assoc_delete_NoDup _ String.eqb_spec). }
  repeat split.
  - unfold load. destruct (stored st); [apply migrate_namespaced|exact Hns].
  - unfold load. destruct (stored st); [apply migrate_namespaced|exact Hnd].
  - apply Hset.
  - apply Hset.
  - apply Hclear.
  - apply Hclear.
  - destruct Hset as [H1 H2]. exact (reload_wf _ H1 H2).
  - destruct Hclear as [H1 H2]. exact (reload_wf _ H1 H2).
Qed.

Lemma notes_survive_reload_witness :
  wf two_notes
  /\ load (initial (stored (setNote "3_c" "hard" "a.json" two_notes)))
     = setNote "3_c" "hard" "a.json" two_notes.
Proof.
  assert (H : wf two_notes).
  { split.
    - repeat constructor.
    - repeat constructor; simpl; intuition discriminate. }
  split; [exact H|].
  exact (proj1 (proj2 (proj2 (proj2 (notes_survive_reload "3_c" "a.json" "hard" two_notes H))))).
Defined.

Lemma migrate_fold_keeps (l : list (string * stored_value)) (acc : NotesMap) k :
  ~ In k (read_keys l) ->
  notes_get k
    (fold_left
       (fun migratedNotes '(key, value) =>
          match value with
          | VString text => notes_set migratedNotes (migrated_key key) text
          | VOther => migratedNotes
          end) l acc)
  = notes_get k acc.
Proof.
  revert acc. induction l as [|[key value] l IH]; intros acc Hk; [reflexivity|].
  simpl in Hk. cbn [fold_left]. rewrite IH by tauto.
  destruct value as [text|]; [|reflexivity].
  unfold notes_get, notes_set.
  apply (assoc_get_set_ne _ String.eqb_spec). tauto.
Qed.

(** X12. Every text stored under a key that no other stored key is read
    as can be read after the load: a key without [::] under the paper
    ['default'], a key [paper::question] under its own ids. *)
Theorem stored_notes_are_read l key text
        (Hnd : List.NoDup (read_keys l))
        (Hin : In (key, VString text) l) :
  notes_get (migrated_key key) (notes (load (initial (Some l)))) = Some text
  /\ (includes "::" key = false ->
      getNote key "default" (load (initial (Some l))) = text).
Proof.
  assert (H : notes_get (migrated_key key) (migrate l) = Some text).
  { unfold migrate. generalize (@nil (string * string)).
    induction l as [|[key' value] l IH]; intros acc; [contradiction|].
    cbn [read_keys List.map fst] in Hnd. inversion Hnd as [|? ? Hnot Hnd']; subst.
    cbn [fold_left]. destruct Hin as [E|Hin].
    - injection E as -> ->. rewrite migrate_fold_keeps by exact Hnot.
      unfold notes_get, notes_set. apply (assoc_get_set_eq _ String.eqb_spec).
    - now apply IH. }
  unfold load, initial. cbn [stored notes]. split; [exact H|].
  intros Hlegacy. unfold getNote. cbn [notes].
  unfold migrated_key in H. rewrite Hlegacy in H.
  unfold createNoteId.
  change ("default" +:+ "::" +:+ key) with ("default::" +:+ key).
  now rewrite H.
Qed.

Lemma stored_notes_are_read_witness :
  getNote "Q1_a" "default"
          (load (initial (Some [("Q1_a", VString "foo"); ("flag", VOther);
                                ("a.json::2_b", VString "bar")])))
  = "foo".
Proof.
  refine (proj2 (stored_notes_are_read _ "Q1_a" "foo" _ _) eq_refl).
  - repeat constructor; simpl; intuition discriminate.
  - left. reflexivity.
Defined.

End NotesStoreProps.

(** ** Revision flags: what a toggle changes *)

Module RevisionStoreProps.
Import JS Revision RevisionSpec RevisionProps.

Lemma set_add_In s x y : In y (set_add s x) <-> In y s \/ y = x.
Proof.
  unfold set_add. destruct (set_has s x) eqn:E.
  - apply set_has_In in E. split; [tauto|]. intros [H| ->]; trivial.
  - rewrite in_app_iff. simpl. intuition congruence.
Qed.

Lemma set_add_NoDup s x : List.NoDup s -> List.NoDup (set_add s x).
Proof.
  intros Hnd. unfold set_add. destruct (set_has s x) eqn:E; [exact Hnd|].
  apply set_has_false in E.
  apply NoDup_rev in Hnd. rewrite <- (rev_involutive (_ ++ _)).
  apply NoDup_rev. rewrite rev_app_distr. simpl.
  constructor; [|exact Hnd]. now rewrite <- in_rev.
Qed.

Lemma set_has_eq s s' x :
  (In x s <-> In x s') -> set_has s x = set_has s' x.
Proof.
  intros H. destruct (set_has s' x) eqn:E.
  - apply set_has_In. apply H. now apply set_has_In.
  - apply set_has_false. intros Hin. apply set_has_false in E. tauto.
Qed.

Lemma set_delete_length s x :
  List.NoDup s -> In x s -> S (length (set_delete s x)) = length s.
Proof.
  induction s as [|y s IH]; simpl; intros Hnd Hin; [contradiction|].
  inversion Hnd as [|? ? Hnot Hnd']; subst.
  destruct (String.eqb_spec x y) as [->|Hne]; simpl.
  - now rewrite set_delete_absent.
  - f_equal. apply IH; [exact Hnd'|]. destruct Hin; congruence.
Qed.

Lemma toggleRevision_wf questionId st : wf st -> wf (toggleRevision questionId st).
Proof.
  unfold wf, toggleRevision. cbn [revisionQuestions]. intros Hnd.
  destruct (set_has (revisionQuestions st) questionId);
    [now apply set_delete_NoDup|now apply set_add_NoDup].
Qed.

(** X13. A toggle flips the flag of its question and of no other, keeps
    the set free of repetitions and moves the count by one. *)
Theorem toggleRevision_flips_one questionId st :
  isMarkedForRevision questionId (toggleRevision questionId st)
  = negb (isMarkedForRevision questionId st)
  /\ (forall other, other <> questionId ->
        isMarkedForRevision other (toggleRevision questionId st)
        = isMarkedForRevision other st)
  /\ (wf st ->
      wf (toggleRevision questionId st)
      /\ getRevisionCount (toggleRevision questionId st)
         = getRevisionCount st
           + (if isMarkedForRevision questionId st then -1 else 1)).
Proof.
  unfold isMarkedForRevision, toggleRevision, getRevisionCount, wf.
  cbn [revisionQuestions].
  destruct (set_has (revisionQuestions st) questionId) eqn:E; cbn [negb].
  - split; [|split].
    + apply set_has_false. rewrite set_delete_In. tauto.
    + intros other Hne. apply set_has_eq. rewrite set_delete_In. tauto.
    + intros Hnd. split; [now apply set_delete_NoDup|].
      apply set_has_In in E.
      pose proof (set_delete_length _ _ Hnd E). lia.
  - split; [|split].
    + apply set_has_In. rewrite set_add_In. tauto.
    + intros other Hne. apply set_has_eq. rewrite set_add_In. tauto.
    + intros Hnd. split; [now apply set_add_NoDup|].
      rewrite set_add_absent by exact E. rewrite List.length_app. simpl. lia.
Qed.

Lemma set_of_array_from a acc :
  List.NoDup acc ->
  List.NoDup (fold_left set_add a acc)
  /\ (forall x, In x (fold_left set_add a acc) <-> In x acc \/ In x a).
Proof.
  revert acc. induction a as [|y a IH]; intros acc Hnd; simpl.
  - split; [exact Hnd|tauto].
  - destruct (IH (set_add acc y) (set_add_NoDup _ _ Hnd)) as [H1 H2].
    split; [exact H1|]. intros x. rewrite H2, set_add_In. intuition congruence.
Qed.

Lemma set_of_array_NoDup a acc :
  List.NoDup (acc ++ a) -> fold_left set_add a acc = acc ++ a.
Proof.
  revert acc. induction a as [|y a IH]; intros acc Hnd; simpl.
  - now rewrite app_nil_r.
  - assert (Hy : ~ In y acc).
    { intros Hin. apply NoDup_remove_2 in Hnd. apply Hnd.
      apply in_or_app. now left. }
    rewrite set_add_absent by now apply set_has_false.
    rewrite IH; rewrite <- app_assoc; [reflexivity|exact Hnd].
Qed.

(** X14. Loading turns the stored array into a set: the same members,
    none twice, and an array without repetitions as it is; so the array a
    toggle stores is read back, by a hook that mounts on it, as the set
    the toggle left. *)
Theorem revision_array_read_back a questionId st :
  List.NoDup (set_of_array a)
  /\ (forall x, In x (set_of_array a) <-> In x a)
  /\ (List.NoDup a -> set_of_array a = a)
  /\ (wf st ->
      load {| revisionQuestions := [];
              stored := stored (toggleRevision questionId st) |}
      = toggleRevision questionId st).
Proof.
  destruct (set_of_array_from a [] (List.NoDup_nil _)) as [H1 H2].
  split; [exact H1|]. split; [intros x; rewrite (H2 x); simpl; tauto|].
  split; [intros Hnd; exact (set_of_array_NoDup a [] Hnd)|].
  intros Hwf.
  pose proof (toggleRevision_wf questionId st Hwf) as Hwf'. unfold wf in Hwf'.
  unfold load, toggleRevision in *. cbn [stored revisionQuestions] in *.
  f_equal. exact (set_of_array_NoDup _ [] Hwf').
Qed.

End RevisionStoreProps.

(** ** Progress tracker: sessions and marks *)

Module ProgressSessionProps.
Import JS Progress ProgressFacts.

Lemma sessions_time_app l s :
  sessions_time (l ++ [s]) = sessions_time l + duration s.
Proof.
  unfold sessions_time. induction l as [|x l IH]; simpl; [lia|]. rewrite IH. lia.
Qed.

Lemma open_at_range st k : 0 <= open_at st k <= 1.
Proof.
  unfold open_at. destruct (activeSession st) as [a|]; [|lia].
  destruct (String.eqb _ _); lia.
Qed.

Lemma open_at_unrecorded st k :
  session_recorded st -> questionProgress st !! k = None -> open_at st k = 0.
Proof.
  intros Hrec Hnone. unfold open_at.
  destruct (activeSession st) as [a|] eqn:Ea; [|reflexivity].
  destruct (String.eqb_spec (session_key a) k) as [E|]; [|reflexivity].
  destruct (Hrec a Ea) as [p Hp]. congruence.
Qed.

(** The record that an operation on key [k] starts from. *)
Lemma current_accounted st k questionId paperId :
  accounted st -> session_recorded st ->
  let current := or_else (questionProgress st !! k) (fresh questionId paperId) in
  timeSpent current = sessions_time (studySessions current)
  /\ Z.of_nat (length (studySessions current)) + open_at st k <= reviewCount current.
Proof.
  intros Hacc Hrec. destruct (questionProgress st !! k) as [p|] eqn:E; simpl.
  - now apply Hacc.
  - rewrite (open_at_unrecorded st k Hrec E). simpl. split; [reflexivity|lia].
Qed.

Lemma updateQuestionProgress_accounted paperId questionId updates st :
  upd_timeSpent updates = None -> upd_reviewCount updates = None ->
  upd_studySessions updates = None ->
  accounted st /\ session_recorded st ->
  accounted (updateQuestionProgress paperId questionId updates st)
  /\ session_recorded (updateQuestionProgress paperId questionId updates st).
Proof.
  intros Ht Hr Hs [Hacc Hrec]. unfold updateQuestionProgress, put. split.
  - intros k p. cbn [questionProgress]. rewrite lookup_insert_Some.
    intros [[<- <-]|[Hne Hp]].
    + pose proof (current_accounted st (createGlobalKey paperId questionId None)
                    questionId paperId Hacc Hrec) as H.
      cbv zeta in H.
      set (current := or_else (questionProgress st !! _) _) in *.
      unfold merge. cbn [timeSpent studySessions reviewCount].
      rewrite Ht, Hr, Hs. cbn [or_else]. exact H.
    + exact (Hacc k p Hp).
  - intros a Ha. cbn [activeSession questionProgress] in *.
    destruct (Hrec a Ha) as [p Hp].
    destruct (decide (createGlobalKey paperId questionId None = session_key a)) as [E|Hne].
    + rewrite E, lookup_insert_eq. eauto.
    + rewrite lookup_insert_ne by exact Hne. eauto.
Qed.

Lemma startStudySession_accounted paperId questionId sessionType now st :
  accounted st /\ session_recorded st ->
  accounted (startStudySession paperId questionId sessionType now st)
  /\ session_recorded (startStudySession paperId questionId sessionType now st).
Proof.
  intros [Hacc Hrec]. unfold startStudySession, put. split.
  - intros k p. cbn [questionProgress]. rewrite lookup_insert_Some.
    unfold open_at. cbn [activeSession]. unfold session_key.
    cbn [session_paperId session_questionId].
    intros [[<- <-]|[Hne Hp]].
    + rewrite String.eqb_refl.
      pose proof (current_accounted st (createGlobalKey paperId questionId None)
                    questionId paperId Hacc Hrec) as [H1 H2].
      pose proof (open_at_range st (createGlobalKey paperId questionId None)).
      cbv zeta in H1, H2.
      set (current := or_else (questionProgress st !! _) _) in *.
      unfold merge.
      cbn [timeSpent studySessions reviewCount or_else
           upd_timeSpent upd_studySessions upd_reviewCount].
      split; [exact H1|lia].
    + apply String.eqb_neq in Hne. rewrite Hne.
      destruct (Hacc k p Hp) as [H1 H2].
      pose proof (open_at_range st k). split; [exact H1|lia].
  - intros a Ha. cbn [activeSession questionProgress] in *.
    injection Ha as <-. unfold session_key. cbn [session_paperId session_questionId].
    rewrite lookup_insert_eq. eauto.
Qed.

Lemma endStudySession_accounted paperId questionId now st :
  accounted st /\ session_recorded st ->
  accounted (endStudySession paperId questionId now st)
  /\ session_recorded (endStudySession paperId questionId now st).
Proof.
  intros [Hacc Hrec]. unfold endStudySession.
  destruct (activeSession st) as [a|] eqn:Ea; [|now split].
  destruct (String.eqb (session_questionId a) questionId
            && String.eqb (session_paperId a) paperId) eqn:Ematch; [|now split].
  apply andb_true_iff in Ematch. destruct Ematch as [Eq Ep].
  apply String.eqb_eq in Eq. apply String.eqb_eq in Ep.
  assert (Hkey : session_key a = createGlobalKey paperId questionId None)
    by (unfold session_key; now rewrite Eq, Ep).
  destruct (Hrec a Ea) as [cur Hcur]. rewrite Hkey in Hcur.
  destruct (Hacc _ _ Hcur) as [H1 H2].
  assert (Hopen : open_at st (createGlobalKey paperId questionId None) = 1).
  { unfold open_at. rewrite Ea, Hkey. now rewrite String.eqb_refl. }
  unfold put. split.
  - intros k p. cbn [questionProgress]. rewrite lookup_insert_Some.
    unfold open_at at 1. cbn [activeSession].
    intros [[<- <-]|[Hne Hp]].
    + rewrite Hcur. unfold merge.
      cbn [timeSpent studySessions reviewCount or_else
           upd_timeSpent upd_studySessions upd_reviewCount].
      rewrite sessions_time_app, List.length_app. cbn [duration length].
      split; lia.
    + destruct (Hacc k p Hp) as [H3 H4]. pose proof (open_at_range st k).
      split; [exact H3|lia].
  - intros a' Ha'. discriminate.
Qed.

Lemma api_reachable_accounted st :
  api_reachable st -> accounted st /\ session_recorded st.
Proof.
  induction 1 as [|st st' _ IH Hstep].
  - split; [intros k p H|intros a H]; [|discriminate].
    cbn [initial questionProgress] in H. now rewrite lookup_empty in H.
  - destruct Hstep.
    + now apply startStudySession_accounted.
    + now apply endStudySession_accounted.
    + now apply updateQuestionProgress_accounted.
    + now apply updateQuestionProgress_accounted.
    + now apply updateQuestionProgress_accounted.
Qed.

(** X15. From empty storage on, whatever components do with the hook,
    the time spent on a question is the sum of the durations of its
    recorded study sessions, and the question was opened at least as
    often as it has sessions. *)
Theorem timeSpent_is_sessions_time st (Hreach : api_reachable st) :
  forall k p, questionProgress st !! k = Some p ->
    timeSpent p = sessions_time (studySessions p)
    /\ Z.of_nat (length (studySessions p)) <= reviewCount p.
Proof.
  intros k p Hp. destruct (api_reachable_accounted st Hreach) as [Hacc _].
  destruct (Hacc k p Hp) as [H1 H2]. pose proof (open_at_range st k).
  split; [exact H1|lia].
Qed.

Lemma timeSpent_is_sessions_time_witness :
  let st := endStudySession "a.json" "1_a" 1090000
              (startStudySession "a.json" "1_a" study 1000000 initial) in
  timeSpent (getQuestionProgress "a.json" "1_a" st) = 90
  /\ forall k p, questionProgress st !! k = Some p ->
       timeSpent p = sessions_time (studySessions p)
       /\ Z.of_nat (length (studySessions p)) <= reviewCount p.
Proof.
  intros st. split; [vm_compute; reflexivity|].
  apply timeSpent_is_sessions_time.
  eapply api_next; [eapply api_next; [apply api_initial|apply api_start]|apply api_end].
Defined.

Lemma append_inj_r (p s s' : string) : p +:+ s = p +:+ s' -> s = s'.
Proof.
  induction p as [|c p IH]; simpl; [trivial|]. intros [= H]. now apply IH.
Qed.

Lemma createGlobalKey_inj paperId questionId questionId' :
  createGlobalKey paperId questionId None = createGlobalKey paperId questionId' None ->
  questionId = questionId'.
Proof.
  unfold createGlobalKey. intros H.
  apply append_inj_r in H. now apply (append_inj_r "::") in H.
Qed.

Lemma getQuestionProgress_put_other paperId questionId questionId' updated st st' :
  questionId' <> questionId ->
  questionProgress st'
  = <[createGlobalKey paperId questionId None := updated]> (questionProgress st) ->
  getQuestionProgress paperId questionId' st' = getQuestionProgress paperId questionId' st.
Proof.
  intros Hne E. unfold getQuestionProgress. rewrite E, lookup_insert_ne; [reflexivity|].
  intros H. apply createGlobalKey_inj in H. congruence.
Qed.

(** X16. Opening a session on another question replaces the open one:
    the first question can then no longer be closed, and no session is
    ever recorded for the time it was open. *)
Theorem startStudySession_drops_open_session paperId questionId questionId'
        sessionType sessionType' t1 t2 t3 st
        (Hother : questionId' <> questionId) :
  let st1 := startStudySession paperId questionId sessionType t1 st in
  let st2 := startStudySession paperId questionId' sessionType' t2 st1 in
  endStudySession paperId questionId t3 st2 = st2
  /\ studySessions (getQuestionProgress paperId questionId st2)
     = studySessions (getQuestionProgress paperId questionId st)
  /\ timeSpent (getQuestionProgress paperId questionId st2)
     = timeSpent (getQuestionProgress paperId questionId st).
Proof.
  intros st1 st2.
  assert (Hend : endStudySession paperId questionId t3 st2 = st2).
  { unfold endStudySession, st2, startStudySession at 1. cbn [activeSession].
    cbn [session_questionId]. apply String.eqb_neq in Hother. now rewrite Hother. }
  assert (H2 : getQuestionProgress paperId questionId st2
               = getQuestionProgress paperId questionId st1).
  { eapply (getQuestionProgress_put_other paperId questionId' questionId);
      [congruence|reflexivity]. }
  rewrite Hend, H2. split; [reflexivity|].
  unfold getQuestionProgress, st1, startStudySession, put. cbn [questionProgress].
  rewrite lookup_insert_eq. unfold merge. cbn [studySessions timeSpent or_else].
  unfold getQuestionProgress.
  now destruct (questionProgress st !! createGlobalKey paperId questionId None).
Qed.

Lemma startStudySession_drops_open_session_witness :
  let st2 := startStudySession "a.json" "2_b" study 1060000
               (startStudySession "a.json" "1_a" study 1000000 initial) in
  endStudySession "a.json" "1_a" 1090000 st2 = st2
  /\ timeSpent (getQuestionProgress "a.json" "1_a" st2) = 0.
Proof.
  intros st2.
  destruct (startStudySession_drops_open_session "a.json" "1_a" "2_b" study study
              1000000 1060000 1090000 initial ltac:(discriminate)) as [H1 [_ H3]].
  split; [exact H1|]. unfold st2. rewrite H3. reflexivity.
Defined.

(** X17. Marking a question completed or incomplete, or rating it, is
    read back for that question, with its time and sessions untouched, and
    leaves the progress of every other question of the paper as it
    was. *)
Theorem marking_changes_one_question paperId questionId now confidence st :
  (let p := getQuestionProgress paperId questionId (markCompleted paperId questionId now st) in
   completed p = true /\ completedAt p = Some now)
  /\ (let p := getQuestionProgress paperId questionId (markIncomplete paperId questionId st) in
      completed p = false /\ completedAt p = None)
  /\ confidenceLevel
       (getQuestionProgress paperId questionId
          (updateConfidence paperId questionId confidence st)) = confidence
  /\ (forall st', st' = markCompleted paperId questionId now st
                  \/ st' = markIncomplete paperId questionId st
                  \/ st' = updateConfidence paperId questionId confidence st ->
        timeSpent (getQuestionProgress paperId questionId st')
        = timeSpent (getQuestionProgress paperId questionId st)
        /\ studySessions (getQuestionProgress paperId questionId st')
           = studySessions (getQuestionProgress paperId questionId st)
        /\ forall other, other <> questionId ->
             getQuestionProgress paperId other st' = getQuestionProgress paperId other st).
Proof.
  assert (Hread : forall updates,
            getQuestionProgress paperId questionId
              (updateQuestionProgress paperId questionId updates st)
            = merge (getQuestionProgress paperId questionId st) updates questionId paperId).
  { intros updates. unfold getQuestionProgress at 1, updateQuestionProgress, put.
    cbn [questionProgress]. rewrite lookup_insert_eq. unfold getQuestionProgress.
    now destruct (questionProgress st !! createGlobalKey paperId questionId None). }
  unfold markCompleted, markIncomplete, updateConfidence.
  split; [|split; [|split]].
  - rewrite Hread. now split.
  - rewrite Hread. now split.
  - now rewrite Hread.
  - intros st' Hst'.
    assert (Hupd : exists updates,
               st' = updateQuestionProgress paperId questionId updates st
               /\ upd_timeSpent updates = None /\ upd_studySessions updates = None).
    { destruct Hst' as [->|[->| ->]]; eexists; (split; [reflexivity|now split]). }
    destruct Hupd as [updates [-> [Ht Hs]]]. rewrite Hread.
    unfold merge. cbn [timeSpent studySessions]. rewrite Ht, Hs.
    split; [reflexivity|]. split; [reflexivity|].
    intros other Hne.
    eapply (getQuestionProgress_put_other paperId questionId other);
      [exact Hne|reflexivity].
Qed.

End ProgressSessionProps.

(** ** Progress tracker: breakdowns, weak areas, readiness *)

Module ProgressAnalyticsProps.
Import JS Progress ProgressAnalytics ProgressFacts AssocFacts.

Lemma Z_eqb_reflect (x y : Z) : reflect (x = y) (x =? y).
Proof. apply iff_reflect. symmetry. apply Z.eqb_eq. Qed.

Lemma count_question_step paperId st key acc q :
  count_question paperId st key acc q
  = Tally.step Z.eqb key
      (fun q (v : Z * Z) => (fst v + (if is_completed paperId st q then 1 else 0),
                             snd v + 1))
      (0, 0) acc q.
Proof.
  unfold count_question, Tally.step, is_completed.
  destruct (assoc_get Z.eqb (key q) acc) as [[c t]|];
    destruct (completed _); cbn [fst snd]; f_equal; f_equal; lia.
Qed.

Lemma breakdown_lookup paperId st key allQuestions k :
  let group := List.filter (fun q => key q =? k) allQuestions in
  assoc_get Z.eqb k (fold_left (count_question paperId st key) allQuestions [])
  = if Z.of_nat (length group) =? 0 then None
    else Some (Tally.count (is_completed paperId st) group, Z.of_nat (length group)).
Proof.
  intros group.
  rewrite (fold_left_ext_eq _ _ _ _ (count_question_step paperId st key)).
  unfold Breakdown. rewrite (tally_lookup Z.eqb Z_eqb_reflect).
  destruct (existsb (fun q => key q =? k) allQuestions) eqn:E.
  - assert (Hn : Z.of_nat (length group) <> 0).
    { unfold group. intros Hz.
      assert (Hnil : List.filter (fun q => key q =? k) allQuestions = [])
        by (apply length_zero_iff_nil; lia).
      apply existsb_false_filter in Hnil. congruence. }
    apply Z.eqb_neq in Hn. rewrite Hn. cbn [assoc_get].
    unfold Tally.total, Tally.filed. fold group.
    rewrite fold_counters, fold_indicator. cbn [fst snd]. f_equal. f_equal; lia.
  - apply existsb_false_filter in E. unfold group. now rewrite E.
Qed.

(** X18. The breakdowns by marks and by difficulty count the questions of
    the paper: a value that no question has is missing from the map, and
    the entry of one that some have holds how many of them are completed
    and how many there are, so [completed] never exceeds [total]. *)
Theorem breakdowns_count_questions paperId allQuestions st k :
  let by_marks := List.filter (fun q => marks q =? k) allQuestions in
  let by_difficulty := List.filter (fun q => difficulty_of q =? k) allQuestions in
  assoc_get Z.eqb k (getProgressByMarks paperId allQuestions st)
  = (if Z.of_nat (length by_marks) =? 0 then None
     else Some (Tally.count (is_completed paperId st) by_marks,
                Z.of_nat (length by_marks)))
  /\ assoc_get Z.eqb k (getProgressByDifficulty paperId allQuestions st)
     = (if Z.of_nat (length by_difficulty) =? 0 then None
        else Some (Tally.count (is_completed paperId st) by_difficulty,
                   Z.of_nat (length by_difficulty)))
  /\ 0 <= Tally.count (is_completed paperId st) by_marks <= Z.of_nat (length by_marks).
Proof.
  intros by_marks by_difficulty. split; [|split].
  - apply breakdown_lookup.
  - apply breakdown_lookup.
  - unfold Tally.count.
    pose proof (List.filter_length_le (is_completed paperId st) by_marks). lia.
Qed.

Lemma count_tag_step paperId st acc (qt : Question * string) :
  count_tag (getQuestionProgress paperId (question_id (fst qt)) st) acc (snd qt)
  = Tally.step String.eqb snd
      (fun (qt : Question * string) (v : Z * Z) =>
         (fst v + 1, snd v + (if is_low paperId st (fst qt) then 1 else 0)))
      (0, 0) acc qt.
Proof.
  unfold count_tag, Tally.step, is_low.
  destruct (assoc_get String.eqb (snd qt) acc) as [[t l]|];
    destruct (low_confidence _); cbn [fst snd]; f_equal; f_equal; lia.
Qed.

Lemma tag_performance_fold paperId allQuestions st :
  tag_performance paperId allQuestions st
  = fold_left
      (Tally.step String.eqb snd
         (fun (qt : Question * string) (v : Z * Z) =>
            (fst v + 1, snd v + (if is_low paperId st (fst qt) then 1 else 0)))
         (0, 0))
      (tagged allQuestions) [].
Proof.
  unfold tag_performance, tagged.
  generalize (@nil (string * (Z * Z))).
  induction allQuestions as [|q l IH]; intros acc; simpl; [reflexivity|].
  rewrite fold_left_app, IH. f_equal.
  generalize (tags q). intros ts. revert acc.
  induction ts as [|t ts IHt]; intros acc; simpl; [reflexivity|].
  rewrite IHt. f_equal. exact (count_tag_step paperId st acc (q, t)).
Qed.

Lemma fold_low_count {X} (p : X -> bool) (xs : list X) (n l : Z) :
  fold_left (fun (v : Z * Z) x => (fst v + 1, snd v + (if p x then 1 else 0))) xs (n, l)
  = (n + Z.of_nat (length xs), l + Tally.count p xs).
Proof.
  unfold Tally.count. revert n l. induction xs as [|x xs IH]; intros n l; simpl fold_left.
  - simpl. f_equal; lia.
  - rewrite IH. cbn [fst snd List.filter]. destruct (p x); simpl length; f_equal; lia.
Qed.

Lemma never_above_half_of_zero (y : num) :
  gt (div (of_Z 0) y) one_half = false.
Proof. now destruct y as [| | |[] m e]. Qed.

Lemma tagged_In allQuestions q tag :
  In (q, tag) (tagged allQuestions) -> In q allQuestions /\ In tag (tags q).
Proof.
  unfold tagged. rewrite List.in_concat. intros [l [Hl Hin]].
  apply in_map_iff in Hl. destruct Hl as [q' [<- Hq']].
  apply in_map_iff in Hin. destruct Hin as [t [[= <- <-] Ht]]. now split.
Qed.

(** X19. A weak area is a tag of the paper that at least one question
    rated 1 or 2 carries, and no tag is listed twice. *)
Theorem getWeakAreas_sound paperId allQuestions st :
  List.NoDup (getWeakAreas paperId allQuestions st)
  /\ forall tag, In tag (getWeakAreas paperId allQuestions st) ->
       exists q, In q allQuestions /\ In tag (tags q)
                 /\ low_confidence (getQuestionProgress paperId (question_id q) st) = true.
Proof.
  unfold getWeakAreas.
  assert (Hnd : List.NoDup (List.map fst (tag_performance paperId allQuestions st))).
  { rewrite tag_performance_fold.
    apply (tally_NoDup _ String.eqb_spec). constructor. }
  split.
  - revert Hnd. generalize (tag_performance paperId allQuestions st). intros perf.
    induction perf as [|[tag [t l]] perf IH]; simpl; intros Hnd; [constructor|].
    inversion Hnd as [|? ? Hnot Hnd']; subst.
    destruct (_ && _); simpl; [|now apply IH].
    constructor; [|now apply IH].
    intros Hin. apply Hnot. apply in_map_iff in Hin.
    destruct Hin as [[tag' v] [E Hin]]. simpl in E. subst tag'.
    apply filter_In in Hin. destruct Hin as [Hin _].
    now apply (in_map fst) in Hin.
  - intros tag Hin. apply in_map_iff in Hin.
    destruct Hin as [[tag' [total low]] [E Hin]]. simpl in E. subst tag'.
    apply filter_In in Hin. destruct Hin as [Hin Hweak].
    apply andb_true_iff in Hweak. destruct Hweak as [_ Hweak].
    apply (assoc_get_unique _ String.eqb_spec _ _ _ Hnd) in Hin.
    rewrite tag_performance_fold, (tally_lookup _ String.eqb_spec) in Hin.
    destruct (existsb _ (tagged allQuestions)) eqn:Ex; [|discriminate].
    cbn [assoc_get] in Hin. unfold Tally.total in Hin.
    rewrite fold_low_count in Hin. injection Hin as Htotal Hlow.
    destruct (Z.eq_dec low 0) as [Hz|Hnz].
    { subst low. rewrite Hz, never_above_half_of_zero in Hweak. discriminate. }
    assert (Hex : exists qt, In qt (List.filter (is_low paperId st ∘ fst)
                       (Tally.filed String.eqb snd tag (tagged allQuestions)))).
    { unfold Tally.count in Hlow.
      destruct (List.filter _ _) as [|qt l] eqn:El.
      - simpl in Hlow. lia.
      - exists qt. now left. }
    destruct Hex as [[q t] Hqt]. apply filter_In in Hqt. destruct Hqt as [Hqt Hl].
    unfold Tally.filed in Hqt. apply filter_In in Hqt. destruct Hqt as [Hqt Ht].
    simpl in Ht. apply String.eqb_eq in Ht. subst t.
    apply tagged_In in Hqt. exists q. now repeat split.
Qed.

Lemma readiness_points_bounds now progress m :
  0 <= m -> 0 <= readiness_points now progress m <= 3 * m.
Proof.
  intros Hm. unfold readiness_points.
  destruct (completed progress), (4 <=? confidenceLevel progress),
    (studied_recently now progress); lia.
Qed.

Lemma readiness_totals_from paperId allQuestions now st t0 m0 :
  Forall (fun q => 0 <= marks q) allQuestions ->
  let r := fold_left
             (fun '(totalScore, maxScore) question =>
                let progress := getQuestionProgress paperId (question_id question) st in
                (totalScore + readiness_points now progress (marks question),
                 maxScore + marks question * 3))
             allQuestions (t0, m0) in
  snd r = m0 + 3 * total_marks allQuestions
  /\ t0 <= fst r <= t0 + 3 * total_marks allQuestions.
Proof.
  intros H. revert t0 m0. induction H as [|q l Hq _ IH]; intros t0 m0; simpl.
  - lia.
  - pose proof (readiness_points_bounds now
                  (getQuestionProgress paperId (question_id q) st) _ Hq).
    specialize (IH (t0 + readiness_points now
                            (getQuestionProgress paperId (question_id q) st) (marks q))
                   (m0 + marks q * 3)).
    cbv zeta in IH. destruct IH as [IH1 IH2]. rewrite IH1. lia.
Qed.

Lemma round_percent_0_0 : round_percent 0 0 = None.
Proof. reflexivity. Qed.

(** X20. With marks that are not negative, the readiness score lies
    between 0 and its maximum, three times the marks of the paper; and a
    paper whose questions all carry 0 marks has a readiness that is not a
    number. *)
Theorem readiness_totals_bounds paperId allQuestions now st
        (Hmarks : Forall (fun q => 0 <= marks q) allQuestions) :
  snd (readiness_totals paperId allQuestions now st) = 3 * total_marks allQuestions
  /\ 0 <= fst (readiness_totals paperId allQuestions now st)
     <= snd (readiness_totals paperId allQuestions now st)
  /\ (total_marks allQuestions = 0 -> (0 < length allQuestions)%nat ->
      calculateExamReadiness paperId allQuestions now st = None).
Proof.
  pose proof (readiness_totals_from paperId allQuestions now st 0 0 Hmarks) as H.
  cbv zeta in H. fold (readiness_totals paperId allQuestions now st) in H.
  destruct H as [H1 H2]. split; [lia|]. split; [lia|].
  intros Hz Hlen. unfold calculateExamReadiness. rewrite Hz in H1, H2.
  destruct allQuestions as [|q l]; [simpl in Hlen; lia|].
  destruct (readiness_totals paperId (q :: l) now st) as [t m].
  cbn [fst snd] in H1, H2. assert (Ht : t = 0) by lia. assert (Hm : m = 0) by lia.
  rewrite Ht, Hm. exact round_percent_0_0.
Qed.

Lemma readiness_totals_bounds_witness :
  snd (readiness_totals "a.json" tagged_paper 1000 low_rated) = 3 * total_marks tagged_paper
  /\ 0 <= fst (readiness_totals "a.json" tagged_paper 1000 low_rated)
     <= snd (readiness_totals "a.json" tagged_paper 1000 low_rated).
Proof.
  destruct (readiness_totals_bounds "a.json" tagged_paper 1000 low_rated
              ltac:(repeat constructor; simpl; lia)) as [H1 [H2 _]].
  split; [exact H1|exact H2].
Defined.

End ProgressAnalyticsProps.

(** ** Progress tracker: what a mount reads back *)

Module ProgressStoreProps.
Import JS Progress ProgressStore ProgressSpec ProgressStoreFacts.

Lemma append_nil_r (s : string) : s +:+ EmptyString = s.
Proof.
  induction s as [|c s IH]; [reflexivity|].
  change (String c (s +:+ EmptyString) = String c s). now rewrite IH.
Qed.

Lemma append_assoc (a b c : string) : (a +:+ b) +:+ c = a +:+ (b +:+ c).
Proof.
  induction a as [|x a IH]; [reflexivity|].
  change (String x ((a +:+ b) +:+ c) = String x (a +:+ (b +:+ c))). now rewrite IH.
Qed.

Lemma split_from_plain (s cur : string) :
  includes "::" s = false -> split_from "::" s 0 cur = [cur +:+ s].
Proof.
  revert cur. induction s as [|c s IH]; intros cur H.
  - simpl. now rewrite append_nil_r.
  - cbn [includes] in H. apply orb_false_iff in H. destruct H as [Hp Hs].
    cbn [split_from]. rewrite Hp, (IH _ Hs), append_assoc. reflexivity.
Qed.

Lemma split_from_paper (p rest cur : string) :
  no_colon p = true ->
  split_from "::" (p +:+ "::" +:+ rest) 0 cur
  = (cur +:+ p) :: split_from "::" rest 0 EmptyString.
Proof.
  revert cur. induction p as [|c p IH]; intros cur H.
  - simpl. now rewrite append_nil_r.
  - cbn [no_colon] in H. apply andb_true_iff in H. destruct H as [Hc Hp].
    change (String c p +:+ "::" +:+ rest) with (String c (p +:+ "::" +:+ rest)).
    cbn [split_from].
    assert (Hpre : has_prefix "::" (String c (p +:+ "::" +:+ rest)) = false).
    { cbn [has_prefix]. rewrite Ascii.eqb_sym.
      apply negb_true_iff in Hc. now rewrite Hc. }
    rewrite Hpre, (IH _ Hp), append_assoc. reflexivity.
Qed.

Lemma includes_global_key (p q : string) : includes "::" (p +:+ "::" +:+ q) = true.
Proof.
  induction p as [|c p IH]; [reflexivity|].
  change (includes "::" (String c (p +:+ "::" +:+ q)) = true).
  cbn [includes]. rewrite IH. apply orb_true_r.
Qed.

Lemma with_ids_same p : with_ids p (paperId p) (questionId p) = p.
Proof. now destruct p. Qed.

Lemma load_entry_plain m e :
  plain_entry e -> load_entry m e = <[fst e := snd e]> m.
Proof.
  destruct e as [key p]. unfold plain_entry. cbn [fst snd].
  intros [-> [Hp Hq]]. unfold load_entry, key_of.
  rewrite includes_global_key. cbn [negb]. unfold split.
  rewrite split_from_paper by exact Hp. rewrite split_from_plain by exact Hq.
  cbn [nth String.append]. now rewrite with_ids_same.
Qed.

Lemma fold_insert_list_to_map (entries : list (string * QuestionProgress))
      (m : gmap string QuestionProgress) :
  List.NoDup (List.map fst entries) ->
  fold_left (fun m e => <[fst e := snd e]> m) entries m = list_to_map entries ∪ m.
Proof.
  revert m. induction entries as [|[k p] l IH]; intros m Hnd; simpl.
  - now rewrite (left_id_L ∅ (∪)).
  - inversion Hnd as [|? ? Hnot Hnd']; subst.
    rewrite IH by exact Hnd'.
    rewrite <- insert_union_l. symmetry. apply insert_union_r.
    apply not_elem_of_list_to_map_1. intros Hin. apply Hnot.
    now apply list_elem_of_In.
Qed.

(** X21. What the hook saves is read back as it was: a stored object
    whose entries sit under the key made of their own paper id (without a
    colon) and question id (without [::]) is loaded as that same map. *)
Theorem loadProgress_round_trip entries
        (Hnd : List.NoDup (List.map fst entries))
        (Hplain : Forall plain_entry entries) :
  loadProgress entries = list_to_map entries.
Proof.
  unfold loadProgress.
  assert (E : forall m, fold_left load_entry entries m
                        = fold_left (fun m e => <[fst e := snd e]> m) entries m).
  { induction Hplain as [|e l He _ IH]; intros m; simpl; [reflexivity|].
    inversion Hnd; subst. rewrite (load_entry_plain m e He). now apply IH. }
  rewrite E, fold_insert_list_to_map by exact Hnd.
  now rewrite (right_id_L ∅ (∪)).
Qed.

Lemma loadProgress_round_trip_witness :
  loadProgress [("a.json::1_a", record "a.json" "1_a" 90);
                ("b.json::1_a", record "b.json" "1_a" 30)]
  = list_to_map [("a.json::1_a", record "a.json" "1_a" 90);
                 ("b.json::1_a", record "b.json" "1_a" 30)].
Proof.
  apply loadProgress_round_trip.
  - repeat constructor; simpl; intuition discriminate.
  - repeat constructor.
Defined.

Lemma load_entry_key m key progress :
  exists paperId questionId,
    load_entry m (key, progress)
    = <[read_key key := with_ids progress paperId questionId]> m
    /\ (includes "::" key = false -> paperId = "default" /\ questionId = key)
    /\ (forall p q, no_colon p = true -> includes "::" q = false ->
          key = p +:+ "::" +:+ q -> paperId = p /\ questionId = q)
    /\ (forall p q r, no_colon p = true -> no_colon q = true ->
          key = p +:+ "::" +:+ q +:+ "::" +:+ r -> paperId = p /\ questionId = q).
Proof.
  unfold load_entry, read_key. destruct (includes "::" key) eqn:E; cbn [negb].
  - exists (nth 0 (split "::" key) EmptyString), (nth 1 (split "::" key) EmptyString).
    split; [reflexivity|]. split; [discriminate|]. split.
    + intros p q Hp Hq ->. unfold split.
      rewrite split_from_paper by exact Hp. rewrite split_from_plain by exact Hq.
      now split.
    + intros p q r Hp Hq ->. unfold split.
      rewrite split_from_paper by exact Hp. rewrite split_from_paper by exact Hq.
      now split.
  - exists "default", key. split; [reflexivity|]. split; [now split|].
    split.
    + intros p q _ _ ->. now rewrite includes_global_key in E.
    + intros p q r _ _ ->. now rewrite includes_global_key in E.
Qed.

Lemma loadProgress_keeps entries m k :
  ~ In k (read_keys entries) ->
  fold_left load_entry entries m !! k = m !! k.
Proof.
  revert m. induction entries as [|[key progress] l IH]; intros m Hk; [reflexivity|].
  simpl in Hk. cbn [fold_left]. rewrite IH by tauto.
  destruct (load_entry_key m key progress) as [p [q [-> _]]].
  apply lookup_insert_ne. tauto.
Qed.

(** X22. Every stored entry that no other entry is filed with is found
    after the load, under its own key when that holds [::] and under
    ['default::' + key] otherwise, with ids taken from the key: the paper
    ['default'] for a key without [::], else the text before the first [::]
    and the text between the first and the second, so that a question id
    which itself holds [::] comes back cut short. *)
Theorem loadProgress_reads_ids_from_keys entries key progress
        (Hnd : List.NoDup (read_keys entries))
        (Hin : In (key, progress) entries) :
  exists paperId questionId,
    loadProgress entries !! read_key key = Some (with_ids progress paperId questionId)
    /\ (includes "::" key = false -> paperId = "default" /\ questionId = key)
    /\ (forall p q, no_colon p = true -> includes "::" q = false ->
          key = p +:+ "::" +:+ q -> paperId = p /\ questionId = q)
    /\ (forall p q r, no_colon p = true -> no_colon q = true ->
          key = p +:+ "::" +:+ q +:+ "::" +:+ r -> paperId = p /\ questionId = q).
Proof.
  unfold loadProgress. generalize (∅ : gmap string QuestionProgress).
  induction entries as [|[key' progress'] l IH]; intros m; [contradiction|].
  cbn [read_keys List.map fst] in Hnd. inversion Hnd as [|? ? Hnot Hnd']; subst.
  cbn [fold_left]. destruct Hin as [E|Hin].
  - injection E as -> ->.
    destruct (load_entry_key m key progress) as [p [q [Hload Hids]]].
    exists p, q. split; [|exact Hids].
    rewrite loadProgress_keeps by exact Hnot. rewrite Hload. apply lookup_insert_eq.
  - now apply IH.
Qed.

Lemma loadProgress_reads_ids_from_keys_witness :
  loadProgress [("1_a", record "" "" 90); ("a.json::2::b", record "a.json" "2::b" 30)]
  !! "a.json::2::b"
  = Some (record "a.json" "2" 30).
Proof.
  destruct (loadProgress_reads_ids_from_keys
              [("1_a", record "" "" 90); ("a.json::2::b", record "a.json" "2::b" 30)]
              "a.json::2::b" (record "a.json" "2::b" 30)
              ltac:(repeat constructor; simpl; intuition discriminate)
              ltac:(right; left; reflexivity))
    as [p [q [Hlook [_ [_ Hcut]]]]].
  destruct (Hcut "a.json" "2" "b" eq_refl eq_refl eq_refl) as [-> ->].
  exact Hlook.
Defined.

Lemma createGlobalKey_own paperId questionId :
  createGlobalKey paperId questionId (Some paperId)
  = createGlobalKey paperId questionId None.
Proof. unfold createGlobalKey. now destruct (String.eqb paperId ""). Qed.

(** X23. A session that is open when the page is left is counted twice:
    the next mount adds it to its question up to the time of the mount
    and restores it as the open session, so that ending it afterwards
    adds its whole time, from the original start, once more. *)
Theorem interrupted_session_counted_twice paperId questionId start sessionType
        entries progress now1 now2
        (Hstored : loadProgress entries !! createGlobalKey paperId questionId None
                   = Some progress) :
  let session := {| session_questionId := questionId; session_paperId := paperId;
                    session_startTime := start; session_type := sessionType |} in
  let left := handleBeforeUnload {| progress_item := Some entries;
                                    session_item := Some session;
                                    cleanup_item := None |} in
  let st1 := mount paperId now1 left in
  let st2 := endStudySession paperId questionId now2 st1 in
  timeSpent (getQuestionProgress paperId questionId st1)
  = timeSpent progress + seconds (now1 - start)
  /\ activeSession st1 = Some session
  /\ timeSpent (getQuestionProgress paperId questionId st2)
     = timeSpent progress + seconds (now1 - start) + seconds (now2 - start)
  /\ length (studySessions (getQuestionProgress paperId questionId st2))
     = (length (studySessions progress) + 2)%nat.
Proof.
  intros session left st1 st2.
  assert (H1 : questionProgress st1 !! createGlobalKey paperId questionId None
               = Some {| questionId := Progress.questionId progress;
                         paperId := Progress.paperId progress;
                         completed := completed progress;
                         completedAt := completedAt progress;
                         timeSpent := timeSpent progress + seconds (now1 - start);
                         reviewCount := reviewCount progress;
                         lastStudied := lastStudied progress;
                         confidenceLevel := confidenceLevel progress;
                         studySessions :=
                           studySessions progress
                           ++ [{| startTime := start; endTime := Some now1;
                                  duration := seconds (now1 - start);
                                  sessionType := sessionType |}] |}).
  { unfold st1, left, handleBeforeUnload, mount, credit, session.
    cbn [session_item progress_item cleanup_item questionProgress
         session_questionId session_paperId session_startTime session_type].
    rewrite createGlobalKey_own, Hstored. cbn [or_else].
    now rewrite lookup_insert_eq. }
  assert (Ha : activeSession st1 = Some session) by reflexivity.
  assert (H2 : questionProgress st2 !! createGlobalKey paperId questionId None
               = Some (merge
                         {| questionId := Progress.questionId progress;
                            paperId := Progress.paperId progress;
                            completed := completed progress;
                            completedAt := completedAt progress;
                            timeSpent := timeSpent progress + seconds (now1 - start);
                            reviewCount := reviewCount progress;
                            lastStudied := lastStudied progress;
                            confidenceLevel := confidenceLevel progress;
                            studySessions :=
                              studySessions progress
                              ++ [{| startTime := start; endTime := Some now1;
                                     duration := seconds (now1 - start);
                                     sessionType := sessionType |}] |}
                         {| upd_questionId := None; upd_paperId := None;
                            upd_completed := None; upd_completedAt := None;
                            upd_timeSpent :=
                              Some (timeSpent progress + seconds (now1 - start)
                                    + seconds (now2 - start));
                            upd_reviewCount := None; upd_lastStudied := None;
                            upd_confidenceLevel := None;
                            upd_studySessions :=
                              Some ((studySessions progress
                                     ++ [{| startTime := start; endTime := Some now1;
                                            duration := seconds (now1 - start);
                                            sessionType := sessionType |}])
                                    ++ [{| startTime := start; endTime := Some now2;
                                           duration := seconds (now2 - start);
                                           sessionType := sessionType |}]) |}
                         questionId paperId)).
  { unfold st2, endStudySession. rewrite Ha.
    cbn [session_questionId session_paperId session_startTime session_type session].
    rewrite !String.eqb_refl. cbn [andb]. unfold put. cbn [questionProgress].
    rewrite H1. cbn [or_else timeSpent studySessions].
    now rewrite lookup_insert_eq. }
  unfold getQuestionProgress. rewrite H1, H2.
  cbn [merge timeSpent studySessions or_else upd_timeSpent upd_studySessions].
  repeat split; try reflexivity.
  rewrite !List.length_app. simpl. lia.
Qed.

Lemma interrupted_session_counted_twice_witness :
  let session := {| session_questionId := "1_a"; session_paperId := "a.json";
                    session_startTime := 1000000; session_type := study |} in
  let st1 := mount "a.json" 1060000
               (handleBeforeUnload
                  {| progress_item := Some [("a.json::1_a", record "a.json" "1_a" 0)];
                     session_item := Some session; cleanup_item := None |}) in
  timeSpent (getQuestionProgress "a.json" "1_a"
               (endStudySession "a.json" "1_a" 1090000 st1))
  = 150.
Proof.
  intros session st1.
  destruct (interrupted_session_counted_twice "a.json" "1_a" 1000000 study
              [("a.json::1_a", record "a.json" "1_a" 0)]
              (record "a.json" "1_a" 0) 1060000 1090000 eq_refl)
    as [_ [_ [H _]]].
  unfold st1, session. rewrite H. reflexivity.
Defined.

End ProgressStoreProps.

(** ** Revision flags across papers *)

Module SubjectRevisionProps.
Import JS SubjectRevision SubjectRevisionFacts AssocFacts.

Lemma getItem_setItem sto key value : getItem key (setItem sto key value) = Some value.
Proof. apply (assoc_get_set_eq _ String.eqb_spec). Qed.

Lemma getItem_setItem_ne sto key key' value :
  key <> key' -> getItem key' (setItem sto key value) = getItem key' sto.
Proof. apply (assoc_get_set_ne _ String.eqb_spec). Qed.

Lemma array_includes_In a x : array_includes a x = true <-> In x a.
Proof.
  unfold array_includes. rewrite List.existsb_exists. split.
  - intros [y [Hy E]]. apply String.eqb_eq in E. now subst.
  - intros H. exists x. split; [exact H|apply String.eqb_refl].
Qed.

Lemma array_includes_eq a b x :
  (In x a <-> In x b) -> array_includes a x = array_includes b x.
Proof.
  intros H. destruct (array_includes b x) eqn:E.
  - apply array_includes_In. apply H. now apply array_includes_In.
  - destruct (array_includes a x) eqn:E'; [|reflexivity].
    apply array_includes_In in E'. apply H in E'. apply array_includes_In in E'.
    congruence.
Qed.

Lemma toggled_In a questionId x :
  In x (toggled a questionId)
  <-> (if String.eqb x questionId then ~ In questionId a else In x a).
Proof.
  unfold toggled. destruct (array_includes a questionId) eqn:E.
  - apply array_includes_In in E. rewrite filter_In, negb_true_iff.
    destruct (String.eqb_spec x questionId) as [->|Hne]; [|tauto].
    split; [intros [_ H]; discriminate|tauto].
  - assert (Hnot : ~ In questionId a).
    { intros H. apply array_includes_In in H. congruence. }
    rewrite in_app_iff. simpl.
    destruct (String.eqb_spec x questionId) as [->|Hne]; [tauto|].
    split; [intros [H|[H|[]]]; [exact H|congruence]|tauto].
Qed.

Lemma toggled_flips a questionId :
  array_includes (toggled a questionId) questionId = negb (array_includes a questionId).
Proof.
  destruct (array_includes a questionId) eqn:E; cbn [negb].
  - destruct (array_includes (toggled a questionId) questionId) eqn:E'; [|reflexivity].
    apply array_includes_In, toggled_In in E'. rewrite String.eqb_refl in E'.
    apply array_includes_In in E. contradiction.
  - apply array_includes_In, toggled_In. rewrite String.eqb_refl.
    intros H. apply array_includes_In in H. congruence.
Qed.

Lemma toggled_other a questionId other :
  other <> questionId ->
  array_includes (toggled a questionId) other = array_includes a other.
Proof.
  intros Hne. apply array_includes_eq. rewrite toggled_In.
  apply String.eqb_neq in Hne. now rewrite Hne.
Qed.

Lemma find_none {X} (p : X -> bool) (l : list X) :
  (forall x, p x = false) -> List.find p l = None.
Proof.
  intros H. induction l as [|x l IH]; simpl; [reflexivity|]. now rewrite H.
Qed.

Lemma toggle_key_agrees sto questionPaperId filename :
  given filename = true
  \/ endsWith ".json" (text_of questionPaperId) = true
  \/ includes "3155204" (text_of questionPaperId) = false ->
  toggle_key sto (text_of questionPaperId) filename = read_key questionPaperId filename.
Proof.
  unfold toggle_key, read_key. intros H.
  destruct (given filename); [reflexivity|].
  destruct (endsWith ".json" (text_of questionPaperId)); [reflexivity|].
  destruct H as [H|[H|H]]; try discriminate.
  unfold existingFilenameKey. rewrite find_none; [reflexivity|].
  intros [key v]. rewrite H. now rewrite !andb_false_r.
Qed.

(** X24. With a file name, with a paper id that is a file name, or with a
    paper id that does not hold [3155204], a toggle flips the flag that
    [isQuestionMarkedForRevision] reads for that question and leaves the
    flags of the other questions. *)
Theorem toggleQuestionRevision_flips_flag sto questionId questionPaperId filename
        (Hid : given questionPaperId = true)
        (Hkey : given filename = true
                \/ endsWith ".json" (text_of questionPaperId) = true
                \/ includes "3155204" (text_of questionPaperId) = false) :
  isQuestionMarkedForRevision
    (toggleQuestionRevision sto questionId questionPaperId filename)
    questionId questionPaperId filename
  = negb (isQuestionMarkedForRevision sto questionId questionPaperId filename)
  /\ forall other, other <> questionId ->
       isQuestionMarkedForRevision
         (toggleQuestionRevision sto questionId questionPaperId filename)
         other questionPaperId filename
       = isQuestionMarkedForRevision sto other questionPaperId filename.
Proof.
  unfold isQuestionMarkedForRevision, toggleQuestionRevision.
  rewrite Hid. cbn [negb]. rewrite (toggle_key_agrees sto _ _ Hkey).
  fold (read_key questionPaperId filename).
  rewrite getItem_setItem.
  destruct (getItem (read_key questionPaperId filename) sto) as [a|].
  - fold (toggled a questionId). split; [apply toggled_flips|].
    intros other Hne. now apply toggled_other.
  - fold (toggled [] questionId). split; [apply toggled_flips|].
    intros other Hne. now apply toggled_other.
Qed.

Lemma toggleQuestionRevision_flips_flag_witness :
  isQuestionMarkedForRevision
    (toggleQuestionRevision one_file "2_b" (Some "3155204") (Some "ip-winter-2024.json"))
    "2_b" (Some "3155204") (Some "ip-winter-2024.json")
  = true.
Proof.
  rewrite (proj1 (toggleQuestionRevision_flips_flag one_file "2_b" (Some "3155204")
                    (Some "ip-winter-2024.json") eq_refl (or_introl eq_refl))).
  reflexivity.
Defined.

Lemma lit_app (a b : string) : lit (a +:+ b) = lit a ++ lit b.
Proof.
  unfold lit. induction a as [|c a IH]; simpl; [reflexivity|]. now rewrite IH.
Qed.

Lemma startsWith_app_long (p x y : jsstring) :
  (length p <= length x)%nat -> startsWith p (x ++ y) = startsWith p x.
Proof.
  revert x. induction p as [|c p IH]; intros x H; [reflexivity|].
  destruct x as [|d x]; simpl in *; [lia|].
  rewrite IH by lia. reflexivity.
Qed.

Lemma includes_length (w s : string) :
  includes w s = true -> (String.length w <= String.length s)%nat.
Proof.
  assert (Hp : forall w s, has_prefix w s = true
                           -> (String.length w <= String.length s)%nat).
  { clear. induction w as [|a w IH]; intros [|b s]; simpl; try lia; try discriminate.
    intros H. apply andb_true_iff in H. destruct H as [_ H]. apply IH in H. lia. }
  induction s as [|c s IH]; cbn [includes]; intros H.
  - rewrite orb_false_r in H. now apply Hp.
  - apply orb_true_iff in H. destruct H as [H|H]; [now apply Hp|].
    apply IH in H. simpl. lia.
Qed.

Lemma lit_length (s : string) : length (lit s) = String.length s.
Proof.
  unfold lit. rewrite List.length_map.
  induction s as [|c s IH]; simpl; [reflexivity|now rewrite IH].
Qed.

Lemma endsWith_revision_key (name : string) :
  (5 <= String.length name)%nat ->
  endsWith ".json" (revision_key name) = endsWith ".json" name.
Proof.
  intros H. unfold endsWith, revision_key. rewrite lit_app, rev_app_distr.
  apply startsWith_app_long. rewrite !List.length_rev, !lit_length. simpl. exact H.
Qed.

Lemma find_some_key sto questionPaperId key :
  existingFilenameKey sto questionPaperId = Some key ->
  endsWith ".json" key = true /\ includes "3155204" questionPaperId = true.
Proof.
  unfold existingFilenameKey.
  destruct (List.find _ sto) as [[k v]|] eqn:E; [|discriminate].
  intros [= <-]. apply List.find_some in E. destruct E as [_ E]. cbn [fst].
  apply andb_true_iff in E. destruct E as [E1 E2].
  apply andb_true_iff in E1. destruct E1 as [_ E1].
  apply andb_true_iff in E2. destruct E2 as [_ E2]. now split.
Qed.

(** X25. Without a file name, for a paper id that is no file name, when
    the scan of storage finds a key in file-name format the toggle writes
    under that key and not under the one [isQuestionMarkedForRevision]
    reads: the flag of every question of the paper reads as before. *)
Theorem toggleQuestionRevision_misses_read_key sto questionId questionPaperId
        filename key
        (Hid : given (Some questionPaperId) = true)
        (Hfile : given filename = false)
        (Hjson : endsWith ".json" questionPaperId = false)
        (Hscan : existingFilenameKey sto questionPaperId = Some key) :
  (forall q,
      isQuestionMarkedForRevision
        (toggleQuestionRevision sto questionId (Some questionPaperId) filename)
        q (Some questionPaperId) filename
      = isQuestionMarkedForRevision sto q (Some questionPaperId) filename)
  /\ getItem key (toggleQuestionRevision sto questionId (Some questionPaperId) filename)
     = Some (toggled (match getItem key sto with Some a => a | None => [] end)
                     questionId).
Proof.
  destruct (find_some_key _ _ _ Hscan) as [Hkjson Hinc].
  assert (Hne : key <> revision_key questionPaperId).
  { intros ->. apply includes_length in Hinc. simpl in Hinc.
    rewrite endsWith_revision_key in Hkjson by lia. congruence. }
  unfold isQuestionMarkedForRevision, toggleQuestionRevision, toggle_key.
  cbn [text_of]. rewrite Hid, Hfile, Hjson, Hscan. cbn [negb]. split.
  - intros q. now rewrite getItem_setItem_ne.
  - now rewrite getItem_setItem.
Qed.

Lemma toggleQuestionRevision_misses_read_key_witness :
  isQuestionMarkedForRevision
    (toggleQuestionRevision one_file "2_b" (Some "3155204") None)
    "2_b" (Some "3155204") None
  = false
  /\ getItem "revision-questions-ip-winter-2024.json"
             (toggleQuestionRevision one_file "2_b" (Some "3155204") None)
     = Some ["1_a"; "2_b"].
Proof.
  destruct (toggleQuestionRevision_misses_read_key one_file "2_b" "3155204" None
              "revision-questions-ip-winter-2024.json"
              eq_refl eq_refl eq_refl eq_refl) as [H1 H2].
  split; [now rewrite H1|exact H2].
Defined.

End SubjectRevisionProps.

(** ** Content tests and trimmed text *)

Module TextContentProps.
Import JS TextUtils TextContent.

Lemma trimStart_split (s : jsstring) :
  exists sp, s = sp ++ trimStart s /\ Forall (fun c => is_space c = true) sp.
Proof.
  induction s as [|c s [sp [E H]]]; simpl.
  - exists []. now split.
  - destruct (is_space c) eqn:Ec.
    + exists (c :: sp). split; [simpl; now rewrite <- E|now constructor].
    + exists []. now split.
Qed.

Lemma trimStart_head (s : jsstring) c r :
  trimStart s = c :: r -> is_space c = false.
Proof.
  induction s as [|d s IH]; simpl; [discriminate|].
  destruct (is_space d) eqn:Ed; [exact IH|]. now intros [= <- _].
Qed.

Lemma trimStart_fixed (s : jsstring) :
  (forall c r, s = c :: r -> is_space c = false) -> trimStart s = s.
Proof.
  destruct s as [|c s]; [reflexivity|]. intros H. simpl.
  now rewrite (H c s eq_refl).
Qed.

Lemma trimStart_nil (s : jsstring) :
  trimStart s = [] <-> forall c, In c s -> is_space c = true.
Proof.
  induction s as [|d s IH]; simpl; [tauto|].
  destruct (is_space d) eqn:Ed.
  - rewrite IH. split; [intros H c [<-|Hc]; auto|auto].
  - split; [discriminate|]. intros H. rewrite (H d) in Ed by now left. discriminate.
Qed.

Lemma trim_head (s : jsstring) c r : trim s = c :: r -> is_space c = false.
Proof.
  unfold trim, trimEnd. intros E.
  destruct (trimStart_split (rev (trimStart s))) as [sp [Hsplit _]].
  apply (f_equal (@rev _)) in Hsplit. rewrite rev_involutive, rev_app_distr, E in Hsplit.
  simpl in Hsplit. now apply trimStart_head in Hsplit.
Qed.

Lemma trim_last (s : jsstring) c r : rev (trim s) = c :: r -> is_space c = false.
Proof.
  unfold trim, trimEnd. rewrite rev_involutive. apply trimStart_head.
Qed.

Lemma trim_nil (s : jsstring) :
  trim s = [] <-> forall c, In c s -> is_space c = true.
Proof.
  rewrite <- trimStart_nil. split.
  - intros E. destruct (trimStart s) as [|c u] eqn:Eu; [reflexivity|].
    unfold trim, trimEnd in E. rewrite Eu in E.
    apply (f_equal (@rev _)) in E. rewrite rev_involutive in E. simpl in E.
    assert (Hall : forall d, In d (rev u ++ [c]) -> is_space d = true)
      by now apply trimStart_nil.
    apply trimStart_head in Eu. rewrite (Hall c) in Eu; [discriminate|].
    apply in_or_app. right. now left.
  - intros E. unfold trim. now rewrite E.
Qed.

Lemma trim_fixed (s : jsstring) :
  (forall c r, s = c :: r -> is_space c = false) ->
  (forall c r, rev s = c :: r -> is_space c = false) ->
  trim s = s.
Proof.
  intros Hh Hl. unfold trim, trimEnd.
  rewrite (trimStart_fixed s Hh), (trimStart_fixed (rev s) Hl).
  apply rev_involutive.
Qed.

(** X26. A text has content exactly when it is given and holds a
    character that is not white space; both versions of
    [shouldShowDiagram] are this test. *)
Theorem hasContent_iff text :
  (hasContent text = true
   <-> exists s c, text = Some s /\ In c s /\ is_space c = false)
  /\ shouldShowDiagram text = hasContent text
  /\ shouldShowDiagram' text = hasContent text.
Proof.
  assert (Hlen : forall s : jsstring,
            (0 <? length (trim s))%nat = true
            <-> exists c, In c s /\ is_space c = false).
  { intros s. rewrite Nat.ltb_lt. split.
    - intros H. destruct (existsb (fun c => negb (is_space c)) s) eqn:E.
      + apply List.existsb_exists in E. destruct E as [c [Hc Hs]].
        exists c. split; [exact Hc|now apply negb_true_iff].
      + assert (Hnil : trim s = []).
        { apply trim_nil. intros c Hc.
          destruct (is_space c) eqn:Ec; [reflexivity|].
          assert (Hex : existsb (fun c => negb (is_space c)) s = true)
            by (apply List.existsb_exists; exists c; now rewrite Ec).
          congruence. }
        rewrite Hnil in H. simpl in H. lia.
    - intros [c [Hc Hs]]. destruct (trim s) eqn:E; [|simpl; lia].
      rewrite (proj1 (trim_nil s) E c Hc) in Hs. discriminate. }
  split; [|split].
  - destruct text as [s|]; simpl.
    + destruct s as [|d s].
      * split; [discriminate|]. intros [s [c [[= <-] [[] _]]]].
      * rewrite Hlen. split.
        -- intros [c H]. now exists (d :: s), c.
        -- intros [s' [c [[= <-] H]]]. now exists c.
    + split; [discriminate|]. now intros [s [c [H _]]].
  - reflexivity.
  - destruct text as [[|d s]|]; reflexivity.
Qed.

(** X27. A cleaned answer neither begins nor ends with white space, so
    trimming it again changes nothing. *)
Theorem cleanAnswerText_is_trimmed text :
  trim (cleanAnswerText text) = cleanAnswerText text
  /\ (forall c r, cleanAnswerText text = c :: r -> is_space c = false)
  /\ (forall c r, rev (cleanAnswerText text) = c :: r -> is_space c = false).
Proof.
  assert (H : (forall c r, cleanAnswerText text = c :: r -> is_space c = false)
              /\ (forall c r, rev (cleanAnswerText text) = c :: r -> is_space c = false)).
  { unfold cleanAnswerText. destruct text as [|d text].
    - split; intros c r; discriminate.
    - split; intros c r; [apply trim_head|apply trim_last]. }
  destruct H as [Hh Hl]. split; [now apply trim_fixed|now split].
Qed.

End TextContentProps.

(** ** The paper loader: what cleaning does to a question *)

Module CleanQuestionProps.
Import JS Json TextUtils QuestionPaper AssocFacts.

Lemma str_eqb_spec (a b : jsstring) : reflect (a = b) (str_eqb a b).
Proof.
  revert b. induction a as [|x a IH]; intros [|y b]; simpl;
    try (constructor; congruence).
  unfold char_eqb. destruct (N.eqb_spec x y) as [->|Hne]; simpl.
  - destruct (IH b) as [->|Hne]; constructor; congruence.
  - constructor. congruence.
Qed.

Lemma clean_text_string f s :
  f [] = [] -> clean_text f (Value (JStr s)) = Some (f s).
Proof. intros Hf. destruct s; simpl; [now rewrite Hf|reflexivity]. Qed.

(** X28. Cleaning a question that is an object with a string answer and a
    string question text replaces these two by their cleaned texts and
    keeps every other member, in the same order; a question whose answer
    is something else that is truthy (a number that is not read as 0,
    [true], an array, an object) is kept as it is; and one whose answer
    is falsy ([null], [false], a number read as 0) gets the empty answer
    and its question text formatted. *)
Theorem clean_question_members ms :
  (forall a t,
      obj_get (lit "answer") ms = Some (JStr a) ->
      obj_get (lit "question_text") ms = Some (JStr t) ->
      exists ms',
        clean_question (JObj ms) = JObj ms'
        /\ obj_get (lit "answer") ms' = Some (JStr (cleanAnswerText a))
        /\ obj_get (lit "question_text") ms' = Some (JStr (formatQuestionText t))
        /\ (forall k, k <> lit "answer" -> k <> lit "question_text" ->
              obj_get k ms' = obj_get k ms)
        /\ List.map fst ms' = List.map fst ms)
  /\ (forall v,
        obj_get (lit "answer") ms = Some v -> truthy v = true ->
        (forall s, v <> JStr s) ->
        clean_question (JObj ms) = JObj ms)
  /\ (forall v t,
        obj_get (lit "answer") ms = Some v -> truthy v = false ->
        obj_get (lit "question_text") ms = Some (JStr t) ->
        exists ms',
          clean_question (JObj ms) = JObj ms'
          /\ obj_get (lit "answer") ms' = Some (JStr [])
          /\ obj_get (lit "question_text") ms' = Some (JStr (formatQuestionText t))).
Proof.
  split; [|split].
  - intros a t Ha Ht. unfold clean_question, get_prop. rewrite Ha, Ht.
    rewrite !clean_text_string by reflexivity. cbn [spread].
    eexists. split; [reflexivity|]. unfold obj_get, obj_set.
    assert (Hne : lit "question_text" <> lit "answer") by discriminate.
    split; [|split; [|split]].
    + rewrite (assoc_get_set_ne _ str_eqb_spec) by exact Hne.
      apply (assoc_get_set_eq _ str_eqb_spec).
    + apply (assoc_get_set_eq _ str_eqb_spec).
    + intros k Hk1 Hk2.
      rewrite !(assoc_get_set_ne _ str_eqb_spec) by congruence. reflexivity.
    + rewrite !(assoc_set_keys _ str_eqb_spec).
      rewrite (assoc_get_set_ne _ str_eqb_spec) by congruence.
      unfold obj_get in Ha, Ht. now rewrite Ha, Ht.
  - intros v Hv Htruthy Hnot. unfold clean_question, get_prop. rewrite Hv.
    unfold clean_text at 1. rewrite Htruthy.
    destruct v; try reflexivity. now destruct (Hnot s).
  - intros v t Hv Hfalsy Ht. unfold clean_question, get_prop. rewrite Hv, Ht.
    rewrite clean_text_string by reflexivity.
    unfold clean_text. rewrite Hfalsy. cbn [spread].
    assert (Hmatch : match Value v with
                     | Throws => JObj ms
                     | _ => JObj (obj_set (obj_set ms (lit "answer") (JStr []))
                                          (lit "question_text")
                                          (JStr (formatQuestionText t)))
                     end
                     = JObj (obj_set (obj_set ms (lit "answer") (JStr []))
                                     (lit "question_text")
                                     (JStr (formatQuestionText t))))
      by reflexivity.
    eexists. split; [exact Hmatch|]. unfold obj_get, obj_set.
    assert (Hne : lit "question_text" <> lit "answer") by discriminate.
    split.
    + rewrite (assoc_get_set_ne _ str_eqb_spec) by exact Hne.
      apply (assoc_get_set_eq _ str_eqb_spec).
    + apply (assoc_get_set_eq _ str_eqb_spec).
Qed.

(** Number literals as answers: [1e-400] and the half of the smallest
    positive number, [5^1075 * 10^-1075], are read as 0 and are falsy;
    [5e-324] and [25e-325] are not. *)
Lemma tiny_answers :
  truthy (JNum 1 (-400)) = false
  /\ truthy (JNum (5 ^ 1075) (-1075)) = false
  /\ truthy (JNum 5 (-324)) = true
  /\ truthy (JNum 25 (-325)) = true
  /\ truthy (JNum 0 5) = false.
Proof. repeat split; vm_compute; reflexivity. Qed.

End CleanQuestionProps.

(** ** Quiz mode *)

Module QuizModeProps.
Import JS Progress QuizMode.

(** X29. A quiz rating from 0 to 10 is recorded as half of it, halves
    rounded up: 1 and 2 give confidence 1, 3 and 4 give 2, and so on to 5
    for 9 and 10. *)
Theorem confidenceScore_halves rating (Hlow : 0 <= rating) (Hhigh : rating <= 10) :
  confidenceScore rating = Some ((rating + 1) / 2).
Proof.
  assert (H : rating = 0 \/ rating = 1 \/ rating = 2 \/ rating = 3 \/ rating = 4
              \/ rating = 5 \/ rating = 6 \/ rating = 7 \/ rating = 8
              \/ rating = 9 \/ rating = 10) by lia.
  repeat (destruct H as [->|H]; [vm_compute; reflexivity|]).
  subst. vm_compute. reflexivity.
Qed.

Lemma confidenceScore_halves_witness : confidenceScore 7 = Some 4.
Proof. apply (confidenceScore_halves 7); lia. Defined.

Lemma existsb_String_eqb_In s l : existsb (String.eqb s) l = true <-> In s l.
Proof.
  rewrite List.existsb_exists. split.
  - intros [y [Hy E]]. apply String.eqb_eq in E. now subst.
  - intros H. exists s. split; [exact H|apply String.eqb_refl].
Qed.

(** X30. The quiz asks the questions of its pool whose marks lie in the
    chosen range and, when tags are chosen, that carry one of them.  In
    revision mode the pool is the revision questions found across the
    subject's papers or, when none was found or the search failed, the
    paper's own questions marked for revision; otherwise it is the whole
    paper, or nothing when subjects are chosen and the paper's is not
    among them. *)
Theorem applyFilters_selects subject_name filters allQuestions found isMarked q :
  In q (applyFilters subject_name filters allQuestions found isMarked)
  <-> (if QuizHistory.revisionOnly filters
       then match found with
            | Some (q0 :: l) => In q (q0 :: l)
            | _ => In q allQuestions /\ isMarked (question_id q) = true
            end
       else In q allQuestions
            /\ (QuizHistory.subjects filters = []
                \/ In subject_name (QuizHistory.subjects filters)))
      /\ QuizHistory.minMarks filters <= marks q <= QuizHistory.maxMarks filters
      /\ (QuizHistory.selectedTags filters = []
          \/ exists tag, In tag (QuizHistory.selectedTags filters) /\ In tag (tags q)).
Proof.
  unfold applyFilters.
  set (pool := if QuizHistory.revisionOnly filters then _ else _).
  assert (Hpool : In q pool
                  <-> (if QuizHistory.revisionOnly filters
                       then match found with
                            | Some (q0 :: l) => In q (q0 :: l)
                            | _ => In q allQuestions /\ isMarked (question_id q) = true
                            end
                       else In q allQuestions
                            /\ (QuizHistory.subjects filters = []
                                \/ In subject_name (QuizHistory.subjects filters)))).
  { unfold pool. destruct (QuizHistory.revisionOnly filters).
    - destruct found as [[|q0 l]|]; cbn [length Nat.eqb]; try tauto;
        now rewrite filter_In.
    - destruct (QuizHistory.subjects filters) as [|s ss];
        cbn [length Nat.ltb Nat.leb].
      + intuition.
      + rewrite filter_In, existsb_String_eqb_In. intuition discriminate. }
  rewrite <- Hpool. clear Hpool. generalize pool. intros l.
  destruct (QuizHistory.selectedTags filters) as [|t ts];
    cbn [length Nat.ltb Nat.leb].
  - rewrite filter_In, andb_true_iff, !Z.leb_le. intuition.
  - rewrite !filter_In, andb_true_iff, !Z.leb_le, List.existsb_exists.
    split.
    + intros [[H1 H2] [tag [Htag Hq]]]. split; [exact H1|]. split; [exact H2|].
      right. exists tag. split; [exact Htag|now apply existsb_String_eqb_In].
    + intros [H1 [H2 [H3|[tag [Htag Hq]]]]]; [discriminate|].
      split; [now split|]. exists tag. split; [exact Htag|now apply existsb_String_eqb_In].
Qed.

End QuizModeProps.
